(** * resume_matcher: a shallow embedding of the scoring and parsing core

    The development follows the Python sources file by file:
    - [utils/preprocessing.py]   skill normalisation,
    - [config.py]                rule weights and the must-have penalty,
    - [scoring/rule_based.py]    [RuleBasedScorer.score],
    - [models/semantic_matcher.py] [SemanticMatcher.compute_skill_coverage],
    - [scoring/scorer.py]        [ResumeScorer.classify],
    - [parsers/base_parser.py]   [detect_sections], [extract_contact_info],
                                 the entry splitters, [extract_skills].

    Modelling conventions.
    - A Python [str] is a Rocq [string]; a character is read as the code
      point of the same number (0..255, the Latin-1 range), and the
      character predicates below ([py_isspace], [py_lower_char], ...) are
      Python's on that range.
    - A Python [int] is a [Z]; [len] is [Z.of_nat] of a length or [size].
    - A Python [set] of strings is a [gset string]; iteration order over a
      set is never observable in the functions modelled here.
    - JSON-like records handed to the scorers are values of [pyval]; a dict
      used as a record is an association list read by [py_get].
    - Raising an exception is returning [inl e] in the [py] monad. *)

From Stdlib Require Import ZArith QArith Ascii String List Bool Lia DecimalString.
From stdpp Require Import base decidable option list gmap sets strings.

Set Warnings "-register-all".
Local Open Scope Z_scope.

(* ===================================================================== *)
(** * Python strings                                                      *)
(* ===================================================================== *)

Module PyStr.

Definition code (c : ascii) : N := N_of_ascii c.

Definition in_range (lo hi : N) (c : ascii) : bool :=
  (N.leb lo (code c) && N.leb (code c) hi)%bool.

(** [str.isspace] on one character, which is also the class [\s] of [re]
    for [str] patterns: TAB..CR, FS..US, space, NEL and NBSP. *)
Definition py_isspace (c : ascii) : bool :=
  (in_range 9 13 c || in_range 28 32 c
   || N.eqb (code c) 133 || N.eqb (code c) 160)%bool.

(** Cased upper-case letters: A-Z and the Latin-1 capitals but the
    multiplication sign. *)
Definition py_isupper_char (c : ascii) : bool :=
  (in_range 65 90 c
   || (in_range 192 222 c && negb (N.eqb (code c) 215)))%bool.

Definition py_lower_char (c : ascii) : ascii :=
  if py_isupper_char c then ascii_of_N (code c + 32) else c.

Definition is_digit (c : ascii) : bool := in_range 48 57 c.

Definition is_ascii_alpha (c : ascii) : bool :=
  (in_range 65 90 c || in_range 97 122 c)%bool.

(** The class [\w] of [re] for [str] patterns: alphanumeric or underscore,
    where alphanumeric is [str.isalnum]. *)
Definition is_word (c : ascii) : bool :=
  (is_digit c || is_ascii_alpha c || N.eqb (code c) 95
   || N.eqb (code c) 170 || N.eqb (code c) 181 || N.eqb (code c) 186
   || in_range 178 179 c || N.eqb (code c) 185 || in_range 188 190 c
   || in_range 192 214 c || in_range 216 246 c || in_range 248 255 c)%bool.

(** [s.lower()] *)
Fixpoint lower (s : string) : string :=
  match s with
  | EmptyString => EmptyString
  | String c s' => String (py_lower_char c) (lower s')
  end.

(** [s.lstrip()], [s.rstrip()], [s.strip()] *)
Fixpoint lstrip (s : string) : string :=
  match s with
  | EmptyString => EmptyString
  | String c s' => if py_isspace c then lstrip s' else s
  end.

Fixpoint rstrip (s : string) : string :=
  match s with
  | EmptyString => EmptyString
  | String c s' =>
      match rstrip s' with
      | EmptyString => if py_isspace c then EmptyString else String c EmptyString
      | r => String c r
      end
  end.

Definition strip (s : string) : string := lstrip (rstrip s).

(** Truthiness of a string: [bool(s)]. *)
Definition nonempty (s : string) : bool :=
  match s with EmptyString => false | _ => true end.

(** [s.split(sep)] for a one-character separator: the pieces between the
    separators, never an empty list. *)
Fixpoint split_on (sep : ascii) (s : string) : list string :=
  match s with
  | EmptyString => [EmptyString]
  | String c s' =>
      if Ascii.eqb c sep then EmptyString :: split_on sep s'
      else match split_on sep s' with
           | [] => [String c EmptyString]
           | p :: ps => String c p :: ps
           end
  end.

(** [s.split()]: the maximal runs of non-whitespace characters. *)
Fixpoint split_ws_go (cur : string) (s : string) : list string :=
  match s with
  | EmptyString => if nonempty cur then [cur] else []
  | String c s' =>
      if py_isspace c
      then (if nonempty cur then [cur] else []) ++ split_ws_go EmptyString s'
      else split_ws_go (cur ++ String c EmptyString) s'
  end.

Definition split_ws (s : string) : list string := split_ws_go EmptyString s.

(** [sep.join(l)] *)
Fixpoint join (sep : string) (l : list string) : string :=
  match l with
  | [] => EmptyString
  | [x] => x
  | x :: xs => x ++ sep ++ join sep xs
  end.

(** [s.replace(a, b)] for one-character [a] and [b]. *)
Fixpoint replace_char (a b : ascii) (s : string) : string :=
  match s with
  | EmptyString => EmptyString
  | String c s' => String (if Ascii.eqb c a then b else c) (replace_char a b s')
  end.

(** [re.sub(r"\s+", " ", s)]: every maximal run of whitespace becomes one
    space. *)
Fixpoint collapse_ws_go (in_run : bool) (s : string) : string :=
  match s with
  | EmptyString => EmptyString
  | String c s' =>
      if py_isspace c
      then (if in_run then collapse_ws_go true s'
            else String " "%char (collapse_ws_go true s'))
      else String c (collapse_ws_go false s')
  end.

Definition collapse_ws (s : string) : string := collapse_ws_go false s.

(** [a in b] on strings. *)
Fixpoint contains (b a : string) : bool :=
  (String.prefix a b
   || match b with
      | EmptyString => false
      | String _ b' => contains b' a
      end)%bool.

(** The propositional reading of [a in b]. *)
Definition substring (a b : string) : Prop :=
  exists p q : string, b = (p ++ a ++ q)%string.

End PyStr.

(* ===================================================================== *)
(** * Python values and exceptions                                        *)
(* ===================================================================== *)

(** The JSON-like values a resume or job record is made of.  A dict is an
    association list with string keys; a record has each key at most
    once, and [py_get] reads the first binding. *)
Inductive pyval : Type :=
| PNone
| PBool (b : bool)
| PInt (n : Z)
| PStr (s : string)
| PList (l : list pyval)
| PDict (d : list (string * pyval)).

Abbreviation pydict := (list (string * pyval)).

Inductive exn : Type :=
| TypeError (msg : string)
| AttributeError (msg : string)
| IndexError (msg : string).

(** [str(e)] *)
Definition exn_str (e : exn) : string :=
  match e with TypeError m | AttributeError m | IndexError m => m end.

(** Computations that return or raise. *)
Definition py (A : Type) : Type := (exn + A)%type.

Definition ret {A} (a : A) : py A := inr a.
Definition raise {A} (e : exn) : py A := inl e.
Definition bind {A B} (c : py A) (k : A -> py B) : py B :=
  match c with
  | inl e => inl e
  | inr a => k a
  end.

Notation "'let*' x := c 'in' k" := (bind c (fun x => k))
  (at level 10, x name, c at level 100, k at level 200).

(** [d.get(key, default)] *)
Fixpoint py_get (d : pydict) (key : string) (default : pyval) : pyval :=
  match d with
  | [] => default
  | (k, v) :: d' => if String.eqb k key then v else py_get d' key default
  end.

(** [key in d] *)
Fixpoint py_has_key (d : pydict) (key : string) : bool :=
  match d with
  | [] => false
  | (k, _) :: d' => (String.eqb k key || py_has_key d' key)%bool
  end.

(** [bool(v)] *)
Definition py_truthy (v : pyval) : bool :=
  match v with
  | PNone => false
  | PBool b => b
  | PInt n => negb (n =? 0)
  | PStr s => PyStr.nonempty s
  | PList l => match l with [] => false | _ => true end
  | PDict d => match d with [] => false | _ => true end
  end.

(** [a or b] *)
Definition py_or (a b : pyval) : pyval := if py_truthy a then a else b.

(** [type(v).__name__] *)
Definition type_name (v : pyval) : string :=
  match v with
  | PNone => "NoneType"
  | PBool _ => "bool"
  | PInt _ => "int"
  | PStr _ => "str"
  | PList _ => "list"
  | PDict _ => "dict"
  end.

(** The exception of [v.attr] for an attribute that [v] does not have. *)
Definition no_attribute (v : pyval) (attr : string) : exn :=
  AttributeError ("'" ++ type_name v ++ "' object has no attribute '"
                  ++ attr ++ "'").

Fixpoint chars (s : string) : list pyval :=
  match s with
  | EmptyString => []
  | String c s' => PStr (String c EmptyString) :: chars s'
  end.

(** [for x in v]: the items a [for] loop or a comprehension visits.  A
    list gives its items, a string its characters, a dict its keys;
    anything else is not iterable. *)
Definition py_iter (v : pyval) : py (list pyval) :=
  match v with
  | PList l => ret l
  | PStr s => ret (chars s)
  | PDict d => ret (map (fun kv => PStr (fst kv)) d)
  | _ => raise (TypeError ("'" ++ type_name v ++ "' object is not iterable"))
  end.

(** [v.lower()] *)
Definition py_lower (v : pyval) : py string :=
  match v with
  | PStr s => ret (PyStr.lower s)
  | _ => raise (no_attribute v "lower")
  end.

(** [[s for s in l if isinstance(s, str)]] *)
Fixpoint only_strs (l : list pyval) : list string :=
  match l with
  | [] => []
  | PStr s :: l' => s :: only_strs l'
  | _ :: l' => only_strs l'
  end.

(** Monadic map, for comprehensions whose body may raise. *)
Fixpoint mapM {A B} (f : A -> py B) (l : list A) : py (list B) :=
  match l with
  | [] => ret []
  | x :: xs => let* y := f x in let* ys := mapM f xs in ret (y :: ys)
  end.

(* ===================================================================== *)
(** * utils/preprocessing.py                                              *)
(* ===================================================================== *)

Module Preprocessing.
Import PyStr.

(** [normalize_text]: the text before the first opening parenthesis,
    stripped and lowercased; the empty string for a non-string. *)
Definition normalize_text (text : pyval) : string :=
  match text with
  | PStr t => lower (strip (hd EmptyString (split_on "("%char t)))
  | _ => EmptyString
  end.

(** [normalize_skill_string] *)
Definition normalize_skill_string (skill : pyval) : string :=
  let s := normalize_text skill in
  let s := replace_char "-"%char " "%char (replace_char "/"%char " "%char s) in
  strip (collapse_ws s).

(** The [mapping] literal of [expand_skill_synonyms]. *)
Definition mapping : list (string * list string) :=
  [ ("rest api development", ["rest"; "api"; "rest api"]);
    ("rest api", ["rest"; "api"]);
    ("ci cd pipelines", ["cicd"; "ci"; "cd"; "ci cd"]);
    ("nosql databases", ["nosql"]);
    ("amazon web services", ["aws"]);
    ("aws", ["amazon web services"]);
    ("graphql", ["graph ql"]);
    ("microservices architecture", ["microservices"]) ].

Fixpoint mapping_get (m : list (string * list string)) (sk : string)
  : option (list string) :=
  match m with
  | [] => None
  | (k, v) :: m' => if String.eqb k sk then Some v else mapping_get m' sk
  end.

(** [expand_skill_synonyms]: every skill, and the synonyms of those that
    are keys of [mapping]. *)
Fixpoint expand_skill_synonyms (skills : list string) : gset string :=
  match skills with
  | [] => ∅
  | sk :: rest =>
      {[ sk ]}
      ∪ match mapping_get mapping sk with
        | Some syns => list_to_set syns
        | None => ∅
        end
      ∪ expand_skill_synonyms rest
  end.

(** The comprehension of [normalize_skill_set]: strings whose [strip()] is
    non-empty, each normalised. *)
Fixpoint normalized_strs (raw : list pyval) : list string :=
  match raw with
  | [] => []
  | PStr s :: raw' =>
      if nonempty (strip s)
      then normalize_skill_string (PStr s) :: normalized_strs raw'
      else normalized_strs raw'
  | _ :: raw' => normalized_strs raw'
  end.

(** [normalize_skill_set] on the items of its argument. *)
Definition normalize_skill_set (raw : list pyval) : gset string :=
  let normalized : gset string := list_to_set (normalized_strs raw) in
  expand_skill_synonyms (elements normalized).

(** [normalize_skill_set] applied to a set of strings, as when its own
    result is normalised again. *)
Definition normalize_skill_set_of_set (X : gset string) : gset string :=
  normalize_skill_set (map PStr (elements X)).

End Preprocessing.

(* ===================================================================== *)
(** * [str(v)] and [repr(v)]                                              *)
(* ===================================================================== *)

Module PyRepr.
Import PyStr.

Definition dquote : ascii := ascii_of_nat 34.
Definition squote : ascii := "'"%char.
Definition backslash : ascii := ascii_of_nat 92.

Definition hex_digit (n : N) : ascii :=
  if N.ltb n 10 then ascii_of_N (48 + n) else ascii_of_N (87 + n).

(** [str.isprintable] on one character of the Latin-1 range. *)
Definition printable (c : ascii) : bool :=
  (in_range 32 126 c
   || (in_range 161 255 c && negb (N.eqb (code c) 173)))%bool.

Definition repr_char (quote : ascii) (c : ascii) : string :=
  if (Ascii.eqb c backslash || Ascii.eqb c quote)%bool
  then String backslash (String c EmptyString)
  else if N.eqb (code c) 9 then String backslash "t"
  else if N.eqb (code c) 10 then String backslash "n"
  else if N.eqb (code c) 13 then String backslash "r"
  else if printable c then String c EmptyString
  else String backslash
         (String "x" (String (hex_digit (code c / 16))
                        (String (hex_digit (code c mod 16)) EmptyString))).

Fixpoint has_char (a : ascii) (s : string) : bool :=
  match s with
  | EmptyString => false
  | String c s' => (Ascii.eqb c a || has_char a s')%bool
  end.

Fixpoint repr_chars (quote : ascii) (s : string) : string :=
  match s with
  | EmptyString => EmptyString
  | String c s' => (repr_char quote c ++ repr_chars quote s')%string
  end.

(** [repr(s)] of a string: single quotes, unless the string has a single
    quote and no double quote. *)
Definition repr_str (s : string) : string :=
  let quote :=
    if (has_char squote s && negb (has_char dquote s))%bool
    then dquote else squote in
  (String quote (repr_chars quote s) ++ String quote EmptyString)%string.

Definition str_int (n : Z) : string :=
  DecimalString.NilZero.string_of_int (Z.to_int n).

Fixpoint py_repr (v : pyval) : string :=
  match v with
  | PNone => "None"
  | PBool true => "True"
  | PBool false => "False"
  | PInt n => str_int n
  | PStr s => repr_str s
  | PList l =>
      ("[" ++ join ", " (map py_repr l) ++ "]")%string
  | PDict d =>
      ("{" ++ join ", "
                (map (fun kv => (repr_str (fst kv) ++ ": " ++ py_repr (snd kv))%string) d)
           ++ "}")%string
  end.

(** [str(v)] *)
Definition py_str (v : pyval) : string :=
  match v with
  | PStr s => s
  | _ => py_repr v
  end.

End PyRepr.

(* ===================================================================== *)
(** * config.py                                                           *)
(* ===================================================================== *)

Module Config.

(** [RULE_WEIGHTS] *)
Definition required_skill_point : Z := 10.
Definition preferred_skill_point : Z := 3.
Definition experience_title_point : Z := 5.
Definition experience_desc_bonus : Z := 1.
Definition experience_desc_bonus_cap : Z := 10.
Definition education_full : Z := 10.
Definition education_partial : Z := 5.
Definition projects_cap : Z := 10.
Definition company_point : Z := 8.
Definition company_cap : Z := 20.

Definition MUST_HAVE_PENALTY : Z := 30.

End Config.

(* ===================================================================== *)
(** * utils/preprocessing.py, continued, and the shared skill loop        *)
(* ===================================================================== *)

Module Records.
Import PyStr Preprocessing.

(** [flatten_experience_description] *)
Definition flatten_experience_description (exp_item : pyval) : string :=
  match exp_item with
  | PDict d =>
      match py_get d "description" (PStr "") with
      | PList desc => join " " (only_strs desc)
      | desc => PyRepr.py_str desc
      end
  | PStr s => s
  | _ => EmptyString
  end.

(** One round of the loop over [(skills_data, technical_skills_data)]: the
    strings of every list-valued entry of a dict, or the strings of a
    list; nothing for any other shape. *)
Definition skills_of_source (skill_source : pyval) : list string :=
  match skill_source with
  | PDict d =>
      flat_map (fun kv => match snd kv with
                          | PList skill_list => only_strs skill_list
                          | _ => []
                          end) d
  | PList l => only_strs l
  | _ => []
  end.

(** [resume_raw_skills], as [RuleBasedScorer.score] and both methods of
    [SemanticMatcher] build it. *)
Definition resume_raw_skills (resume : pydict) : list string :=
  skills_of_source (py_get resume "skills" (PDict []))
  ++ skills_of_source (py_get resume "technical_skills" (PDict [])).

Definition resume_skill_set (resume : pydict) : gset string :=
  normalize_skill_set (map PStr (resume_raw_skills resume)).

(** [normalize_skill_set(d.get(key, []))] *)
Definition normalized_field (d : pydict) (key : string) : py (gset string) :=
  let* items := py_iter (py_get d key (PList [])) in
  ret (normalize_skill_set items).

End Records.

(* ===================================================================== *)
(** * scoring/rule_based.py                                               *)
(* ===================================================================== *)

Module RuleBasedScorer.
Import PyStr Preprocessing Records Config.

Record breakdown : Type := Breakdown {
  skills_score : Z;
  education_score : Z;
  experience_score : Z;
  projects_score : Z;
  company_score : Z
}.

Definition len (s : string) : Z := Z.of_nat (String.length s).

(** [any(part in resume_skill for part in skill_parts if len(part) > 2)]
    for some [resume_skill] of the resume. *)
Definition partial_hit (resume_skills : gset string) (skill : string) : bool :=
  existsb
    (fun resume_skill =>
       existsb (fun part => (2 <? len part) && contains resume_skill part)
               (split_ws skill))
    (elements resume_skills).

(** The partial-matching loop over [required_skills] (and the same loop
    over [preferred_skills]): a skill not matched yet is added when some
    resume skill contains one of its parts. *)
Definition partial_matching (resume_skills wanted matched : gset string)
  : gset string :=
  foldl (fun matched skill =>
           if decide (skill ∈ matched) then matched
           else if partial_hit resume_skills skill
                then matched ∪ {[ skill ]}
                else matched)
        matched (elements wanted).

(** The two branches that read an education entry; [None] is the
    [continue] of any other shape. *)
Definition edu_degree_field (edu : pyval) : py (option (string * string)) :=
  match edu with
  | PDict d =>
      let* degree := py_lower (py_or (py_get d "degree" PNone) (PStr "")) in
      let* field := py_lower (py_or (py_get d "field" PNone) (PStr "")) in
      ret (Some (degree, field))
  | PStr s => ret (Some (lower s, lower s))
  | _ => ret None
  end.

(** The education loop, with its [break] at the first entry whose degree
    contains the first word of the requirement. *)
Fixpoint education_loop (job : pydict) (edus : list pyval) (edu_score : Z)
  : py Z :=
  match edus with
  | [] => ret edu_score
  | edu :: rest =>
      let* df := edu_degree_field edu in
      match df with
      | None => education_loop job rest edu_score
      | Some (degree, field) =>
          let* req := py_lower (py_get job "education_required" (PStr "")) in
          let* base :=
            if nonempty req
            then match split_ws req with
                 | b :: _ => ret b
                 | [] => raise (IndexError "list index out of range")
                 end
            else ret EmptyString in
          if nonempty base && contains degree base
          then
            if contains req "computer" && contains req "science"
               && (contains field "computer" || contains field "comput")
            then ret education_full
            else ret (Z.max edu_score education_partial)
          else education_loop job rest edu_score
      end
  end.

(** The two branches that read an experience entry. *)
Definition exp_title_desc (exp : pyval) : py (option (string * string)) :=
  match exp with
  | PDict d =>
      let* title := py_lower (py_or (py_get d "title" PNone) (PStr "")) in
      ret (Some (title, lower (flatten_experience_description exp)))
  | PStr s => ret (Some (lower s, lower s))
  | _ => ret None
  end.

(** The experience loop: the pair [(exp_score, desc_bonus)] after it. *)
Fixpoint experience_loop (required_skills : gset string) (exps : list pyval)
    (exp_score desc_bonus : Z) : py (Z * Z) :=
  match exps with
  | [] => ret (exp_score, desc_bonus)
  | exp :: rest =>
      let* td := exp_title_desc exp in
      match td with
      | None => experience_loop required_skills rest exp_score desc_bonus
      | Some (title, desc_text) =>
          let exp_score :=
            if existsb (fun skill => contains title skill)
                       (elements required_skills)
            then exp_score + experience_title_point else exp_score in
          let desc_bonus :=
            foldl (fun acc req_skill =>
                     if contains desc_text req_skill
                     then acc + experience_desc_bonus else acc)
                  desc_bonus (elements required_skills) in
          experience_loop required_skills rest exp_score desc_bonus
      end
  end.

(** [techs] of one project entry. *)
Definition project_techs (required_skills : gset string) (proj : pyval)
  : py (gset string) :=
  match proj with
  | PDict d =>
      let* items := py_iter (py_get d "technologies" (PList [])) in
      let* lowered := mapM py_lower items in
      ret (list_to_set lowered)
  | PStr s =>
      ret (list_to_set
             (List.filter (fun skill => contains (lower s) skill)
                          (elements required_skills)))
  | _ => ret ∅
  end.

Fixpoint projects_loop (required_skills : gset string) (projs : list pyval)
    (proj_score : Z) : py Z :=
  match projs with
  | [] => ret proj_score
  | proj :: rest =>
      let* techs := project_techs required_skills proj in
      projects_loop required_skills rest
        (proj_score + Z.of_nat (size (techs ∩ required_skills)) * 2)
  end.

(** One of the two loops over experience entries that look for a
    preferred company; entries that are not dicts are passed over. *)
Fixpoint company_loop (preferred_companies : gset string) (exps : list pyval)
    (company_score : Z) : py Z :=
  match exps with
  | [] => ret company_score
  | PDict d :: rest =>
      let* company := py_lower (py_or (py_get d "company" PNone) (PStr "")) in
      company_loop preferred_companies rest
        (if existsb (fun pref_company => contains company pref_company)
                    (elements preferred_companies)
         then company_score + company_point else company_score)
  | _ :: rest => company_loop preferred_companies rest company_score
  end.

(** [missing_must]: truthy when some must-have skill is not a resume
    skill. *)
Definition missing_must (must_have resume_skills : gset string) : list string :=
  List.filter (fun s => bool_decide (s ∉ resume_skills)) (elements must_have).

(** The last two statements of [score]: the penalty and the cap. *)
Definition penalise (missing : list string) (score : Z) : Z :=
  match missing with
  | [] => score
  | _ => Z.max 0 (score - MUST_HAVE_PENALTY)
  end.

(** [RuleBasedScorer.score]: the total, the breakdown, the matched and the
    missing required skills (the last two as the sets the returned lists
    are made from). *)
Definition score (resume job : pydict)
  : py (Z * breakdown * gset string * gset string) :=
  let resume_skills := resume_skill_set resume in
  let* required_skills := normalized_field job "required_skills" in
  let* preferred_skills := normalized_field job "preferred_skills" in
  let matched_required :=
    partial_matching resume_skills required_skills
      (resume_skills ∩ required_skills) in
  let matched_preferred :=
    partial_matching resume_skills preferred_skills
      (resume_skills ∩ preferred_skills) in
  let skills :=
    Z.of_nat (size matched_required) * required_skill_point
    + Z.of_nat (size matched_preferred) * preferred_skill_point in
  let score := 0 + skills in
  let* edus := py_iter (py_get resume "education" (PList [])) in
  let* edu_score := education_loop job edus 0 in
  let score := score + edu_score in
  let* exps := py_iter (py_get resume "experience" (PList [])) in
  let* ed := experience_loop required_skills exps 0 0 in
  let desc_bonus := Z.min (snd ed) experience_desc_bonus_cap in
  let experience := Z.min (fst ed + desc_bonus) 15 in
  let score := score + experience in
  let* projs := py_iter (py_get resume "projects" (PList [])) in
  let* proj_score := projects_loop required_skills projs 0 in
  let projects := Z.min proj_score projects_cap in
  let score := score + projects in
  let* companies := py_iter (py_get job "preferred_companies" (PList [])) in
  let* lowered := mapM py_lower companies in
  let preferred_companies : gset string := list_to_set lowered in
  let* exps := py_iter (py_get resume "experience" (PList [])) in
  let* company_score := company_loop preferred_companies exps 0 in
  let* work := py_iter (py_get resume "work_experience" (PList [])) in
  let* company_score := company_loop preferred_companies work company_score in
  let company := Z.min company_score company_cap in
  let score := score + company in
  let* must_have := normalized_field job "must_have_skills" in
  let score := penalise (missing_must must_have resume_skills) score in
  ret (Z.min score 100,
       Breakdown skills edu_score experience projects company,
       matched_required,
       required_skills ∖ matched_required).

End RuleBasedScorer.

(* ===================================================================== *)
(** * models/semantic_matcher.py                                          *)
(* ===================================================================== *)

Module SemanticMatcher.
Import PyStr Preprocessing Records.

(** [len(a) / float(len(b))]: the quotient of two lengths, as the rational
    the float division approximates. *)
Definition ratio (a b : nat) : Q := Z.of_nat a # Pos.of_nat b.

(** [SemanticMatcher.compute_skill_coverage] *)
Definition compute_skill_coverage (job_data resume_data : pydict) : py Q :=
  let* items := py_iter (py_get job_data "required_skills" (PList [])) in
  let* lowered := mapM py_lower items in
  let required : gset string := list_to_set lowered in
  let resume_skills := resume_skill_set resume_data in
  if bool_decide (required = ∅)
  then ret 0%Q
  else ret (ratio (size (required ∩ resume_skills)) (size required)).

(** Coverage as the specification words it: the job's required skills are
    normalised like the resume's before the two sets are intersected. *)
Definition coverage_as_specified (job_data resume_data : pydict) : py Q :=
  let* required := normalized_field job_data "required_skills" in
  let resume_skills := resume_skill_set resume_data in
  if bool_decide (required = ∅)
  then ret 0%Q
  else ret (ratio (size (required ∩ resume_skills)) (size required)).

End SemanticMatcher.

(* ===================================================================== *)
(** * scoring/scorer.py                                                   *)
(* ===================================================================== *)

Module ResumeScorer.

(** A [ResumeScorer] instance.  A float threshold or score is modelled by
    the rational number it denotes; the comparison [>=] of two floats that
    are numbers is the comparison of these rationals. *)
Record t : Type := Make {
  suitable_threshold : Q;
  maybe_threshold : Q
}.

(** [ResumeScorer()] with the default thresholds. *)
Definition default : t :=
  {| suitable_threshold := 8 # 10; maybe_threshold := 5 # 10 |}.

(** [ResumeScorer.classify] *)
Definition classify (self : t) (score : Q) : string :=
  if Qle_bool (suitable_threshold self) score then "Suitable"
  else if Qle_bool (maybe_threshold self) score then "Maybe Suitable"
  else "Not Suitable".

(** [ResumeScorer.score_resume] *)
Definition score_resume (self : t) (composite_score : Q) : string * Q :=
  (classify self composite_score, composite_score).

End ResumeScorer.
(* ===================================================================== *)
(** * The regular expressions of [re]                                     *)
(* ===================================================================== *)

(** A backtracking matcher with the priorities of Python's [re]: the
    leftmost start, the first alternative that leads to a match, greedy
    repetitions as long as possible and lazy ones as short as possible.
    Patterns are written as in the source and read by [Re.compile]. *)
Module Re.
Import PyStr.

Inductive regex : Type :=
| Eps
| Chr (p : ascii -> bool)
| Seq (a b : regex)
| Alt (a b : regex)
| Star (greedy : bool) (a : regex)
| Group (n : nat) (a : regex)
| WordB
| Bol
| Eol.

Definition opt (greedy : bool) (r : regex) : regex :=
  if greedy then Alt r Eps else Alt Eps r.

Fixpoint rep (n : nat) (r : regex) : regex :=
  match n with
  | O => Eps
  | S n' => Seq r (rep n' r)
  end.

(** At most [n] further copies of [r]. *)
Fixpoint rep_upto (greedy : bool) (n : nat) (r : regex) : regex :=
  match n with
  | O => Eps
  | S n' => opt greedy (Seq r (rep_upto greedy n' r))
  end.

(** [r{lo,hi}], with [hi = None] for [r{lo,}]. *)
Definition rep_range (greedy : bool) (lo : nat) (hi : option nat) (r : regex)
  : regex :=
  Seq (rep lo r)
      (match hi with
       | None => Star greedy r
       | Some h => rep_upto greedy (h - lo) r
       end).

(** The spans of the groups that took part in a match, latest first. *)
Definition caps : Type := list (nat * (nat * nat)).

Section Matcher.
Context {A : Type}.
Variable s : list ascii.

Definition word_at (i : nat) : bool :=
  match nth_error s i with
  | Some c => is_word c
  | None => false
  end.

(** [\b]: exactly one of the two neighbouring positions holds a word
    character. *)
Definition boundary (i : nat) : bool :=
  xorb (match i with O => false | S j => word_at j end) (word_at i).

(** [$]: the end of the string, or just before a newline that ends it. *)
Definition at_end (i : nat) : bool :=
  (Nat.eqb i (length s)
   || (Nat.eqb (S i) (length s)
       && match nth_error s i with
          | Some c => Ascii.eqb c (ascii_of_nat 10)
          | None => false
          end))%bool.

(** [run r i c k]: match [r] from position [i], and hand every way of
    matching, in priority order, to [k] until [k] accepts one. *)
Fixpoint run (r : regex) (i : nat) (c : caps)
    (k : nat -> caps -> option A) {struct r} : option A :=
  match r with
  | Eps => k i c
  | Chr p =>
      match nth_error s i with
      | Some x => if p x then k (S i) c else None
      | None => None
      end
  | Seq a b => run a i c (fun j c' => run b j c' k)
  | Alt a b =>
      match run a i c k with
      | Some x => Some x
      | None => run b i c k
      end
  | Star greedy a =>
      (fix loop (fuel : nat) (i : nat) (c : caps) {struct fuel} : option A :=
         match fuel with
         | O => k i c
         | S fuel' =>
             if greedy
             then match run a i c (fun j c' =>
                                     if Nat.ltb i j then loop fuel' j c'
                                     else None) with
                  | Some x => Some x
                  | None => k i c
                  end
             else match k i c with
                  | Some x => Some x
                  | None => run a i c (fun j c' =>
                                         if Nat.ltb i j then loop fuel' j c'
                                         else None)
                  end
         end) (length s - i)%nat i c
  | Group n a => run a i c (fun j c' => k j ((n, (i, j)) :: c'))
  | WordB => if boundary i then k i c else None
  | Bol => if Nat.eqb i 0 then k i c else None
  | Eol => if at_end i then k i c else None
  end.

End Matcher.

(** A match object: the span of the whole match and of its groups. *)
Record rmatch : Type := RMatch {
  m_start : nat;
  m_end : nat;
  m_caps : caps
}.

Definition match_at (r : regex) (s : list ascii) (i : nat) : option rmatch :=
  run s r i [] (fun j c => Some (RMatch i j c)).

Fixpoint search_from (r : regex) (s : list ascii) (fuel i : nat)
  : option rmatch :=
  match match_at r s i with
  | Some m => Some m
  | None =>
      match fuel with
      | O => None
      | S fuel' => search_from r s fuel' (S i)
      end
  end.

Definition slice (s : list ascii) (i j : nat) : string :=
  string_of_list_ascii (firstn (j - i) (skipn i s)).

Fixpoint caps_get (c : caps) (n : nat) : option (nat * nat) :=
  match c with
  | [] => None
  | (g, span) :: c' => if Nat.eqb g n then Some span else caps_get c' n
  end.

(* ------------------------------------------------------------------- *)
(** ** Reading a pattern                                                 *)
(* ------------------------------------------------------------------- *)

Definition cls : Type := ascii -> bool.

Definition cls_char (a : ascii) : cls := fun c => Ascii.eqb c a.
Definition cls_range (a b : ascii) : cls := fun c => in_range (code a) (code b) c.
Definition cls_or (p q : cls) : cls := fun c => (p c || q c)%bool.
Definition cls_not (p : cls) : cls := fun c => negb (p c).
Definition cls_none : cls := fun _ => false.

(** The lower-case letters whose capital is in the Latin-1 range. *)
Definition py_upper_char (c : ascii) : ascii :=
  if (in_range 97 122 c
      || (in_range 224 254 c && negb (N.eqb (code c) 247)))%bool
  then ascii_of_N (code c - 32) else c.

(** A class under [re.IGNORECASE]. *)
Definition cls_fold (p : cls) : cls :=
  fun c => (p c || p (py_lower_char c) || p (py_upper_char c))%bool.

(** The class of an escape [\e], inside or outside brackets. *)
Definition cls_escape (e : ascii) : cls :=
  if Ascii.eqb e "s" then py_isspace
  else if Ascii.eqb e "S" then cls_not py_isspace
  else if Ascii.eqb e "d" then is_digit
  else if Ascii.eqb e "D" then cls_not is_digit
  else if Ascii.eqb e "w" then is_word
  else if Ascii.eqb e "W" then cls_not is_word
  else cls_char e.

Definition is_class_escape (e : ascii) : bool :=
  (Ascii.eqb e "s" || Ascii.eqb e "S" || Ascii.eqb e "d" || Ascii.eqb e "D"
   || Ascii.eqb e "w" || Ascii.eqb e "W")%bool.

Definition bslash : ascii := ascii_of_nat 92.

(** The items of a bracketed class, up to the closing bracket. *)
Fixpoint p_class (fuel : nat) (acc : cls) (s : list ascii)
  : option (cls * list ascii) :=
  match fuel with
  | O => None
  | S fuel' =>
      match s with
      | [] => None
      | a :: rest =>
          if Ascii.eqb a "]" then Some (acc, rest)
          else if Ascii.eqb a bslash then
            match rest with
            | e :: rest' => p_class fuel' (cls_or acc (cls_escape e)) rest'
            | [] => None
            end
          else
            match rest with
            | d :: b :: rest' =>
                if (Ascii.eqb d "-" && negb (Ascii.eqb b "]"))%bool
                then p_class fuel' (cls_or acc (cls_range a b)) rest'
                else p_class fuel' (cls_or acc (cls_char a)) rest
            | _ => p_class fuel' (cls_or acc (cls_char a)) rest
            end
      end
  end.

Fixpoint p_nat (acc : nat) (s : list ascii) : nat * list ascii :=
  match s with
  | c :: rest =>
      if is_digit c
      then p_nat (10 * acc + (nat_of_ascii c - 48))%nat rest
      else (acc, s)
  | [] => (acc, s)
  end.

(** A trailing [?] makes the quantifier before it lazy. *)
Definition p_lazy (s : list ascii) : bool * list ascii :=
  match s with
  | c :: rest => if Ascii.eqb c "?" then (false, rest) else (true, s)
  | [] => (true, s)
  end.

(** The quantifier, if any, that follows an atom. *)
Definition p_quant (a : regex) (s : list ascii) : option (regex * list ascii) :=
  match s with
  | c :: rest =>
      if Ascii.eqb c "?" then
        let (g, rest') := p_lazy rest in Some (opt g a, rest')
      else if Ascii.eqb c "*" then
        let (g, rest') := p_lazy rest in Some (Star g a, rest')
      else if Ascii.eqb c "+" then
        let (g, rest') := p_lazy rest in Some (Seq a (Star g a), rest')
      else if Ascii.eqb c "{" then
        let (lo, r1) := p_nat 0 rest in
        match r1 with
        | c1 :: r2 =>
            if Ascii.eqb c1 "}" then
              let (g, rest') := p_lazy r2 in
              Some (rep_range g lo (Some lo) a, rest')
            else if Ascii.eqb c1 "," then
              match r2 with
              | c2 :: r3 =>
                  if Ascii.eqb c2 "}" then
                    let (g, rest') := p_lazy r3 in
                    Some (rep_range g lo None a, rest')
                  else
                    let (hi, r4) := p_nat 0 r2 in
                    match r4 with
                    | c3 :: r5 =>
                        if Ascii.eqb c3 "}" then
                          let (g, rest') := p_lazy r5 in
                          Some (rep_range g lo (Some hi) a, rest')
                        else None
                    | [] => None
                    end
              | [] => None
              end
            else None
        | [] => None
        end
      else Some (a, s)
  | [] => Some (a, s)
  end.

Definition is_seq_end (s : list ascii) : bool :=
  match s with
  | [] => true
  | c :: _ => (Ascii.eqb c ")" || Ascii.eqb c "|")%bool
  end.

(** The pattern grammar: alternatives of sequences of quantified atoms.
    [ci] is [re.IGNORECASE]; [n] counts the groups opened so far.  An
    atom reads the inside of a group with [alt], the parser of
    alternatives one level down. *)
Definition parsed : Type := option (regex * nat * list ascii).

Definition closing (res : parsed) (wrap : regex -> regex) : parsed :=
  match res with
  | Some (r, n1, c :: rest) =>
      if Ascii.eqb c ")" then Some (wrap r, n1, rest) else None
  | _ => None
  end.

Definition p_group (alt : nat -> list ascii -> parsed) (n : nat)
    (rest : list ascii) : parsed :=
  match rest with
  | q :: rest1 =>
      if Ascii.eqb q "?" then
        match rest1 with
        | k :: rest2 =>
            if Ascii.eqb k ":" then closing (alt n rest2) (fun r => r)
            else None
        | [] => None
        end
      else closing (alt (S n) rest) (Group (S n))
  | [] => None
  end.

Definition p_bracket (fold : cls -> regex) (n : nat) (rest : list ascii)
  : parsed :=
  match rest with
  | x :: rest' =>
      if Ascii.eqb x "^" then
        match p_class (length rest') cls_none rest' with
        | Some (p, s1) => Some (fold (cls_not p), n, s1)
        | None => None
        end
      else
        match p_class (length rest) cls_none rest with
        | Some (p, s1) => Some (fold p, n, s1)
        | None => None
        end
  | [] => None
  end.

Definition p_escape (fold : cls -> regex) (n : nat) (rest : list ascii)
  : parsed :=
  match rest with
  | e :: rest' =>
      if Ascii.eqb e "b" then Some (WordB, n, rest')
      else if is_class_escape e
           then Some (Chr (cls_escape e), n, rest')
           else Some (fold (cls_char e), n, rest')
  | [] => None
  end.

Definition p_atom (alt : nat -> list ascii -> parsed) (ci : bool) (n : nat)
    (s : list ascii) : parsed :=
  let fold (p : cls) : regex := Chr (if ci then cls_fold p else p) in
  match s with
  | [] => None
  | c :: rest =>
      if Ascii.eqb c "(" then p_group alt n rest
      else if Ascii.eqb c "[" then p_bracket fold n rest
      else if Ascii.eqb c bslash then p_escape fold n rest
      else if Ascii.eqb c "^" then Some (Bol, n, rest)
      else if Ascii.eqb c "$" then Some (Eol, n, rest)
      else if Ascii.eqb c "." then
        Some (Chr (cls_not (cls_char (ascii_of_nat 10))), n, rest)
      else Some (fold (cls_char c), n, rest)
  end.

Fixpoint p_seq (alt : nat -> list ascii -> parsed) (fuel : nat) (ci : bool)
    (n : nat) (s : list ascii) : parsed :=
  match fuel with
  | O => None
  | S fuel' =>
      if is_seq_end s then Some (Eps, n, s)
      else
        match p_atom alt ci n s with
        | Some (a, n1, s1) =>
            match p_quant a s1 with
            | Some (a', s2) =>
                match p_seq alt fuel' ci n1 s2 with
                | Some (r, n2, s3) => Some (Seq a' r, n2, s3)
                | None => None
                end
            | None => None
            end
        | None => None
        end
  end.

Fixpoint p_alt (fuel : nat) (ci : bool) (n : nat) (s : list ascii) : parsed :=
  match fuel with
  | O => None
  | S fuel' =>
      match p_seq (p_alt fuel' ci) (S (length s)) ci n s with
      | Some (r1, n1, s1) =>
          match s1 with
          | c :: rest =>
              if Ascii.eqb c "|" then
                match p_alt fuel' ci n1 rest with
                | Some (r2, n2, s2) => Some (Alt r1 r2, n2, s2)
                | None => None
                end
              else Some (r1, n1, s1)
          | [] => Some (r1, n1, s1)
          end
      | None => None
      end
  end.

(** [re.compile(pattern, re.IGNORECASE if ci else 0)]; [None] for a
    pattern outside the grammar above. *)
Definition compile (ci : bool) (pattern : string) : option regex :=
  let s := list_ascii_of_string pattern in
  match p_alt (S (length s)) ci 0 s with
  | Some (r, _, []) => Some r
  | _ => None
  end.

Definition compiled (ci : bool) (pattern : string) : regex :=
  match compile ci pattern with
  | Some r => r
  | None => Chr cls_none
  end.

(** [re.search(pattern, s)] and [re.search(pattern, s, re.IGNORECASE)] *)
Definition search_with (ci : bool) (pattern s : string) : option rmatch :=
  let l := list_ascii_of_string s in
  search_from (compiled ci pattern) l (length l) 0.

Definition search : string -> string -> option rmatch := search_with false.
Definition search_i : string -> string -> option rmatch := search_with true.

(** [re.match(pattern, s)] *)
Definition rematch (pattern s : string) : option rmatch :=
  match_at (compiled false pattern) (list_ascii_of_string s) 0.

(** The truth value of a match object or [None]. *)
Definition found (m : option rmatch) : bool :=
  match m with Some _ => true | None => false end.

(** [m.group()] and [m.group(n)] of a match on [s] *)
Definition group0 (s : string) (m : rmatch) : string :=
  slice (list_ascii_of_string s) (m_start m) (m_end m).

Definition group (s : string) (m : rmatch) (n : nat) : option string :=
  match caps_get (m_caps m) n with
  | Some (i, j) => Some (slice (list_ascii_of_string s) i j)
  | None => None
  end.

(** [re.sub(pattern, '', s)]: the text outside the successive matches. *)
Fixpoint delete_from (r : regex) (s : list ascii) (fuel i : nat)
  : list ascii :=
  match fuel with
  | O => []
  | S fuel' =>
      match match_at r s i with
      | Some m =>
          if Nat.ltb i (m_end m)
          then delete_from r s (fuel' - (m_end m - i - 1)) (m_end m)
          else match nth_error s i with
               | Some c => c :: delete_from r s fuel' (S i)
               | None => []
               end
      | None =>
          match nth_error s i with
          | Some c => c :: delete_from r s fuel' (S i)
          | None => []
          end
      end
  end.

Definition delete (pattern s : string) : string :=
  let l := list_ascii_of_string s in
  string_of_list_ascii (delete_from (compiled false pattern) l (S (length l)) 0).

End Re.
(* ===================================================================== *)
(** * parsers/base_parser.py                                              *)
(* ===================================================================== *)

Module ResumeParser.
Import PyStr.

(** [class SectionType(Enum)] *)
Inductive SectionType : Type :=
| HEADER | CONTACT | SUMMARY | SKILLS | EXPERIENCE | EDUCATION
| CERTIFICATIONS | PROJECTS | ACCOMPLISHMENTS | LANGUAGES | UNKNOWN.

#[global] Instance SectionType_eq_dec : EqDecision SectionType.
Proof. solve_decision. Defined.

(** [k.value] *)
Definition value (k : SectionType) : string :=
  match k with
  | HEADER => "header"
  | CONTACT => "contact"
  | SUMMARY => "summary"
  | SKILLS => "skills"
  | EXPERIENCE => "experience"
  | EDUCATION => "education"
  | CERTIFICATIONS => "certifications"
  | PROJECTS => "projects"
  | ACCOMPLISHMENTS => "accomplishments"
  | LANGUAGES => "languages"
  | UNKNOWN => "unknown"
  end.

(** [self.section_patterns], in the order of the dict literal. *)
Definition section_patterns : list (SectionType * list string) :=
  [ (SUMMARY,
      [ "^(professional\s+)?summary$";
        "^(career\s+)?objective$";
        "^profile$";
        "^about(\s+me)?$";
        "^overview$";
        "^statement$";
        "^career\s+highlights?$" ]);
    (EXPERIENCE,
      [ "^(professional\s+)?experience$";
        "^work\s+(experience|history)$";
        "^employment(\s+history)?$";
        "^career\s+history$";
        "^professional\s+background$";
        "^relevant\s+experience$" ]);
    (EDUCATION,
      [ "^education(\s+and\s+training)?$";
        "^academic\s+(background|history)$";
        "^academic\s+credentials$";
        "^qualifications$";
        "^training$";
        "^education\s+&\s+certifications?$" ]);
    (SKILLS,
      [ "^(technical\s+)?skills?$";
        "^core\s+competenc(y|ies)$";
        "^areas?\s+of\s+expertise$";
        "^technical\s+expertise$";
        "^skill\s+highlights?$";
        "^qualifications$";
        "^capabilities$" ]);
    (CERTIFICATIONS,
      [ "^certifications?$";
        "^licenses?(\s+and\s+certifications?)?$";
        "^professional\s+certifications?$";
        "^credentials?$" ]);
    (PROJECTS,
      [ "^projects?$";
        "^(personal\s+)?portfolio$";
        "^key\s+projects?$";
        "^notable\s+projects?$" ]);
    (ACCOMPLISHMENTS,
      [ "^accomplishments?$";
        "^achievements?$";
        "^awards?(\s+and\s+honors?)?$";
        "^honors?(\s+and\s+awards?)?$";
        "^recognition$";
        "^notable\s+achievements?$" ]) ].

Definition matches_any (patterns : list string) (s : string) : bool :=
  existsb (fun pattern => Re.found (Re.rematch pattern s)) patterns.

Fixpoint first_section (table : list (SectionType * list string)) (s : string)
  : option SectionType :=
  match table with
  | [] => None
  | (section_type, patterns) :: table' =>
      if matches_any patterns s then Some section_type
      else first_section table' s
  end.

(** [_identify_section_header] *)
Definition _identify_section_header (line : string) : option SectionType :=
  let clean_line := lower (strip line) in
  let clean_line := Re.delete "[:\-\s]+$" clean_line in
  let clean_line := Re.delete "^\W+" clean_line in
  if Nat.ltb 50 (String.length clean_line) then None
  else first_section section_patterns clean_line.

(** The test [section_type and section_type != SectionType.UNKNOWN] of
    [detect_sections]. *)
Definition header_kind (line : string) : option SectionType :=
  match _identify_section_header line with
  | Some section_type =>
      if decide (section_type = UNKNOWN) then None else Some section_type
  | None => None
  end.

(** The dict [sections]: keys in the order of their first assignment. *)
Abbreviation section_map := (list (SectionType * string)).

(** [sections[k] = v] *)
Fixpoint dict_set (d : section_map) (k : SectionType) (v : string)
  : section_map :=
  match d with
  | [] => [(k, v)]
  | (k', v') :: d' =>
      if decide (k' = k) then (k, v) :: d'
      else (k', v') :: dict_set d' k v
  end.

(** [sections.get(k)] *)
Fixpoint dict_get (d : section_map) (k : SectionType) : option string :=
  match d with
  | [] => None
  | (k', v') :: d' => if decide (k' = k) then Some v' else dict_get d' k
  end.

Definition NL : string := String (ascii_of_nat 10) EmptyString.

(** The variables of the loop of [detect_sections].  [saves] is not in the
    source: it records, in order, every assignment
    [sections[current_section] = content] the loop performs. *)
Record scan : Type := Scan {
  sections : section_map;
  current_section : SectionType;
  current_content : list string;
  saves : list (SectionType * string)
}.

(** "Save previous section" and "Save last section". *)
Definition save_section (st : scan) : scan :=
  match current_content st with
  | [] => st
  | _ =>
      let content := strip (join NL (current_content st)) in
      if nonempty content
      then Scan (dict_set (sections st) (current_section st) content)
                (current_section st) (current_content st)
                (saves st ++ [(current_section st, content)])
      else st
  end.

(** One round of the loop over the lines. *)
Definition scan_line (st : scan) (line : string) : scan :=
  if negb (nonempty (strip line)) then
    match current_content st with
    | [] => st
    | _ => Scan (sections st) (current_section st)
                (current_content st ++ [EmptyString]) (saves st)
    end
  else
    match header_kind line with
    | Some section_type =>
        let st' := save_section st in
        Scan (sections st') section_type [] (saves st')
    | None =>
        Scan (sections st) (current_section st)
             (current_content st ++ [line]) (saves st)
    end.

Definition scan_start : scan := Scan [] HEADER [] [].

Definition scan_text (text : string) : scan :=
  save_section (foldl scan_line scan_start (split_on (ascii_of_nat 10) text)).

(** [detect_sections] *)
Definition detect_sections (text : string) : section_map :=
  sections (scan_text text).

(** The assignments to [sections] that [detect_sections] performs. *)
Definition saved_sections (text : string) : list (SectionType * string) :=
  saves (scan_text text).

(** [class ContactInfo] *)
Record ContactInfo : Type := Contact {
  name : option string;
  email : option string;
  phone : option string;
  linkedin : option string;
  github : option string;
  location : option string;
  website : option string
}.

Definition phone_patterns : list string :=
  [ "(?:\+?1[-.\s]?)?\(?\d{3}\)?[-.\s]?\d{3}[-.\s]?\d{4}";
    "\b\d{3}[-.\s]\d{3}[-.\s]\d{4}\b";
    "\(\d{3}\)\s*\d{3}-\d{4}" ].

(** [s[i:j]] *)
Definition py_slice (s : string) (i j : nat) : string :=
  String.substring i (j - i) s.

(** The normalisation of a matched phone number. *)
Definition normalize_phone (phone : string) : string :=
  let digits := Re.delete "\D" phone in
  let digits :=
    if (Nat.eqb (String.length digits) 11 && String.prefix "1" digits)%bool
    then py_slice digits 1 11 else digits in
  if Nat.eqb (String.length digits) 10
  then ("(" ++ py_slice digits 0 3 ++ ") " ++ py_slice digits 3 6
        ++ "-" ++ py_slice digits 6 10)%string
  else phone.

(** The loop over [phone_patterns]; it ends at the first match that is
    not a year. *)
Fixpoint phone_loop (patterns : list string) (header_text : string)
  : option string :=
  match patterns with
  | [] => None
  | pattern :: rest =>
      match Re.search pattern header_text with
      | Some phone_match =>
          let phone := Re.group0 header_text phone_match in
          if Re.found (Re.rematch "^(19|20)\d{2}$" (strip phone))
          then phone_loop rest header_text
          else Some (normalize_phone phone)
      | None => phone_loop rest header_text
      end
  end.

(** [s.rstrip('/')] *)
Fixpoint rstrip_slash (s : string) : string :=
  match s with
  | EmptyString => EmptyString
  | String c s' =>
      match rstrip_slash s' with
      | EmptyString => if Ascii.eqb c "/" then EmptyString
                       else String c EmptyString
      | r => String c r
      end
  end.

Definition name_stopwords : list string :=
  [ "summary"; "objective"; "highlights"; "focused"; "driven"; "results" ].

(** [word.endswith(c)] for a character [c] *)
Fixpoint ends_with (c : ascii) (word : string) : bool :=
  match word with
  | EmptyString => false
  | String x EmptyString => Ascii.eqb x c
  | String _ rest => ends_with c rest
  end.

(** [word[0].isupper() or (len(word) <= 2 and word.endswith('.'))] *)
Definition capitalised_or_initial (word : string) : bool :=
  (match word with
   | String c _ => py_isupper_char c
   | EmptyString => false
   end
   || (Nat.leb (String.length word) 2 && ends_with "." word))%bool.

Definition is_Some_b {A} (o : option A) : bool :=
  match o with Some _ => true | None => false end.

(** The tests a line of the header passes to be taken as a name. *)
Definition looks_like_name (email : option string) (line : string) : bool :=
  let has_email :=
    match email with
    | Some e => (nonempty e && contains line e)%bool
    | None => false
    end in
  if negb (nonempty line) then false
  else if has_email then false
  else if Re.found (Re.search "@|\d{3}[-.\s]\d{3}|http|www\." line) then false
  else if is_Some_b (_identify_section_header line) then false
  else
    let words := split_ws line in
    (Nat.leb 2 (length words) && Nat.leb (length words) 4
     && forallb capitalised_or_initial words
     && forallb (fun word => Re.found (Re.rematch "^[A-Za-z\'\-\.]+$" word))
                words
     && negb (existsb (fun keyword => contains (lower line) keyword)
                      name_stopwords))%bool.

(** [_extract_name] *)
Definition _extract_name (text : string) (email : option string)
  : option string :=
  let lines := firstn 10 (split_on (ascii_of_nat 10) text) in
  let potential_names :=
    List.filter (looks_like_name email) (map strip lines) in
  head potential_names.

(** [extract_contact_info] *)
Definition extract_contact_info (text : string) : ContactInfo :=
  let header_text := py_slice text 0 1000 in
  let email :=
    match Re.search "\b[A-Za-z0-9._%+-]+@[A-Za-z0-9.-]+\.[A-Z|a-z]{2,}\b"
                    header_text with
    | Some m => Some (Re.group0 header_text m)
    | None => None
    end in
  let phone := phone_loop phone_patterns header_text in
  let linkedin :=
    match Re.search_i
            "(?:https?://)?(?:www\.)?linkedin\.com/(?:in|pub)/([\w-]+)"
            header_text with
    | Some m =>
        match Re.group header_text m 1 with
        | Some g => Some ("linkedin.com/in/" ++ g)%string
        | None => None
        end
    | None => None
    end in
  let github :=
    match Re.search_i "(?:https?://)?(?:www\.)?github\.com/([\w-]+)"
                      header_text with
    | Some m =>
        match Re.group header_text m 1 with
        | Some g => Some ("github.com/" ++ g)%string
        | None => None
        end
    | None => None
    end in
  let website :=
    match Re.search "(https?://[\w.-]+(?:/\S*)?)" header_text with
    | Some m =>
        match Re.group header_text m 1 with
        | Some site =>
            if (negb (contains site "linkedin.com")
                && negb (contains site "github.com"))%bool
            then Some (strip (rstrip_slash site))
            else None
        | None => None
        end
    | None => None
    end in
  let name := _extract_name header_text email in
  let location :=
    match Re.search "([A-Z][a-z]+(?:\s+[A-Z][a-z]+)*),?\s*([A-Z]{2})\b"
                    header_text with
    | Some m =>
        match Re.group header_text m 1, Re.group header_text m 2 with
        | Some city, Some state => Some (city ++ ", " ++ state)%string
        | _, _ => None
        end
    | None => None
    end in
  Contact name email phone linkedin github location website.

End ResumeParser.
(* ===================================================================== *)
(** * The lines of a text, as [detect_sections] reads them                *)
(* ===================================================================== *)

(** The three kinds of line the loop of [detect_sections] tells apart,
    and what it collects between two headers, as functions of the lines
    alone. *)
Module SectionLines.
Import PyStr ResumeParser.

(** [not line.strip()] *)
Definition is_blank (line : string) : bool := negb (nonempty (strip line)).

(** The kind a line opens a section of: the line is not blank and
    [_identify_section_header] names a kind for it other than
    [SectionType.UNKNOWN]. *)
Definition header_of (line : string) : option SectionType :=
  if is_blank line then None else header_kind line.

Definition is_header (line : string) : bool :=
  match header_of line with Some _ => true | None => false end.

(** A header of the section kind [kind]. *)
Definition is_header_of (kind : SectionType) (line : string) : bool :=
  bool_decide (header_of line = Some kind).


(** What [current_content] holds after the lines under a header: the
    blank lines before the first line with text are passed over, every
    later blank line is collected as the empty string. *)
Fixpoint block_lines (body : list string) : list string :=
  match body with
  | [] => []
  | line :: rest =>
      if is_blank line then block_lines rest
      else line :: map (fun l => if is_blank l then EmptyString else l) rest
  end.

(** ['\n'.join(current_content).strip()] for the lines under a header *)
Definition content_of (body : list string) : string :=
  strip (join NL (block_lines body)).

(** Some line of [body] has text. *)
Definition has_text (body : list string) : bool :=
  existsb (fun line => negb (is_blank line)) body.

(** [lines] is empty or starts with a header. *)
Definition at_header (lines : list string) : bool :=
  match lines with
  | [] => true
  | line :: _ => is_header line
  end.

End SectionLines.
(* ===================================================================== *)
(** * Record shapes that the scorers read without raising                 *)
(* ===================================================================== *)

Module Shapes.
Import PyStr.

(** What a [for] loop accepts. *)
Definition iterable (v : pyval) : bool :=
  match v with
  | PList _ | PStr _ | PDict _ => true
  | _ => false
  end.

Definition is_str (v : pyval) : bool :=
  match v with PStr _ => true | _ => false end.

(** A value [v] for which [(v or "").lower()] is defined. *)
Definition str_or_falsy (v : pyval) : bool :=
  (is_str v || negb (py_truthy v))%bool.

(** An iterable whose items all pass [ok]; the items of a string or of a
    dict are strings, which every test below accepts. *)
Definition items_ok (ok : pyval -> bool) (v : pyval) : bool :=
  match v with
  | PList l => forallb ok l
  | PStr _ | PDict _ => true
  | _ => false
  end.

Definition edu_ok (edu : pyval) : bool :=
  match edu with
  | PDict d => (str_or_falsy (py_get d "degree" PNone)
                && str_or_falsy (py_get d "field" PNone))%bool
  | _ => true
  end.

Definition exp_ok (exp : pyval) : bool :=
  match exp with
  | PDict d => (str_or_falsy (py_get d "title" PNone)
                && str_or_falsy (py_get d "company" PNone))%bool
  | _ => true
  end.

Definition work_ok (exp : pyval) : bool :=
  match exp with
  | PDict d => str_or_falsy (py_get d "company" PNone)
  | _ => true
  end.

Definition proj_ok (proj : pyval) : bool :=
  match proj with
  | PDict d => items_ok is_str (py_get d "technologies" (PList []))
  | _ => true
  end.

(** A resume whose education, experience, projects and work-experience
    fields are sequences of entries of the shapes the parsers produce. *)
Definition resume_ok (resume : pydict) : bool :=
  (items_ok edu_ok (py_get resume "education" (PList []))
   && items_ok exp_ok (py_get resume "experience" (PList []))
   && items_ok proj_ok (py_get resume "projects" (PList []))
   && items_ok work_ok (py_get resume "work_experience" (PList [])))%bool.

(** A required education that is a string, empty or with a word in it. *)
Definition education_required_ok (v : pyval) : bool :=
  match v with
  | PStr req =>
      (negb (nonempty req)
       || match split_ws (lower req) with [] => false | _ => true end)%bool
  | _ => false
  end.

(** A job whose skill fields are sequences, whose preferred companies
    are strings and whose required education is as above. *)
Definition job_ok (job : pydict) : bool :=
  (iterable (py_get job "required_skills" (PList []))
   && iterable (py_get job "preferred_skills" (PList []))
   && iterable (py_get job "must_have_skills" (PList []))
   && items_ok is_str (py_get job "preferred_companies" (PList []))
   && education_required_ok (py_get job "education_required" (PStr "")))%bool.

End Shapes.
(* ===================================================================== *)
(** * The order of the labels                                             *)
(* ===================================================================== *)

Module Labels.

(** The three labels of [ResumeScorer.classify], from the lowest band to
    the highest. *)
Definition rank (label : string) : nat :=
  if String.eqb label "Suitable" then 2
  else if String.eqb label "Maybe Suitable" then 1
  else 0.

End Labels.
(* ===================================================================== *)
(** * The form of a normalised skill                                      *)
(* ===================================================================== *)

Module Tidy.
Import PyStr.

(** Every character of [s] passes [p]. *)
Fixpoint all_chars (p : ascii -> bool) (s : string) : bool :=
  match s with
  | EmptyString => true
  | String c s' => (p c && all_chars p s')%bool
  end.

Definition starts_with_space (s : string) : bool :=
  match s with
  | String c _ => py_isspace c
  | EmptyString => false
  end.

(** The only whitespace of [s] is single blanks: no other whitespace
    character and no two whitespace characters in a row. *)
Fixpoint single_spaced (s : string) : bool :=
  match s with
  | EmptyString => true
  | String c s' =>
      ((negb (py_isspace c)
        || (Ascii.eqb c " " && negb (starts_with_space s')))
       && single_spaced s')%bool
  end.

(** A character that [normalize_skill_string] leaves as it is. *)
Definition skill_char (c : ascii) : bool :=
  negb (Ascii.eqb c "(" || Ascii.eqb c "/" || Ascii.eqb c "-"
        || py_isupper_char c)%bool.

(** The form of a normalised skill: lower case, without parenthesis,
    slash or hyphen, words separated by single blanks, no blank at
    either end. *)
Definition tidy (s : string) : Prop :=
  all_chars skill_char s = true
  /\ single_spaced s = true
  /\ strip s = s.

End Tidy.
(* ===================================================================== *)
(** * utils/preprocessing.py: cleaning and exact duplicates               *)
(* ===================================================================== *)

Module PreprocessingText.
Import PyStr Preprocessing.

Definition CR : ascii := ascii_of_nat 13.
Definition LF : ascii := ascii_of_nat 10.

(** [text.replace("\r\n", "\n")] *)
Fixpoint crlf_to_lf (s : string) : string :=
  match s with
  | EmptyString => EmptyString
  | String c s' =>
      match s' with
      | String c' s'' =>
          if (Ascii.eqb c CR && Ascii.eqb c' LF)%bool
          then String LF (crlf_to_lf s'')
          else String c (crlf_to_lf s')
      | EmptyString => String c EmptyString
      end
  end.

(** [clean_text] of [utils/preprocessing.py], on a string. *)
Definition clean_text (text : string) : string :=
  if negb (nonempty text) then EmptyString
  else
    let text := replace_char CR LF (crlf_to_lf text) in
    let text := collapse_ws text in
    strip text.

(** The key under which [remove_duplicates] remembers a resume:
    [normalize_text(str(r))[:10000]]. *)
Definition duplicate_key (r : pyval) : string :=
  String.substring 0 10000 (normalize_text (PStr (PyRepr.py_str r))).

(** The loop of [remove_duplicates]: the keys seen and the resumes kept
    so far. *)
Fixpoint remove_duplicates_from (seen : gset string) (resumes : list pyval)
  : list pyval :=
  match resumes with
  | [] => []
  | r :: rest =>
      let key := duplicate_key r in
      if decide (key ∈ seen) then remove_duplicates_from seen rest
      else r :: remove_duplicates_from (seen ∪ {[ key ]}) rest
  end.

(** [remove_duplicates] *)
Definition remove_duplicates (resumes : list pyval) : list pyval :=
  remove_duplicates_from ∅ resumes.

End PreprocessingText.
(* ===================================================================== *)
(** * parsers/base_parser.py: splitting a section into entries            *)
(* ===================================================================== *)

Module ResumeEntries.
Import PyStr ResumeParser.

(** [self.job_titles] and [self.company_indicators] of [__init__] *)
Definition job_titles : list string :=
  [ "\b(CEO|CFO|CTO|COO|CMO|CIO|VP|Vice\s+President)\b";
    "\b(Director|Manager|Supervisor|Lead|Head\s+of|Chief)\b";
    "\b(Coordinator|Administrator|Specialist|Analyst)\b";
    "\b(Engineer|Developer|Programmer|Architect|Designer)\b";
    "\b(Scientist|Researcher|Technician)\b";
    "\b(Consultant|Advisor|Strategist|Executive)\b";
    "\b(Representative|Associate|Assistant|Officer)\b";
    "\b(HR|Human\s+Resources?|Recruiter|Talent)\b";
    "\b(Sales|Marketing|Business\s+Development)\b";
    "\b(Finance|Accounting|Audit)\b";
    "\b(Product|Project|Program)\s+(Manager|Owner)\b" ].

Definition company_indicators : list string :=
  [ "\b(Inc|LLC|Corp|Corporation|Company|Ltd|Limited|Group|Partners|LLP)\b";
    "\b(Associates|Solutions|Services|Consulting|Technologies|Systems)\b";
    "\b(University|College|Institute|School|Academy)\b";
    "\b(Hospital|Medical|Health|Clinic)\b";
    "\b(Bank|Financial|Capital|Investments)\b" ].

(** The state of the loop of either splitter: [entries] and
    [current_entry]. *)
Definition split_state : Type := list string * list string.

(** One round of the loop over the lines, for the test [is_new_entry]
    of the splitter. *)
Definition split_step (is_new_entry : string -> bool)
    (st : split_state) (line : string) : split_state :=
  let '(entries, current_entry) := st in
  if (is_new_entry line && negb (Nat.eqb (length current_entry) 0))%bool
  then (entries ++ [join NL current_entry], [line])
  else (entries, current_entry ++ [line]).

(** After the loop: [if current_entry: entries.append(...)]. *)
Definition split_finish (st : split_state) : list string :=
  let '(entries, current_entry) := st in
  match current_entry with
  | [] => entries
  | _ => entries ++ [join NL current_entry]
  end.

Definition split_lines (is_new_entry : string -> bool) (lines : list string)
  : list string :=
  split_finish (foldl (split_step is_new_entry) ([], []) lines).

(** The test of [_split_job_entries] for a line that starts an entry. *)
Definition starts_job (line : string) : bool :=
  (Re.found (Re.rematch "^\s*(?:\d{1,2}/\d{4}|\w+\s+\d{4})" line)
   || existsb (fun title_pattern => Re.found (Re.search_i title_pattern line))
              (firstn 5 job_titles)
   || existsb (fun pattern => Re.found (Re.search_i pattern line))
              (firstn 3 company_indicators))%bool.

(** [_split_job_entries] *)
Definition _split_job_entries (text : string) : list string :=
  split_lines starts_job (split_on (ascii_of_nat 10) text).

Definition degree_pattern : string :=
  "\b(Bachelor|Master|Ph\.?D|Doctor|Associate|Diploma|Certificate|MBA|B\.[A-Z]|M\.[A-Z])\b".

(** The test of [_split_education_entries] for a line that starts an
    entry. *)
Definition starts_degree (line : string) : bool :=
  Re.found (Re.search_i degree_pattern line).

(** [_split_education_entries] *)
Definition _split_education_entries (text : string) : list string :=
  let entries := split_lines starts_degree (split_on (ascii_of_nat 10) text) in
  match entries with
  | [] => [text]
  | _ => entries
  end.

End ResumeEntries.
(* ===================================================================== *)
(** * parsers/base_parser.py: [extract_skills]                            *)
(* ===================================================================== *)

Module SkillExtraction.
Import PyStr.

(** The lists under the keys of [skills] while the loops run, each in
    the order of its [append]s. *)
Record skill_lists : Type := Lists {
  all : list string;
  technical : list string;
  soft : list string;
  languages : list string;
  tools : list string;
  databases : list string
}.

Definition no_skills : skill_lists := Lists [] [] [] [] [] [].

(** The literals of [extract_skills], in the order of the source. *)
Definition language_names : list string :=
  [ "Python"; "Java"; "JavaScript"; "TypeScript"; "C++"; "C#"; "Ruby"; "Go";
    "Rust"; "Swift"; "Kotlin"; "R"; "SQL"; "PHP"; "Perl"; "Scala" ].

Definition framework_names : list string :=
  [ "React"; "Angular"; "Vue"; "Django"; "Flask"; "Spring"; "Node.js";
    "Express"; ".NET"; "Rails"; "Laravel" ].

Definition database_names : list string :=
  [ "MySQL"; "PostgreSQL"; "MongoDB"; "Redis"; "Oracle"; "SQL Server";
    "Cassandra"; "DynamoDB"; "Elasticsearch" ].

Definition tool_names : list string :=
  [ "Git"; "Docker"; "Kubernetes"; "Jenkins"; "AWS"; "Azure"; "GCP";
    "Terraform"; "Ansible"; "JIRA"; "Confluence" ].

Definition tech_skills : list (string * list string) :=
  [ ("languages", language_names);
    ("frameworks", framework_names);
    ("databases", database_names);
    ("tools", tool_names) ].

Definition variant_patterns : list (string * list string) :=
  [ ("REST", ["\bREST\b"; "\bRESTful\b"]);
    ("GraphQL", ["\bGraph\s?QL\b"]);
    ("NoSQL", ["\bNo\s?SQL\b"]);
    ("CI/CD", ["\bCI\s*/\s*CD\b"; "\bCI[- ]?CD\b"]);
    ("Microservices", ["\bmicroservices?(?:\s+architecture)?\b"]) ].

Definition soft_skills : list string :=
  [ "Leadership"; "Communication"; "Problem Solving"; "Team"; "Collaboration";
    "Management"; "Analytical"; "Creative"; "Strategic"; "Critical Thinking";
    "Project Management"; "Time Management"; "Presentation" ].

(** The characters [re.escape] puts a backslash before. *)
Definition special_chars : list ascii :=
  list_ascii_of_string "()[]{}?*+-|^$\.&~# "
  ++ map ascii_of_nat [9; 10; 13; 11; 12]%nat.

Definition bslash : ascii := ascii_of_nat 92.

(** [re.escape] *)
Fixpoint re_escape (s : string) : string :=
  match s with
  | EmptyString => EmptyString
  | String c s' =>
      if existsb (Ascii.eqb c) special_chars
      then String bslash (String c (re_escape s'))
      else String c (re_escape s')
  end.

(** [re.search(pattern, text, re.IGNORECASE)] as a truth value *)
Definition mentioned (pattern text : string) : bool :=
  Re.found (Re.search_i pattern text).

(** The body of the test on a skill of [tech_skills]. *)
Definition add_technical (category skill : string) (sk : skill_lists)
  : skill_lists :=
  let sk := Lists (all sk ++ [skill]) (technical sk ++ [skill]) (soft sk)
                  (languages sk) (tools sk) (databases sk) in
  if String.eqb category "databases" then
    Lists (all sk) (technical sk) (soft sk) (languages sk) (tools sk)
          (databases sk ++ [skill])
  else if String.eqb category "languages" then
    Lists (all sk) (technical sk) (soft sk) (languages sk ++ [skill])
          (tools sk) (databases sk)
  else if existsb (String.eqb category) ["tools"; "frameworks"] then
    Lists (all sk) (technical sk) (soft sk) (languages sk)
          (tools sk ++ [skill]) (databases sk)
  else sk.

Definition tech_step (text category : string) (sk : skill_lists)
    (skill : string) : skill_lists :=
  if mentioned ("\b" ++ re_escape skill ++ "\b") text
  then add_technical category skill sk
  else sk.

Definition tech_loop (text : string) (sk : skill_lists) : skill_lists :=
  foldl (fun sk entry => foldl (tech_step text (fst entry)) sk (snd entry))
        sk tech_skills.

(** The loop over the patterns of a canonical name ends at the first
    pattern found. *)
Definition variant_step (text : string) (sk : skill_lists)
    (entry : string * list string) : skill_lists :=
  let canonical := fst entry in
  if existsb (fun pat => mentioned pat text) (snd entry)
  then Lists (all sk ++ [canonical]) (technical sk ++ [canonical]) (soft sk)
             (languages sk) (tools sk) (databases sk)
  else sk.

Definition variant_loop (text : string) (sk : skill_lists) : skill_lists :=
  foldl (variant_step text) sk variant_patterns.

Definition soft_step (text : string) (sk : skill_lists) (skill : string)
  : skill_lists :=
  if mentioned ("\b" ++ skill ++ "\b") text
  then Lists (all sk ++ [skill]) (technical sk) (soft sk ++ [skill])
             (languages sk) (tools sk) (databases sk)
  else sk.

Definition soft_loop (text : string) (sk : skill_lists) : skill_lists :=
  foldl (soft_step text) sk soft_skills.

(** The lists before [list(set(...))]. *)
Definition collected (text : string) : skill_lists :=
  soft_loop text (variant_loop text (tech_loop text no_skills)).

(** The value of [extract_skills]: under each key the set of the strings
    collected; the order in which [list(set(...))] lists them is left
    open. *)
Record skills : Type := Skills {
  skills_all : gset string;
  skills_technical : gset string;
  skills_soft : gset string;
  skills_languages : gset string;
  skills_tools : gset string;
  skills_databases : gset string
}.

Definition extract_skills (text : string) : skills :=
  let sk := collected text in
  Skills (list_to_set (all sk)) (list_to_set (technical sk))
         (list_to_set (soft sk)) (list_to_set (languages sk))
         (list_to_set (tools sk)) (list_to_set (databases sk)).

End SkillExtraction.

(* ===================================================================== *)
(** * Sample records                                                      *)
(* ===================================================================== *)

Module Examples.

Definition resume_a : pydict :=
  [ ("skills", PDict [("all", PList [PStr "Python"; PStr "AWS"; PStr "REST API"])]);
    ("education",
       PList [PDict [("degree", PStr "Bachelor"); ("field", PStr "Computer Science")]]);
    ("experience",
       PList [PDict [("title", PStr "Python Developer");
                     ("company", PStr "Acme Corp");
                     ("description", PList [PStr "Built python services on aws"])]]);
    ("projects", PList [PDict [("technologies", PList [PStr "Python"])]]) ].

Definition job_a : pydict :=
  [ ("required_skills",
       PList [PStr "Python"; PStr "Docker"; PStr "REST API Development"]);
    ("education_required", PStr "Bachelor Computer Science");
    ("preferred_companies", PList [PStr "acme"]);
    ("must_have_skills", PList [PStr "Docker"]) ].

(** Seven required skills, all listed by the resume, and a must-have
    skill that is not. *)
Definition seven_skills : pyval :=
  PList [PStr "Java"; PStr "SQL"; PStr "Docker"; PStr "Git";
         PStr "Linux"; PStr "React"; PStr "Redis"].

Definition resume_b : pydict := [ ("skills", seven_skills) ].

Definition job_b : pydict :=
  [ ("required_skills", seven_skills);
    ("must_have_skills", PList [PStr "Python"]) ].

(** Eleven required skills, all listed by the resume; no must-have
    skill. *)
Definition eleven_skills : pyval :=
  PList [PStr "Java"; PStr "SQL"; PStr "Docker"; PStr "Git";
         PStr "Linux"; PStr "React"; PStr "Redis"; PStr "Python";
         PStr "Go"; PStr "Rust"; PStr "Kotlin"].

Definition resume_c : pydict := [ ("skills", eleven_skills) ].

Definition job_c : pydict := [ ("required_skills", eleven_skills) ].

(** A job that requires one skill and a resume that lists exactly it. *)
Definition job_d : pydict := [ ("required_skills", PList [PStr "CI/CD"]) ].

Definition resume_d : pydict := [ ("skills", PList [PStr "CI/CD"]) ].

(** The header of a resume, one field on each line. *)
Definition jane_header : string :=
  PyStr.join ResumeParser.NL
    [ "Jane A. Doe"; "jane.doe@example.com"; "(555) 123-4567";
      "linkedin.com/in/janedoe" ].

(** A section kind that occurs twice, the second time with no content,
    and the same text with content under the second header. *)
Definition skills_twice_empty : string :=
  PyStr.join ResumeParser.NL [ "Skills"; "Python"; "Skills" ].

Definition skills_twice : string :=
  PyStr.join ResumeParser.NL [ "Skills"; "Python"; "Skills"; "Go" ].


End Examples.

(* ===================================================================== *)
(** * Further sample records                                              *)
(* ===================================================================== *)

Module Samples.

(** A job that only describes itself. *)
Definition job_described : pydict :=
  [ ("title", PStr "Backend Engineer");
    ("description", PStr "Builds services") ].

(** Records with entries of several shapes and values that are absent,
    [None] or of another type. *)
Definition resume_mixed : pydict :=
  [ ("skills", PList [PStr "Python"; PInt 3; PNone]);
    ("technical_skills", PDict [("languages", PList [PStr "Go"]);
                                ("level", PInt 2)]);
    ("education",
       PList [PStr "BSc Computer Science";
              PDict [("degree", PNone); ("field", PStr "Physics")];
              PInt 7]);
    ("experience",
       PList [PStr "Python developer at Acme";
              PDict [("title", PNone); ("description", PInt 5)];
              PNone]);
    ("projects",
       PList [PStr "a python crawler"; PDict []; PBool true;
              PDict [("technologies", PList [PStr "Go"])]]);
    ("work_experience", PList [PDict [("company", PStr "Acme")]; PInt 1]) ].

Definition job_mixed : pydict :=
  [ ("required_skills", PList [PStr "Python"; PInt 1; PStr "  "]);
    ("preferred_skills", PStr "go");
    ("education_required", PStr "BSc");
    ("preferred_companies", PList [PStr "ACME"]) ].

(** A required education of one blank, and a resume with a degree. *)
Definition job_blank_education : pydict :=
  [ ("education_required", PStr " ") ].

Definition resume_degree : pydict :=
  [ ("education", PList [PStr "BSc Computer Science"]) ].

(** Two required skills, one of which the resume lists. *)
Definition job_two_skills : pydict :=
  [ ("required_skills", PList [PStr "Python"; PStr "Go"]) ].

Definition resume_one_skill : pydict :=
  [ ("skills", PList [PStr "python"]) ].

(** Three lines of blanks. *)
Definition blank_text : string :=
  PyStr.join ResumeParser.NL [ "  "; ""; " " ].

(** A job that requires seven skills and has no must-have skill. *)
Definition job_seven : pydict :=
  [ ("required_skills", Examples.seven_skills) ].

End Samples.
(* ===================================================================== *)
(** * Deciding membership by evaluation                                   *)
(* ===================================================================== *)

Lemma elem_of_by_compute (x : string) (X : gset string) :
  bool_decide (x ∈ X) = true -> x ∈ X.
Proof. apply bool_decide_eq_true. Qed.

Lemma not_elem_of_by_compute (x : string) (X : gset string) :
  bool_decide (x ∈ X) = false -> x ∉ X.
Proof. apply bool_decide_eq_false. Qed.

Ltac by_compute :=
  first [ apply elem_of_by_compute | apply not_elem_of_by_compute ];
  vm_compute; reflexivity.

(* ===================================================================== *)
(** * Properties of the skill normaliser                                  *)
(* ===================================================================== *)

Module PreprocessingFacts.
Import PyStr Preprocessing.

(** C3, at the input [["Python", "-"]].  The entry "-" passes the blank
    filter of [normalize_skill_set] and normalises to the empty string,
    which the result keeps; normalising the result again drops it, so the
    second result differs from the first. *)
Theorem normalize_skill_set_blank_after_normalising :
  normalize_skill_set [PStr "Python"; PStr "-"] = {[ "python"; "" ]}
  /\ normalize_skill_set_of_set
       (normalize_skill_set [PStr "Python"; PStr "-"]) = {[ "python" ]}
  /\ normalize_skill_set_of_set
       (normalize_skill_set [PStr "Python"; PStr "-"])
     ≠ normalize_skill_set [PStr "Python"; PStr "-"].
Proof.
  assert (H1 : normalize_skill_set [PStr "Python"; PStr "-"]
               = {[ "python"; "" ]}) by (vm_compute; reflexivity).
  assert (H2 : normalize_skill_set_of_set
                 (normalize_skill_set [PStr "Python"; PStr "-"])
               = {[ "python" ]}) by (vm_compute; reflexivity).
  split; [exact H1 | split; [exact H2 |]].
  rewrite H2, H1. intros Heq.
  assert (Hin : "" ∈ ({[ "python"; "" ]} : gset string)) by set_solver.
  rewrite <- Heq in Hin. set_solver.
Qed.

End PreprocessingFacts.
(* ===================================================================== *)
(** * Stripping and joining                                               *)
(* ===================================================================== *)

Module PyStrFacts.
Import PyStr.

(** Appending unfolds on a constructor, as for lists. *)
#[local] Arguments String.append !s1 s2 : simpl nomatch.

Lemma app_assoc (a b c : string) : (a +:+ b) +:+ c = a +:+ (b +:+ c).
Proof. induction a as [|x a IH]; simpl; [reflexivity | now rewrite IH]. Qed.

Lemma app_nil_r (a : string) : a +:+ "" = a.
Proof. induction a as [|x a IH]; simpl; [reflexivity | now rewrite IH]. Qed.

Lemma app_length (a b : string) :
  String.length (a +:+ b) = (String.length a + String.length b)%nat.
Proof. induction a as [|x a IH]; simpl; [reflexivity | now rewrite IH]. Qed.

Lemma app_inv_head (a b c : string) : a +:+ b = a +:+ c -> b = c.
Proof.
  induction a as [|x a IH]; simpl; intros H; [exact H|].
  injection H as H. auto.
Qed.

Lemma nonempty_true (s : string) : nonempty s = true <-> s <> "".
Proof. destruct s; simpl; split; congruence. Qed.

Lemma lstrip_suffix (s : string) : exists a, s = a +:+ lstrip s.
Proof.
  induction s as [|c s [a IH]]; simpl.
  - exists "". reflexivity.
  - destruct (py_isspace c).
    + exists (String c a). simpl. now rewrite <- IH.
    + exists "". reflexivity.
Qed.

Lemma lstrip_length (s : string) :
  (String.length (lstrip s) <= String.length s)%nat.
Proof.
  induction s as [|c s IH]; simpl; [lia|].
  destruct (py_isspace c); simpl; lia.
Qed.

(** A stripped, non-empty string starts with a character that is not
    whitespace, so nothing is stripped from what it starts. *)
Lemma lstrip_fixed_app (m q : string) :
  lstrip m = m -> m <> "" -> lstrip (m +:+ q) = m +:+ q.
Proof.
  destruct m as [|c m]; [congruence|]. simpl. intros H _.
  destruct (py_isspace c); [|reflexivity].
  pose proof (lstrip_length m) as Hlen. rewrite H in Hlen. simpl in Hlen. lia.
Qed.

Lemma lstrip_app_fixed (p y : string) :
  lstrip y = y -> y <> "" -> exists p', lstrip (p +:+ y) = p' +:+ y.
Proof.
  intros Hy Hne. induction p as [|c p [p' IH]]; simpl.
  - exists "". exact Hy.
  - destruct (py_isspace c).
    + exists p'. exact IH.
    + exists (String c p). reflexivity.
Qed.

Lemma rstrip_prefix (s : string) : exists b, s = rstrip s +:+ b.
Proof.
  induction s as [|c s [b IH]]; simpl.
  - exists "". reflexivity.
  - destruct (rstrip s) as [|x r] eqn:E.
    + destruct (py_isspace c).
      * exists (String c s). reflexivity.
      * exists s. reflexivity.
    + exists b. simpl. simpl in IH. now rewrite <- IH.
Qed.

Lemma rstrip_length (s : string) :
  (String.length (rstrip s) <= String.length s)%nat.
Proof.
  induction s as [|c s IH]; simpl; [lia|].
  destruct (rstrip s); [destruct (py_isspace c)|]; simpl in *; lia.
Qed.

Lemma rstrip_app_nonempty (x q : string) :
  rstrip q <> "" -> rstrip (x +:+ q) = x +:+ rstrip q.
Proof.
  intros Hq. induction x as [|c x IH]; simpl; [reflexivity|].
  rewrite IH. destruct (x +:+ rstrip q) eqn:E; [|reflexivity].
  destruct x; simpl in E; congruence.
Qed.

Lemma rstrip_app_empty (x q : string) :
  rstrip q = "" -> rstrip (x +:+ q) = rstrip x.
Proof.
  intros Hq. induction x as [|c x IH]; simpl; [exact Hq|].
  now rewrite IH.
Qed.

Lemma rstrip_idem (s : string) : rstrip (rstrip s) = rstrip s.
Proof.
  induction s as [|c s IH]; simpl; [reflexivity|].
  destruct (rstrip s) as [|x r] eqn:E.
  - destruct (py_isspace c) eqn:Ec; simpl; [reflexivity|].
    now rewrite Ec.
  - simpl in *. rewrite IH. reflexivity.
Qed.

Lemma lstrip_idem (s : string) : lstrip (lstrip s) = lstrip s.
Proof.
  induction s as [|c s IH]; simpl; [reflexivity|].
  destruct (py_isspace c) eqn:Ec; [exact IH|].
  simpl. now rewrite Ec.
Qed.

(** A suffix of a right-stripped string is right-stripped. *)
Lemma rstrip_fixed_suffix (a z : string) :
  rstrip (a +:+ z) = a +:+ z -> rstrip z = z.
Proof.
  intros H. destruct (rstrip z) as [|x r] eqn:E.
  - rewrite rstrip_app_empty in H by exact E.
    pose proof (rstrip_length a) as Hlen. rewrite H, app_length in Hlen.
    destruct z; [reflexivity | simpl in Hlen; lia].
  - rewrite rstrip_app_nonempty in H by (rewrite E; discriminate).
    apply app_inv_head in H. congruence.
Qed.

Lemma strip_fixed (s : string) :
  lstrip (strip s) = strip s /\ rstrip (strip s) = strip s.
Proof.
  unfold strip. split; [apply lstrip_idem|].
  destruct (lstrip_suffix (rstrip s)) as [a Ha].
  apply (rstrip_fixed_suffix a). rewrite <- Ha. apply rstrip_idem.
Qed.

(** Every string is its stripped form between two margins. *)
Lemma strip_middle (s : string) : exists a b, s = a +:+ strip s +:+ b.
Proof.
  destruct (rstrip_prefix s) as [b Hb].
  destruct (lstrip_suffix (rstrip s)) as [a Ha].
  exists a, b. unfold strip. rewrite <- app_assoc, <- Ha. exact Hb.
Qed.

(** Stripping keeps a stripped, non-empty part of the text whole. *)
Lemma strip_keeps (p m q : string) :
  m <> "" -> lstrip m = m -> rstrip m = m ->
  exists p' q', strip (p +:+ m +:+ q) = p' +:+ m +:+ q'.
Proof.
  intros Hne Hl Hr. unfold strip.
  assert (Hpm : rstrip (p +:+ m) = p +:+ m)
    by (rewrite rstrip_app_nonempty, Hr; [reflexivity | congruence]).
  assert (Hrs : exists q', rstrip (p +:+ m +:+ q) = p +:+ m +:+ q').
  { rewrite <- app_assoc. destruct (rstrip q) as [|x r] eqn:E.
    - exists "". rewrite rstrip_app_empty by exact E.
      rewrite Hpm, app_nil_r. reflexivity.
    - exists (String x r).
      rewrite rstrip_app_nonempty by (rewrite E; discriminate).
      rewrite E, app_assoc. reflexivity. }
  destruct Hrs as [q' ->].
  destruct (lstrip_app_fixed p (m +:+ q')) as [p' Hp'].
  - apply lstrip_fixed_app; assumption.
  - destruct m; simpl; congruence.
  - exists p', q'. exact Hp'.
Qed.

Lemma join_In (sep l : string) (cc : list string) :
  In l cc -> exists p q, join sep cc = p +:+ l +:+ q.
Proof.
  induction cc as [|x cc IH]; intros Hin; [destruct Hin|].
  destruct Hin as [->|Hin].
  - destruct cc as [|y cc]; simpl.
    + exists "", "". now rewrite app_nil_r.
    + exists "", (sep +:+ join sep (y :: cc)). reflexivity.
  - destruct (IH Hin) as (p & q & Hpq).
    destruct cc as [|y cc]; [destruct Hin|].
    exists (x +:+ sep +:+ p), q.
    change (join sep (x :: y :: cc)) with (x +:+ sep +:+ join sep (y :: cc)).
    rewrite Hpq, !app_assoc. reflexivity.
Qed.

(** The content saved for a block of lines holds the non-blank text of
    each of its lines. *)
Lemma strip_join_covers (sep l : string) (cc : list string) :
  In l cc -> strip l <> "" ->
  substring (strip l) (strip (join sep cc))
  /\ strip (join sep cc) <> "".
Proof.
  intros Hin Hne.
  destruct (join_In sep l cc Hin) as (p & q & Hj).
  destruct (strip_middle l) as (a & b & Hl).
  destruct (strip_fixed l) as [Hfl Hfr].
  destruct (strip_keeps (p +:+ a) (strip l) (b +:+ q) Hne Hfl Hfr)
    as (p' & q' & Hs).
  assert (Heq : join sep cc = (p +:+ a) +:+ strip l +:+ (b +:+ q)).
  { rewrite Hj. rewrite Hl at 1. rewrite !app_assoc. reflexivity. }
  rewrite Heq, Hs. split.
  - exists p', q'. reflexivity.
  - destruct p'; simpl; [|discriminate].
    destruct (strip l); simpl; congruence.
Qed.

End PyStrFacts.
(* ===================================================================== *)
(** * Properties of the coverage and of the classifier                    *)
(* ===================================================================== *)

Module MatcherFacts.
Import PyStr Preprocessing Records SemanticMatcher.

(** With no required skill the coverage is 0, and nothing is raised. *)
Lemma coverage_without_required_skills (job_data resume_data : pydict) :
  py_get job_data "required_skills" (PList []) = PList [] ->
  compute_skill_coverage job_data resume_data = inr 0%Q.
Proof. unfold compute_skill_coverage. intros ->. reflexivity. Qed.

(** C4, at a job that requires ["CI/CD"] and a resume that lists
    ["CI/CD"].  [compute_skill_coverage] lowercases the required skills
    but does not normalise them, so "ci/cd" is not found among the
    normalised resume skills and the coverage is 0; with the required
    skills normalised, as the claim has it, the coverage is 1. *)
Theorem coverage_required_not_normalised :
  compute_skill_coverage Examples.job_d Examples.resume_d = inr 0%Q
  /\ coverage_as_specified Examples.job_d Examples.resume_d = inr 1%Q
  /\ elements (resume_skill_set Examples.resume_d) = ["ci cd"].
Proof. repeat split; vm_compute; reflexivity. Qed.

End MatcherFacts.

Module ScorerFacts.
Import ResumeScorer.

(** C5.  [classify] returns "Suitable" exactly for the scores at or above
    the suitable threshold, "Maybe Suitable" exactly for those at or above
    the maybe threshold and below the suitable one, and "Not Suitable" for
    all others; a score equal to the suitable threshold is "Suitable". *)
Theorem classify_bands (self : t) (s : Q) :
  (classify self s = "Suitable" <-> (suitable_threshold self <= s)%Q)
  /\ (classify self s = "Maybe Suitable"
      <-> (maybe_threshold self <= s)%Q /\ (s < suitable_threshold self)%Q)
  /\ (classify self s = "Not Suitable"
      <-> ~ (suitable_threshold self <= s)%Q
          /\ ~ ((maybe_threshold self <= s)%Q /\ (s < suitable_threshold self)%Q))
  /\ classify self (suitable_threshold self) = "Suitable".
Proof.
  unfold classify.
  assert (Hrefl : Qle_bool (suitable_threshold self) (suitable_threshold self)
                  = true) by (apply Qle_bool_iff, Qle_refl).
  rewrite Hrefl.
  destruct (Qle_bool (suitable_threshold self) s) eqn:Hs.
  - apply Qle_bool_iff in Hs.
    repeat split; try discriminate; try tauto.
    intros [_ Hlt]. destruct (Qlt_not_le _ _ Hlt Hs).
  - assert (Hs' : ~ (suitable_threshold self <= s)%Q)
      by (intros Hc; apply Qle_bool_iff in Hc; congruence).
    destruct (Qle_bool (maybe_threshold self) s) eqn:Hm.
    + apply Qle_bool_iff in Hm.
      repeat split; try discriminate; try tauto.
      * apply Qnot_le_lt. exact Hs'.
      * intros [_ Hn]. destruct Hn. split; [exact Hm|].
        apply Qnot_le_lt. exact Hs'.
    + assert (Hm' : ~ (maybe_threshold self <= s)%Q)
        by (intros Hc; apply Qle_bool_iff in Hc; congruence).
      repeat split; try discriminate; try tauto.
Qed.

(** The default instance at its own boundaries. *)
Lemma classify_default_boundaries :
  classify default (8 # 10) = "Suitable"
  /\ classify default (79 # 100) = "Maybe Suitable"
  /\ classify default (5 # 10) = "Maybe Suitable"
  /\ classify default (49 # 100) = "Not Suitable".
Proof. repeat split. Qed.

End ScorerFacts.
(* ===================================================================== *)
(** * Properties of the section segmenter                                 *)
(* ===================================================================== *)

Module SegmenterFacts.
Import PyStr PyStrFacts ResumeParser.

(** The mapping after a sequence of assignments. *)
Definition assign_all (d : section_map) (l : list (SectionType * string))
  : section_map :=
  foldl (fun d kc => dict_set d (fst kc) (snd kc)) d l.

Lemma assign_all_app d l1 l2 :
  assign_all d (l1 ++ l2) = assign_all (assign_all d l1) l2.
Proof. unfold assign_all. apply foldl_app. Qed.

Lemma dict_get_set (d : section_map) (k k' : SectionType) (v : string) :
  dict_get (dict_set d k v) k'
  = if decide (k = k') then Some v else dict_get d k'.
Proof.
  induction d as [|[k0 v0] d IH]; simpl.
  - destruct (decide (k = k')); reflexivity.
  - destruct (decide (k0 = k)) as [->|Hne]; simpl.
    + destruct (decide (k = k')); reflexivity.
    + destruct (decide (k0 = k')) as [->|Hne'].
      * destruct (decide (k = k')); [congruence | reflexivity].
      * exact IH.
Qed.

Lemma dict_get_assign_other d l (k : SectionType) :
  (forall c, ~ In (k, c) l) ->
  dict_get (assign_all d l) k = dict_get d k.
Proof.
  revert d. induction l as [|[k0 v0] l IH]; intros d Hnot; [reflexivity|].
  unfold assign_all in *. simpl. rewrite IH.
  - rewrite dict_get_set. destruct (decide (k0 = k)) as [->|]; [|reflexivity].
    destruct (Hnot v0). left. reflexivity.
  - intros c Hin. apply (Hnot c). right. exact Hin.
Qed.

(** The returned mapping is the result of the saved assignments. *)
Lemma save_section_sections (st : scan) :
  sections st = assign_all [] (saves st) ->
  sections (save_section st) = assign_all [] (saves (save_section st)).
Proof.
  intros H. unfold save_section.
  destruct (current_content st); [exact H|].
  destruct (nonempty _); [|exact H].
  simpl. rewrite assign_all_app, <- H. reflexivity.
Qed.

Lemma scan_line_sections (st : scan) (line : string) :
  sections st = assign_all [] (saves st) ->
  sections (scan_line st line) = assign_all [] (saves (scan_line st line)).
Proof.
  intros H. unfold scan_line.
  destruct (negb _); [destruct (current_content st); exact H|].
  destruct (header_kind line); [|exact H].
  simpl. apply save_section_sections. exact H.
Qed.

Lemma scan_lines_sections (lines : list string) (st : scan) :
  sections st = assign_all [] (saves st) ->
  sections (foldl scan_line st lines)
  = assign_all [] (saves (foldl scan_line st lines)).
Proof.
  revert st. induction lines as [|line lines IH]; intros st H; [exact H|].
  simpl. apply IH, scan_line_sections, H.
Qed.

Lemma detect_sections_assignments (text : string) :
  detect_sections text = assign_all [] (saved_sections text).
Proof.
  unfold detect_sections, saved_sections, scan_text.
  apply save_section_sections, scan_lines_sections. reflexivity.
Qed.

(** C7 as stated fails when the later occurrence has no content: both
    "Skills" lines are taken as headers of the skills section, and the
    returned mapping holds the content of the earlier occurrence. *)
Lemma detect_sections_empty_recurrence :
  map header_kind ["Skills"; "Python"; "Skills"]
  = [Some SKILLS; None; Some SKILLS]
  /\ detect_sections Examples.skills_twice_empty = [(SKILLS, "Python")].
Proof. split; vm_compute; reflexivity. Qed.

End SegmenterFacts.
(* ===================================================================== *)
(** * Properties of the contact extractor                                  *)
(* ===================================================================== *)

Module ParserFacts.
Import PyStr ResumeParser.

(** Every pattern of the functions modelled above is in the grammar that
    [Re.compile] reads. *)
Lemma patterns_compile :
  forallb (fun pattern =>
             match Re.compile false pattern with
             | Some _ => true
             | None => false
             end)
       (flat_map snd section_patterns ++ phone_patterns
        ++ [ "[:\-\s]+$"; "^\W+"; "^(19|20)\d{2}$"; "\D";
             "\b[A-Za-z0-9._%+-]+@[A-Za-z0-9.-]+\.[A-Z|a-z]{2,}\b";
             "(?:https?://)?(?:www\.)?linkedin\.com/(?:in|pub)/([\w-]+)";
             "(?:https?://)?(?:www\.)?github\.com/([\w-]+)";
             "(https?://[\w.-]+(?:/\S*)?)";
             "([A-Z][a-z]+(?:\s+[A-Z][a-z]+)*),?\s*([A-Z]{2})\b";
             "@|\d{3}[-.\s]\d{3}|http|www\.";
             "^[A-Za-z\'\-\.]+$" ]) = true.
Proof. vm_compute; reflexivity. Qed.

(** C9.  On the header "Jane A. Doe / jane.doe@example.com /
    (555) 123-4567 / linkedin.com/in/janedoe", one field a line,
    [extract_contact_info] finds the name, the email, the phone number,
    rendered as (XXX) XXX-XXXX from the ten digits of the match, and the
    LinkedIn handle. *)
Theorem extract_contact_info_jane :
  name (extract_contact_info Examples.jane_header) = Some "Jane A. Doe"
  /\ email (extract_contact_info Examples.jane_header)
     = Some "jane.doe@example.com"
  /\ phone (extract_contact_info Examples.jane_header)
     = Some "(555) 123-4567"
  /\ linkedin (extract_contact_info Examples.jane_header)
     = Some "linkedin.com/in/janedoe"
  /\ Re.delete "\D" "(555) 123-4567" = "5551234567"
  /\ String.length (Re.delete "\D" "(555) 123-4567") = 10%nat.
Proof. repeat split; vm_compute; reflexivity. Qed.

End ParserFacts.
(* ===================================================================== *)
(** * Properties of the rule-based scorer                                 *)
(* ===================================================================== *)

Module RuleBasedFacts.
Import PyStr Preprocessing Records Config RuleBasedScorer.

(** The sum of the five components of a breakdown. *)
Definition breakdown_sum (b : breakdown) : Z :=
  skills_score b + education_score b + experience_score b
  + projects_score b + company_score b.

Lemma bind_inr {A B} (c : py A) (k : A -> py B) (b : B) :
  bind c k = inr b -> exists a, c = inr a /\ k a = inr b.
Proof. destruct c as [e|a]; simpl; [discriminate | eauto]. Qed.

Ltac inv_bind H :=
  let a := fresh "v" in
  let E := fresh "E" in
  apply bind_inr in H; destruct H as (a & E & H).

Lemma education_loop_bounds job edus acc r :
  education_loop job edus acc = inr r ->
  0 <= acc <= 10 -> 0 <= r <= 10.
Proof.
  revert acc. induction edus as [|edu rest IH]; intros acc H Hacc; simpl in H.
  - injection H as <-. exact Hacc.
  - inv_bind H. destruct v as [[degree field]|]; [|eauto].
    inv_bind H. inv_bind H.
    destruct (nonempty v0 && contains degree v0); [|eauto].
    unfold education_full, education_partial in H.
    destruct (_ && _ && _) in H; injection H as <-; lia.
Qed.

Lemma desc_fold_ge desc_text skills acc :
  acc <= foldl (fun acc req_skill =>
                  if contains desc_text req_skill
                  then acc + experience_desc_bonus else acc) acc skills.
Proof.
  revert acc. induction skills as [|s l IH]; intros acc; simpl; [lia|].
  etransitivity; [|apply IH]. unfold experience_desc_bonus.
  destruct (contains desc_text s); lia.
Qed.

Lemma experience_loop_nonneg required exps e d e' d' :
  experience_loop required exps e d = inr (e', d') ->
  0 <= e -> 0 <= d -> 0 <= e' /\ 0 <= d'.
Proof.
  revert e d. induction exps as [|exp rest IH]; intros e d H He Hd; simpl in H.
  - injection H as <- <-. auto.
  - inv_bind H. destruct v as [[title desc_text]|]; [|eauto].
    apply IH in H; auto.
    + unfold experience_title_point. destruct (existsb _ _); lia.
    + etransitivity; [exact Hd | apply desc_fold_ge].
Qed.

Lemma projects_loop_nonneg required projs acc r :
  projects_loop required projs acc = inr r -> 0 <= acc -> 0 <= r.
Proof.
  revert acc. induction projs as [|proj rest IH]; intros acc H Hacc; simpl in H.
  - injection H as <-. exact Hacc.
  - inv_bind H. apply IH in H; lia.
Qed.

Lemma company_loop_nonneg preferred exps acc r :
  company_loop preferred exps acc = inr r -> 0 <= acc -> 0 <= r.
Proof.
  revert acc. induction exps as [|exp rest IH]; intros acc H Hacc; simpl in H.
  - injection H as <-. exact Hacc.
  - destruct exp; eauto.
    inv_bind H. apply IH in H; auto.
    unfold company_point. destruct (existsb _ _); lia.
Qed.

(** A call of [score] returns when its total and breakdown evaluate. *)
Definition total_and_breakdown (resume job : pydict) : option (Z * breakdown) :=
  match score resume job with
  | inr (total, bd, _, _) => Some (total, bd)
  | inl _ => None
  end.

Lemma score_returns (resume job : pydict) total bd :
  total_and_breakdown resume job = Some (total, bd) ->
  exists mr miss, score resume job = inr (total, bd, mr, miss).
Proof.
  unfold total_and_breakdown.
  destruct (score resume job) as [e|[[[t' bd'] mr] miss]]; intros H;
    [discriminate | injection H as -> ->; eauto].
Qed.

(** What a returning call of [score] computed: the total is the penalised,
    capped sum of the returned components, each component within its
    range. *)
Lemma score_shape resume job total bd mr miss :
  score resume job = inr (total, bd, mr, miss) ->
  exists required exps title_sum desc_sum must_have,
    normalized_field job "required_skills" = inr required
    /\ py_iter (py_get resume "experience" (PList [])) = inr exps
    /\ experience_loop required exps 0 0 = inr (title_sum, desc_sum)
    /\ normalized_field job "must_have_skills" = inr must_have
    /\ total = Z.min (penalise (missing_must must_have (resume_skill_set resume))
                               (breakdown_sum bd)) 100
    /\ 0 <= skills_score bd
    /\ 0 <= education_score bd <= 10
    /\ experience_score bd = Z.min (title_sum + Z.min desc_sum 10) 15
    /\ 0 <= title_sum /\ 0 <= desc_sum
    /\ 0 <= projects_score bd <= 10
    /\ 0 <= company_score bd <= 20.
Proof.
  unfold score. intros H.
  inv_bind H. rename v into required, E into Ereq.
  inv_bind H. rename v into preferred.
  inv_bind H. rename v into edus.
  inv_bind H. rename v into edu_score, E1 into Eedu.
  inv_bind H. rename v into exps, E1 into Eexps.
  inv_bind H. destruct v as [title_sum desc_sum]. rename E1 into Eloop.
  inv_bind H. rename v into projs.
  inv_bind H. rename v into proj_score, E2 into Eproj.
  inv_bind H. rename v into companies.
  inv_bind H. rename v into lowered.
  inv_bind H. rename v into exps2.
  inv_bind H. rename v into c1, E5 into Ec1.
  inv_bind H. rename v into work.
  inv_bind H. rename v into c2, E6 into Ec2.
  inv_bind H. rename v into must_have, E6 into Emust.
  injection H as <- <- <- <-.
  apply education_loop_bounds in Eedu; [|lia].
  apply experience_loop_nonneg in Eloop as Hexp; [|lia..].
  apply projects_loop_nonneg in Eproj; [|lia].
  apply company_loop_nonneg in Ec1; [|lia].
  apply company_loop_nonneg in Ec2; [|lia].
  exists required, exps, title_sum, desc_sum, must_have.
  unfold breakdown_sum, experience_desc_bonus_cap, projects_cap, company_cap,
    required_skill_point, preferred_skill_point in *; simpl in *.
  repeat split; auto; try lia.
Qed.

(** C1.  Whenever [RuleBasedScorer.score] returns, its total lies in
    [0, 100] and the breakdown components respect their caps: the
    experience score is at most 15, and it is the capped sum of the title
    points and of a description bonus that contributes at most 10; the
    projects score is at most 10, the company score at most 20 and the
    education score at most 10. *)
Theorem score_total_and_caps (resume job : pydict) total bd mr miss :
  score resume job = inr (total, bd, mr, miss) ->
  0 <= total <= 100
  /\ experience_score bd <= 15
  /\ (exists required exps title_sum desc_sum,
        normalized_field job "required_skills" = inr required
        /\ py_iter (py_get resume "experience" (PList [])) = inr exps
        /\ experience_loop required exps 0 0 = inr (title_sum, desc_sum)
        /\ experience_score bd
           = Z.min (title_sum + Z.min desc_sum experience_desc_bonus_cap) 15
        /\ 0 <= Z.min desc_sum experience_desc_bonus_cap <= 10)
  /\ projects_score bd <= 10
  /\ company_score bd <= 20
  /\ education_score bd <= 10.
Proof.
  intros H.
  destruct (score_shape _ _ _ _ _ _ H)
    as (required & exps & title_sum & desc_sum & must_have
        & Hreq & Hexps & Hloop & Hmust & Htotal & Hsk & Hedu & Hexp
        & Ht & Hd & Hproj & Hcomp).
  assert (Hsum : 0 <= breakdown_sum bd) by (unfold breakdown_sum; lia).
  repeat split; try lia.
  - subst total. unfold penalise, MUST_HAVE_PENALTY.
    destruct (missing_must _ _); lia.
  - exists required, exps, title_sum, desc_sum.
    unfold experience_desc_bonus_cap. repeat split; auto; lia.
Qed.

Lemma score_total_and_caps_witness :
  exists mr miss,
    score Examples.resume_a Examples.job_a
    = inr (46, Breakdown 50 10 6 2 8, mr, miss)
    /\ 0 <= 46 <= 100.
Proof.
  destruct (score_returns Examples.resume_a Examples.job_a
              46 (Breakdown 50 10 6 2 8)) as (mr & miss & E);
    [vm_compute; reflexivity|].
  exists mr, miss. split; [exact E|].
  apply (score_total_and_caps _ _ _ _ _ _ E).
Defined.

Lemma missing_must_nil (must_have resume_skills : gset string) :
  missing_must must_have resume_skills = []
  <-> (forall s, s ∈ must_have -> s ∈ resume_skills).
Proof.
  unfold missing_must. split.
  - intros Hnil s Hs.
    destruct (decide (s ∈ resume_skills)) as [|Hn]; [assumption|].
    assert (Hin : In s (List.filter (fun s => bool_decide (s ∉ resume_skills))
                                    (elements must_have))).
    { apply filter_In. split.
      - apply list_elem_of_In, elem_of_elements, Hs.
      - apply bool_decide_eq_true. exact Hn. }
    rewrite Hnil in Hin. destruct Hin.
  - intros Hall.
    destruct (List.filter _ _) as [|s l] eqn:E; [reflexivity|].
    assert (Hin : In s (s :: l)) by (left; reflexivity).
    rewrite <- E in Hin. apply filter_In in Hin as [Hin Hb].
    apply bool_decide_eq_true in Hb.
    apply list_elem_of_In, elem_of_elements in Hin.
    destruct (Hb (Hall s Hin)).
Qed.

Lemma penalise_none must_have resume_skills S :
  (forall s, s ∈ must_have -> s ∈ resume_skills) ->
  penalise (missing_must must_have resume_skills) S = S.
Proof. intros H. apply missing_must_nil in H. rewrite H. reflexivity. Qed.

Lemma penalise_some (must_have resume_skills : gset string) S :
  (exists s, s ∈ must_have /\ s ∉ resume_skills) ->
  penalise (missing_must must_have resume_skills) S
  = Z.max 0 (S - MUST_HAVE_PENALTY).
Proof.
  intros (s & Hs & Hn).
  destruct (missing_must must_have resume_skills) eqn:E; [|reflexivity].
  destruct Hn. eapply missing_must_nil; eauto.
Qed.

Lemma education_loop_must_have v job edus acc :
  education_loop (("must_have_skills", v) :: job) edus acc
  = education_loop job edus acc.
Proof.
  revert acc. induction edus as [|edu rest IH]; intros acc; [reflexivity|].
  cbn -[edu_degree_field contains split_ws]. destruct (edu_degree_field edu) as [e|[[d f]|]];
    cbn -[contains split_ws]; [reflexivity| |apply IH].
  destruct (py_lower _) as [e|req]; cbn -[contains split_ws]; [reflexivity|].
  destruct (if nonempty req then _ else _) as [e|base];
    cbn -[contains split_ws]; [reflexivity|].
  rewrite IH. reflexivity.
Qed.

(** The components that [score] returns do not depend on the must-have
    skills of the job: replacing them changes neither the breakdown nor
    the matched and missing required skills. *)
Lemma breakdown_without_must_have resume job v t bd mr miss t' bd' mr' miss' :
  score resume job = inr (t, bd, mr, miss) ->
  score resume (("must_have_skills", v) :: job) = inr (t', bd', mr', miss') ->
  bd' = bd /\ mr' = mr /\ miss' = miss.
Proof.
  unfold score, normalized_field. intros H H'.
  cbn [py_get String.eqb Ascii.eqb Bool.eqb] in H'.
  repeat (try rewrite education_loop_must_have in H';
  match goal with
  | H1 : bind ?c _ = inr _, H2 : bind ?c _ = inr _ |- _ =>
      let a := fresh "a" in
      let b := fresh "b" in
      let E1 := fresh "E" in
      let E2 := fresh "E" in
      apply bind_inr in H1 as (a & E1 & H1);
      apply bind_inr in H2 as (b & E2 & H2);
      rewrite E1 in E2; injection E2 as <-; clear E1
  end).
  apply bind_inr in H as (mh & _ & H).
  apply bind_inr in H' as (mh' & _ & H').
  injection H as <- <- <- <-. injection H' as <- <- <- <-.
  auto.
Qed.

(** C2.  When a normalised must-have skill of the job is not among the
    normalised resume skills, the returned total is the sum of the
    components less the penalty of 30, floored at 0 and then capped at
    100; in particular with [must_have_skills = ["Python"]], no "python"
    among the resume skills and a sum of 70, the total is 40. *)
Theorem must_have_penalty (resume job : pydict) total bd mr miss :
  score resume job = inr (total, bd, mr, miss) ->
  (forall must_have,
      normalized_field job "must_have_skills" = inr must_have ->
      (exists s, s ∈ must_have /\ s ∉ resume_skill_set resume) ->
      MUST_HAVE_PENALTY = 30
      /\ total = Z.min (Z.max 0 (breakdown_sum bd - MUST_HAVE_PENALTY)) 100)
  /\ (py_get job "must_have_skills" (PList []) = PList [PStr "Python"] ->
      "python" ∉ resume_skill_set resume ->
      breakdown_sum bd = 70 ->
      total = 40).
Proof.
  intros H.
  destruct (score_shape _ _ _ _ _ _ H)
    as (required & exps & title_sum & desc_sum & must_have
        & _ & _ & _ & Hmust & Htotal & _).
  split.
  - intros must_have' Hmust' Hmissing.
    rewrite Hmust in Hmust'. injection Hmust' as <-.
    split; [reflexivity|].
    rewrite Htotal, (penalise_some _ _ _ Hmissing). reflexivity.
  - intros Hpy Hnot Hsum.
    unfold normalized_field in Hmust. rewrite Hpy in Hmust.
    assert (must_have = normalize_skill_set [PStr "Python"]) as ->
      by (cbv [bind py_iter ret] in Hmust; congruence).
    rewrite Htotal, penalise_some, Hsum; [reflexivity|].
    exists "python". split; [by_compute | exact Hnot].
Qed.

Lemma must_have_penalty_witness :
  exists mr miss,
    score Examples.resume_b Examples.job_b
    = inr (40, Breakdown 70 0 0 0 0, mr, miss)
    /\ 40 = Z.min (Z.max 0 (70 - 30)) 100.
Proof.
  destruct (score_returns Examples.resume_b Examples.job_b
              40 (Breakdown 70 0 0 0 0)) as (mr & miss & E);
    [vm_compute; reflexivity|].
  exists mr, miss. split; [exact E|].
  destruct (must_have_penalty _ _ _ _ _ _ E) as [Hgeneral Hparticular].
  destruct (Hgeneral (normalize_skill_set [PStr "Python"])) as [_ Htotal].
  - reflexivity.
  - exists "python". split; by_compute.
  - exact Htotal.
Defined.

(** C10.  The returned total is [min(100, S)] when no normalised
    must-have skill is missing from the resume skills and
    [min(100, max(0, S - 30))] otherwise, where [S] is the sum of the five
    returned components.  The components are not adjusted by the penalty
    (they are the same whatever the must-have skills of the job are) nor
    by the cap, so the total can be strictly below their sum. *)
Theorem total_is_capped_penalised_sum (resume job : pydict)
    total bd mr miss must_have :
  score resume job = inr (total, bd, mr, miss) ->
  normalized_field job "must_have_skills" = inr must_have ->
  ((forall s, s ∈ must_have -> s ∈ resume_skill_set resume) ->
     total = Z.min 100 (breakdown_sum bd))
  /\ ((exists s, s ∈ must_have /\ s ∉ resume_skill_set resume) ->
       total = Z.min 100 (Z.max 0 (breakdown_sum bd - 30)))
  /\ (forall v t' bd' mr' miss',
        score resume (("must_have_skills", v) :: job)
        = inr (t', bd', mr', miss') ->
        bd' = bd)
  /\ (exists resume' job' t' bd' mr' miss',
        score resume' job' = inr (t', bd', mr', miss')
        /\ t' < breakdown_sum bd').
Proof.
  intros H Hmust.
  destruct (score_shape _ _ _ _ _ _ H)
    as (required & exps & title_sum & desc_sum & must_have'
        & _ & _ & _ & Hmust' & Htotal & _).
  rewrite Hmust in Hmust'. injection Hmust' as <-.
  repeat split.
  - intros Hall. rewrite Htotal, penalise_none by assumption. lia.
  - intros Hmissing. rewrite Htotal, penalise_some by assumption.
    unfold MUST_HAVE_PENALTY. lia.
  - intros v t' bd' mr' miss' H'.
    eapply breakdown_without_must_have; eassumption.
  - destruct (score_returns Examples.resume_b Examples.job_b
                40 (Breakdown 70 0 0 0 0)) as (mr' & miss' & E);
      [vm_compute; reflexivity|].
    exists Examples.resume_b, Examples.job_b, 40, (Breakdown 70 0 0 0 0),
      mr', miss'.
    split; [exact E | reflexivity].
Qed.

Lemma total_is_capped_penalised_sum_witness :
  (exists mr miss,
      score Examples.resume_b Examples.job_b
      = inr (40, Breakdown 70 0 0 0 0, mr, miss)
      /\ 40 = Z.min 100 (Z.max 0 (70 - 30)))
  /\ (exists mr miss,
        score Examples.resume_c Examples.job_c
        = inr (100, Breakdown 110 0 0 0 0, mr, miss)
        /\ 100 = Z.min 100 110).
Proof.
  split.
  - destruct (score_returns Examples.resume_b Examples.job_b
                40 (Breakdown 70 0 0 0 0)) as (mr & miss & E);
      [vm_compute; reflexivity|].
    exists mr, miss. split; [exact E|].
    apply (total_is_capped_penalised_sum _ _ _ _ _ _
             (normalize_skill_set [PStr "Python"]) E).
    + reflexivity.
    + exists "python". split; by_compute.
  - destruct (score_returns Examples.resume_c Examples.job_c
                100 (Breakdown 110 0 0 0 0)) as (mr & miss & E);
      [vm_compute; reflexivity|].
    exists mr, miss. split; [exact E|].
    apply (total_is_capped_penalised_sum _ _ _ _ _ _ ∅ E).
    + reflexivity.
    + intros s Hs. apply elem_of_empty in Hs. destruct Hs.
Defined.

End RuleBasedFacts.
(* ===================================================================== *)
(** * The name and the phone number of the contact                        *)
(* ===================================================================== *)

Module ContactFacts.
Import PyStr PyStrFacts ResumeParser.

#[local] Arguments String.append !s1 s2 : simpl nomatch.

Lemma head_filter {A} (p : A -> bool) (l : list A) (x : A) :
  head (List.filter p l) = Some x -> In x l /\ p x = true.
Proof.
  induction l as [|y l IH]; simpl; [discriminate|].
  destruct (p y) eqn:E; simpl.
  - intros H. injection H as ->. split; [left; reflexivity | exact E].
  - intros H. destruct (IH H). split; [right; assumption | assumption].
Qed.

(** X26.  The name [_extract_name] returns is one of the first ten lines of
    the text, stripped; it is not empty, does not hold the email
    address, is not a section header, and is made of two to four words,
    each capitalised or an initial. *)
Theorem extract_name_is_a_line_that_looks_like_a_name
    (text : string) (email : option string) (name : string) :
  _extract_name text email = Some name ->
  In name (map strip (firstn 10 (split_on (ascii_of_nat 10) text)))
  /\ name <> EmptyString
  /\ _identify_section_header name = None
  /\ (forall e, email = Some e -> e <> EmptyString -> contains name e = false)
  /\ (2 <= length (split_ws name) <= 4)%nat
  /\ forallb capitalised_or_initial (split_ws name) = true.
Proof.
  unfold _extract_name. intros H. apply head_filter in H as [Hin Hlooks].
  split; [exact Hin|]. clear Hin. unfold looks_like_name in Hlooks.
  destruct (nonempty name) eqn:Hne; [|discriminate]. cbn [negb] in Hlooks.
  split; [apply nonempty_true, Hne|].
  destruct (match email with
            | Some e => (nonempty e && contains name e)%bool
            | None => false
            end) eqn:Hemail; [discriminate|].
  destruct (Re.found (Re.search _ name)); [discriminate|].
  destruct (_identify_section_header name) eqn:Hhead; [discriminate|].
  cbn [is_Some_b] in Hlooks.
  repeat (apply andb_prop in Hlooks as [Hlooks ?]).
  split; [reflexivity|]. split; [|split].
  - intros e -> He. apply nonempty_true in He. rewrite He in Hemail.
    exact Hemail.
  - split; apply Nat.leb_le; assumption.
  - assumption.
Qed.

Lemma extract_name_is_a_line_that_looks_like_a_name_witness :
  _extract_name Examples.jane_header (Some "jane.doe@example.com")
  = Some "Jane A. Doe"
  /\ _identify_section_header "Jane A. Doe" = None.
Proof.
  assert (H : _extract_name Examples.jane_header (Some "jane.doe@example.com")
              = Some "Jane A. Doe") by (vm_compute; reflexivity).
  split; [exact H|].
  exact (proj1 (proj2 (proj2
    (extract_name_is_a_line_that_looks_like_a_name _ _ _ H)))).
Defined.

(** ** The phone number *)

Lemma substring_length (n m : nat) (s : string) :
  (n + m <= String.length s)%nat ->
  String.length (String.substring n m s) = m.
Proof.
  revert n m. induction s as [|c s IH]; intros n m H; simpl in H.
  - assert (n = 0 /\ m = 0)%nat as [-> ->] by lia. reflexivity.
  - destruct n as [|n]; simpl.
    + destruct m as [|m]; simpl; [reflexivity|].
      f_equal. apply IH. lia.
    + apply IH. lia.
Qed.

Lemma string_of_list_app (l1 l2 : list ascii) :
  string_of_list_ascii (l1 ++ l2)
  = string_of_list_ascii l1 +:+ string_of_list_ascii l2.
Proof. induction l1 as [|c l1 IH]; simpl; [reflexivity | now rewrite IH]. Qed.

(** What a match object gives for [group()] is text of the string
    searched. *)
Lemma group0_substring (s : string) (m : Re.rmatch) :
  substring (Re.group0 s m) s.
Proof.
  unfold Re.group0, Re.slice.
  set (l := list_ascii_of_string s).
  exists (string_of_list_ascii (firstn (Re.m_start m) l)).
  exists (string_of_list_ascii
            (skipn (Re.m_end m - Re.m_start m) (skipn (Re.m_start m) l))).
  rewrite <- !string_of_list_app, firstn_skipn, firstn_skipn.
  unfold l. symmetry. apply string_of_list_ascii_of_string.
Qed.

(** The form [(XXX) XXX-XXXX]. *)
Definition formatted (p : string) : Prop :=
  exists a b c : string,
    String.length a = 3%nat /\ String.length b = 3%nat
    /\ String.length c = 4%nat
    /\ p = ("(" +:+ a +:+ ") " +:+ b +:+ "-" +:+ c)%string.

Lemma normalize_phone_shape (raw : string) :
  formatted (normalize_phone raw) \/ normalize_phone raw = raw.
Proof.
  unfold normalize_phone.
  set (digits := if (Nat.eqb (String.length (Re.delete "\D" raw)) 11
                     && String.prefix "1" (Re.delete "\D" raw))%bool
                 then py_slice (Re.delete "\D" raw) 1 11
                 else Re.delete "\D" raw).
  destruct (Nat.eqb (String.length digits) 10) eqn:E; [left | right; reflexivity].
  apply Nat.eqb_eq in E.
  exists (py_slice digits 0 3), (py_slice digits 3 6), (py_slice digits 6 10).
  unfold py_slice.
  repeat split; try (apply substring_length; rewrite E; simpl; lia).
Qed.

Lemma phone_loop_spec (patterns : list string) (header_text p : string) :
  phone_loop patterns header_text = Some p ->
  exists raw, substring raw header_text /\ p = normalize_phone raw.
Proof.
  induction patterns as [|pattern rest IH]; simpl; [discriminate|].
  destruct (Re.search pattern header_text) as [m|]; [|exact IH].
  destruct (Re.found _); [exact IH|].
  intros H. injection H as <-.
  exists (Re.group0 header_text m). split; [apply group0_substring | reflexivity].
Qed.

(** X27.  A phone number of the contact either has the form (XXX) XXX-XXXX or
    is text of the first 1000 characters as it stands there. *)
Theorem phone_is_formatted_or_as_found (text p : string) :
  phone (extract_contact_info text) = Some p ->
  formatted p \/ substring p (py_slice text 0 1000).
Proof.
  unfold extract_contact_info. cbn [phone]. intros H.
  apply phone_loop_spec in H as (raw & Hraw & ->).
  destruct (normalize_phone_shape raw) as [Hf|Heq]; [left; exact Hf|].
  right. rewrite Heq. exact Hraw.
Qed.

Lemma phone_is_formatted_or_as_found_witness :
  phone (extract_contact_info Examples.jane_header) = Some "(555) 123-4567"
  /\ (formatted "(555) 123-4567"
      \/ substring "(555) 123-4567" (py_slice Examples.jane_header 0 1000)).
Proof.
  assert (H : phone (extract_contact_info Examples.jane_header)
              = Some "(555) 123-4567") by (vm_compute; reflexivity).
  split; [exact H|].
  exact (phone_is_formatted_or_as_found _ _ H).
Defined.

End ContactFacts.
(* ===================================================================== *)
(** * Splitting a section into entries                                    *)
(* ===================================================================== *)

Module EntriesFacts.
Import PyStr PyStrFacts ResumeParser ResumeEntries.
Import PreprocessingText (LF).

#[local] Arguments String.append !s1 s2 : simpl nomatch.
#[local] Arguments Ascii.eqb : simpl never.


(** A line holds no line feed. *)
Fixpoint one_line (s : string) : bool :=
  match s with
  | EmptyString => true
  | String c s' => (negb (Ascii.eqb c LF) && one_line s')%bool
  end.

(** The line a text starts with. *)
Definition first_line (s : string) : string := hd EmptyString (split_on LF s).

Lemma split_on_not_nil (s : string) : split_on LF s <> [].
Proof.
  induction s as [|c s IH]; simpl; [discriminate|].
  destruct (Ascii.eqb c LF); [discriminate|].
  destruct (split_on LF s); discriminate.
Qed.

Lemma join_cons (x : string) (l : list string) :
  l <> [] -> join NL (x :: l) = x +:+ NL +:+ join NL l.
Proof. destruct l; [congruence | reflexivity]. Qed.

Lemma join_split_on (s : string) : join NL (split_on LF s) = s.
Proof.
  induction s as [|c s IH]; [reflexivity|].
  cbn [split_on]. fold LF. destruct (Ascii.eqb c LF) eqn:E.
  - apply Ascii.eqb_eq in E. subst c.
    rewrite join_cons by apply split_on_not_nil. rewrite IH. reflexivity.
  - pose proof (split_on_not_nil s) as Hne.
    destruct (split_on LF s) as [|p ps]; [congruence|].
    destruct ps as [|q ps].
    + simpl in *. now rewrite IH.
    + rewrite join_cons in * by discriminate.
      simpl. simpl in IH. now rewrite IH.
Qed.

Lemma split_on_lines (s : string) : Forall (fun l => one_line l = true) (split_on LF s).
Proof.
  induction s as [|c s IH]; simpl.
  - repeat constructor.
  - fold LF. destruct (Ascii.eqb c LF) eqn:E.
    + constructor; [reflexivity | exact IH].
    + destruct (split_on LF s) as [|p ps]; [repeat constructor; simpl; now rewrite E|].
      inversion IH as [|? ? Hp Hps]; subst.
      constructor; [|exact Hps]. simpl. now rewrite E, Hp.
Qed.

Lemma first_line_app (a b : string) :
  one_line a = true -> first_line (a +:+ NL +:+ b) = a.
Proof.
  unfold first_line. induction a as [|c a IH]; intros H.
  - reflexivity.
  - simpl in H. apply andb_prop in H as [Hc Ha].
    apply negb_true_iff in Hc.
    change ((String c a) +:+ NL +:+ b) with (String c (a +:+ NL +:+ b)).
    cbn [split_on]. fold LF. rewrite Hc.
    specialize (IH Ha).
    destruct (split_on LF (a +:+ NL +:+ b)); simpl in *; congruence.
Qed.

Lemma first_line_one (a : string) : one_line a = true -> first_line a = a.
Proof.
  unfold first_line. induction a as [|c a IH]; intros H; [reflexivity|].
  simpl in H. apply andb_prop in H as [Hc Ha]. apply negb_true_iff in Hc.
  cbn [split_on]. fold LF. rewrite Hc. specialize (IH Ha).
  destruct (split_on LF a); simpl in *; congruence.
Qed.

Lemma first_line_join (g : list string) :
  Forall (fun l => one_line l = true) g ->
  first_line (join NL g) = hd EmptyString g.
Proof.
  intros H. destruct g as [|x g]; [reflexivity|].
  inversion H as [|? ? Hx _]; subst.
  destruct g as [|y g].
  - simpl. apply first_line_one, Hx.
  - rewrite join_cons by discriminate. simpl. apply first_line_app, Hx.
Qed.

Lemma join_app (l1 l2 : list string) :
  l1 <> [] -> l2 <> [] ->
  join NL (l1 ++ l2) = join NL l1 +:+ NL +:+ join NL l2.
Proof.
  intros H1 H2. induction l1 as [|x l1 IH]; [congruence|].
  destruct l1 as [|y l1].
  - simpl app. apply join_cons, H2.
  - change ((x :: y :: l1) ++ l2) with (x :: ((y :: l1) ++ l2)).
    rewrite join_cons by discriminate.
    rewrite IH by discriminate.
    rewrite (join_cons x (y :: l1)) by discriminate.
    rewrite !app_assoc. reflexivity.
Qed.

(** Joining the joined groups gives the lines joined. *)
Lemma join_groups (groups : list (list string)) :
  Forall (fun g => g <> []) groups ->
  join NL (map (join NL) groups) = join NL (concat groups).
Proof.
  induction groups as [|g groups IH]; intros H; [reflexivity|].
  inversion H as [|? ? Hg Hgs]; subst.
  destruct groups as [|g' groups].
  - simpl. now rewrite List.app_nil_r.
  - change (map (join NL) (g :: g' :: groups))
      with (join NL g :: map (join NL) (g' :: groups)).
    rewrite join_cons by discriminate.
    rewrite IH by exact Hgs.
    change (concat (g :: g' :: groups)) with (g ++ concat (g' :: groups)).
    rewrite join_app; [reflexivity | exact Hg|].
    inversion Hgs as [|? ? Hg' _]; subst.
    simpl. destruct g'; [congruence | discriminate].
Qed.

(** The groups of lines behind a state of the loop whose current entry
    has a line. *)
Record grouped (is_new : string -> bool) (st : split_state)
    (groups : list (list string)) (cur : list string) : Prop := {
  grouped_state : st = (map (join NL) groups, cur);
  grouped_cur : cur <> [];
  grouped_groups : Forall (fun g => g <> []) groups;
  grouped_starts :
    Forall (fun g => is_new (hd EmptyString g) = true) (tail (groups ++ [cur]))
}.

Lemma tail_app_nonempty {A} (l1 l2 : list A) :
  l1 <> [] -> tail (l1 ++ l2) = tail l1 ++ l2.
Proof. destruct l1; [congruence | reflexivity]. Qed.

Lemma split_loop (is_new : string -> bool) (lines : list string) :
  forall st groups cur,
    grouped is_new st groups cur ->
    exists groups' cur',
      grouped is_new (foldl (split_step is_new) st lines) groups' cur'
      /\ concat groups' ++ cur' = concat groups ++ cur ++ lines
      /\ length groups' = (length groups + length (List.filter is_new lines))%nat.
Proof.
  induction lines as [|line lines IH]; intros st groups cur G.
  - exists groups, cur. simpl. rewrite List.app_nil_r.
    split; [exact G|]. split; [reflexivity | lia].
  - destruct G as [-> Hcur Hgroups Hstarts].
    cbn [foldl split_step].
    assert (Hlen : Nat.eqb (length cur) 0 = false)
      by (destruct cur; [congruence | reflexivity]).
    rewrite Hlen, andb_true_r.
    destruct (is_new line) eqn:Hnew.
    + destruct (IH (map (join NL) groups ++ [join NL cur], [line])
                   (groups ++ [cur]) [line]) as (groups' & cur' & G' & Hcat & Hn).
      { split.
        - rewrite map_app. reflexivity.
        - discriminate.
        - apply Forall_app. split; [exact Hgroups | repeat constructor; exact Hcur].
        - rewrite tail_app_nonempty by (destruct groups; discriminate).
          apply Forall_app. split; [exact Hstarts | repeat constructor; exact Hnew]. }
      exists groups', cur'. split; [exact G'|]. split.
      * rewrite Hcat, concat_app. simpl. rewrite List.app_nil_r, <- !List.app_assoc.
        reflexivity.
      * rewrite Hn, length_app. cbn [List.filter]. rewrite Hnew. simpl. lia.
    + destruct (IH (map (join NL) groups, cur ++ [line]) groups (cur ++ [line]))
        as (groups' & cur' & G' & Hcat & Hn).
      { split.
        - reflexivity.
        - destruct cur; discriminate.
        - exact Hgroups.
        - destruct groups as [|g groups]; [constructor|].
          simpl in *. apply Forall_app in Hstarts as [Hgs Hc].
          apply Forall_app. split; [exact Hgs|].
          inversion Hc as [|? ? Hh _]; subst. repeat constructor.
          destruct cur; [congruence | exact Hh]. }
      exists groups', cur'. split; [exact G'|]. split.
      * rewrite Hcat, <- !List.app_assoc. reflexivity.
      * rewrite Hn. cbn [List.filter]. rewrite Hnew. reflexivity.
Qed.

(** What either splitter does with the lines of a text: the entries are
    never none, joined by line feeds they give the text back, there is
    one entry more than there are lines after the first that start an
    entry, and each entry after the first starts with such a line. *)
Lemma split_lines_spec (is_new : string -> bool) (text : string) :
  let entries := split_lines is_new (split_on LF text) in
  entries <> []
  /\ join NL entries = text
  /\ length entries = S (length (List.filter is_new (tail (split_on LF text))))
  /\ Forall (fun e => is_new (first_line e) = true) (tail entries).
Proof.
  pose proof (split_on_not_nil text) as Hne.
  pose proof (split_on_lines text) as Hlines.
  pose proof (join_split_on text) as Hjoin.
  destruct (split_on LF text) as [|l0 lines]; [congruence|]. clear Hne.
  cbv zeta. unfold split_lines. cbn [foldl split_step length Nat.eqb].
  rewrite andb_false_r. cbn [app tail].
  destruct (split_loop is_new lines ([], [l0]) [] [l0])
    as (groups & cur & G & Hcat & Hn).
  { split; [reflexivity | discriminate | constructor | constructor]. }
  destruct G as [-> Hcur Hgroups Hstarts]. simpl in Hcat, Hn.
  assert (Hfin : split_finish (map (join NL) groups, cur)
                 = map (join NL) (groups ++ [cur])).
  { unfold split_finish. rewrite map_app. destruct cur; [congruence | reflexivity]. }
  rewrite Hfin.
  assert (Hall : Forall (fun g => g <> []) (groups ++ [cur]))
    by (apply Forall_app; split; [exact Hgroups | repeat constructor; exact Hcur]).
  split; [destruct groups; discriminate|].
  split; [|split].
  - rewrite join_groups by exact Hall.
    rewrite concat_app. simpl. rewrite List.app_nil_r, Hcat. exact Hjoin.
  - rewrite length_map, length_app, Hn. simpl. lia.
  - assert (Hone : Forall (fun g => Forall (fun l => one_line l = true) g)
                          (groups ++ [cur])).
    { apply List.Forall_forall. intros g Hg. apply List.Forall_forall. intros l Hl.
      rewrite List.Forall_forall in Hlines. apply Hlines.
      rewrite <- Hcat.
      replace (concat groups ++ cur) with (concat (groups ++ [cur]))
        by (rewrite concat_app; simpl; now rewrite List.app_nil_r).
      apply in_concat. exists g. split; assumption. }
    destruct (groups ++ [cur]) as [|g0 gs]; [constructor|].
    simpl in *. inversion Hone as [|? ? _ Hones]; subst.
    clear - Hstarts Hones. induction gs as [|g gs IH]; [constructor|].
    inversion Hstarts; inversion Hones; subst.
    constructor; [|apply IH; assumption].
    rewrite first_line_join by assumption. assumption.
Qed.

(** X20.  [_split_education_entries] loses nothing: it always returns at
    least one entry, the entries joined by line feeds are the text, and
    there is one entry more than there are lines after the first that
    name a degree. *)
Theorem split_education_entries_round_trip (text : string) :
  _split_education_entries text <> []
  /\ join NL (_split_education_entries text) = text
  /\ length (_split_education_entries text)
     = S (length (List.filter starts_degree (tail (split_on LF text)))).
Proof.
  destruct (split_lines_spec starts_degree text) as (Hne & Hjoin & Hlen & _).
  unfold _split_education_entries. fold LF.
  destruct (split_lines starts_degree (split_on LF text)) as [|e es];
    [congruence|].
  repeat split; [discriminate | exact Hjoin | exact Hlen].
Qed.

(** X21.  Every entry of [_split_education_entries] after the first starts
    with a line that names a degree. *)
Theorem split_education_entries_start_with_degree (text entry : string) :
  In entry (tail (_split_education_entries text)) ->
  starts_degree (first_line entry) = true.
Proof.
  destruct (split_lines_spec starts_degree text) as (Hne & _ & _ & Hstarts).
  unfold _split_education_entries. fold LF.
  destruct (split_lines starts_degree (split_on LF text)) as [|e es];
    [congruence|].
  rewrite List.Forall_forall in Hstarts. apply Hstarts.
Qed.

Lemma split_education_entries_start_with_degree_witness :
  In "Master of Arts, Yale"
     (tail (_split_education_entries
              ("B.S. Physics, MIT" +:+ NL +:+ "Master of Arts, Yale")))
  /\ starts_degree (first_line "Master of Arts, Yale") = true.
Proof.
  assert (H : In "Master of Arts, Yale"
                 (tail (_split_education_entries
                          ("B.S. Physics, MIT" +:+ NL +:+ "Master of Arts, Yale"))))
    by (vm_compute; left; reflexivity).
  split; [exact H|].
  exact (split_education_entries_start_with_degree _ _ H).
Defined.

(** X22.  [_split_job_entries] loses nothing: it always returns at least one
    entry, the entries joined by line feeds are the text, and there is
    one entry more than there are lines after the first that start a
    job. *)
Theorem split_job_entries_round_trip (text : string) :
  _split_job_entries text <> []
  /\ join NL (_split_job_entries text) = text
  /\ length (_split_job_entries text)
     = S (length (List.filter starts_job (tail (split_on LF text)))).
Proof.
  destruct (split_lines_spec starts_job text) as (Hne & Hjoin & Hlen & _).
  unfold _split_job_entries. fold LF.
  repeat split; [exact Hne | exact Hjoin | exact Hlen].
Qed.

(** X23.  Every entry of [_split_job_entries] after the first starts with a
    line that opens with a date or names a job title or a company. *)
Theorem split_job_entries_start_a_job (text entry : string) :
  In entry (tail (_split_job_entries text)) ->
  starts_job (first_line entry) = true.
Proof.
  destruct (split_lines_spec starts_job text) as (_ & _ & _ & Hstarts).
  unfold _split_job_entries. fold LF.
  rewrite List.Forall_forall in Hstarts. apply Hstarts.
Qed.

Lemma split_job_entries_start_a_job_witness :
  In "06/2019 Initech"
     (tail (_split_job_entries ("Acme Inc" +:+ NL +:+ "06/2019 Initech")))
  /\ starts_job (first_line "06/2019 Initech") = true.
Proof.
  assert (H : In "06/2019 Initech"
                 (tail (_split_job_entries
                          ("Acme Inc" +:+ NL +:+ "06/2019 Initech"))))
    by (vm_compute; left; reflexivity).
  split; [exact H|].
  exact (split_job_entries_start_a_job _ _ H).
Defined.

End EntriesFacts.
(* ===================================================================== *)
(** * The segmenter, line by line                                         *)
(* ===================================================================== *)

Module SegmenterLines.
Import PyStr PyStrFacts ResumeParser SegmenterFacts SectionLines EntriesFacts.
Import PreprocessingText (LF).

#[local] Arguments String.append !s1 s2 : simpl nomatch.
#[local] Arguments Ascii.eqb : simpl never.

(** ** Texts and their lines *)

Lemma split_on_one (x : string) : one_line x = true -> split_on LF x = [x].
Proof.
  induction x as [|c x IH]; intros H; [reflexivity|].
  simpl in H. apply andb_prop in H as [Hc Hx]. apply negb_true_iff in Hc.
  cbn [split_on]. fold LF. rewrite Hc, (IH Hx). reflexivity.
Qed.

Lemma split_on_line_app (x s : string) :
  one_line x = true -> split_on LF (x +:+ NL +:+ s) = x :: split_on LF s.
Proof.
  induction x as [|c x IH]; intros H.
  - reflexivity.
  - simpl in H. apply andb_prop in H as [Hc Hx]. apply negb_true_iff in Hc.
    change ((String c x) +:+ NL +:+ s) with (String c (x +:+ NL +:+ s)).
    cbn [split_on]. fold LF. rewrite Hc, (IH Hx). reflexivity.
Qed.

Lemma split_on_join (lines : list string) :
  lines <> [] -> Forall (fun l => one_line l = true) lines ->
  split_on LF (join NL lines) = lines.
Proof.
  induction lines as [|x lines IH]; intros Hne Hall; [congruence|].
  inversion Hall as [|? ? Hx Hrest]; subst.
  destruct lines as [|y lines].
  - simpl. apply split_on_one, Hx.
  - rewrite join_cons by discriminate.
    rewrite split_on_line_app by exact Hx.
    rewrite IH by (discriminate || exact Hrest). reflexivity.
Qed.

(** The mapping after the loop over [lines] and the last save. *)
Definition mapping_of (lines : list string) : section_map :=
  sections (save_section (foldl scan_line scan_start lines)).

Lemma detect_sections_lines (text : string) :
  detect_sections text = mapping_of (split_on LF text).
Proof. reflexivity. Qed.

Lemma detect_sections_join (lines : list string) :
  Forall (fun l => one_line l = true) lines ->
  detect_sections (join NL lines) = mapping_of lines.
Proof.
  intros Hall. rewrite detect_sections_lines.
  destruct lines as [|x lines]; [reflexivity|].
  rewrite split_on_join by (discriminate || exact Hall). reflexivity.
Qed.

Lemma Forall_app_l {A} (P : A -> Prop) (l1 l2 : list A) :
  Forall P (l1 ++ l2) -> Forall P l1.
Proof. intros H. apply Forall_app in H. tauto. Qed.

Lemma Forall_app_r {A} (P : A -> Prop) (l1 l2 : list A) :
  Forall P (l1 ++ l2) -> Forall P l2.
Proof. intros H. apply Forall_app in H. tauto. Qed.

(** ** One round of the loop, by the kind of the line *)

Lemma scan_line_blank (st : scan) (line : string) :
  is_blank line = true ->
  scan_line st line
  = match current_content st with
    | [] => st
    | _ => Scan (sections st) (current_section st)
                (current_content st ++ [EmptyString]) (saves st)
    end.
Proof. unfold is_blank, scan_line. intros ->. reflexivity. Qed.

Lemma scan_line_header (st : scan) (line : string) (kind : SectionType) :
  header_of line = Some kind ->
  scan_line st line
  = Scan (sections (save_section st)) kind [] (saves (save_section st)).
Proof.
  unfold header_of, is_blank, scan_line.
  destruct (negb (nonempty (strip line))); [discriminate|].
  intros ->. reflexivity.
Qed.

Lemma scan_line_text (st : scan) (line : string) :
  is_blank line = false -> header_kind line = None ->
  scan_line st line
  = Scan (sections st) (current_section st) (current_content st ++ [line])
         (saves st).
Proof. unfold is_blank, scan_line. intros -> ->. reflexivity. Qed.

Lemma not_header_cases (line : string) :
  header_of line = None ->
  is_blank line = true \/ (is_blank line = false /\ header_kind line = None).
Proof.
  unfold header_of. destruct (is_blank line); [left; reflexivity|].
  intros H. right. split; [reflexivity | exact H].
Qed.

Lemma is_header_false (line : string) :
  is_header line = false -> header_of line = None.
Proof. unfold is_header. destruct (header_of line); [discriminate | reflexivity]. Qed.

Lemma is_header_true (line : string) :
  is_header line = true -> exists kind, header_of line = Some kind.
Proof.
  unfold is_header. destruct (header_of line) as [k|]; [|discriminate].
  intros _. exists k. reflexivity.
Qed.

Lemma save_section_current (st : scan) :
  current_section (save_section st) = current_section st.
Proof.
  unfold save_section. destruct (current_content st); [reflexivity|].
  destruct (nonempty _); reflexivity.
Qed.




(** ** What a save assigns *)

Lemma save_section_other (st : scan) (kind : SectionType) :
  current_section st <> kind ->
  dict_get (sections (save_section st)) kind = dict_get (sections st) kind.
Proof.
  intros Hne. unfold save_section.
  destruct (current_content st); [reflexivity|].
  destruct (nonempty _); [|reflexivity].
  cbn [sections]. rewrite dict_get_set.
  destruct (decide (current_section st = kind)); [contradiction | reflexivity].
Qed.

Lemma save_section_content (st : scan) (l : string) :
  In l (current_content st) -> is_blank l = false ->
  sections (save_section st)
  = dict_set (sections st) (current_section st)
             (strip (join NL (current_content st)))
  /\ substring (strip l) (strip (join NL (current_content st)))
  /\ strip (join NL (current_content st)) <> EmptyString.
Proof.
  intros Hin Hl.
  assert (Hne : strip l <> EmptyString).
  { apply nonempty_true. unfold is_blank in Hl.
    apply negb_false_iff in Hl. exact Hl. }
  destruct (strip_join_covers NL l (current_content st) Hin Hne)
    as [Hsub Hcontent].
  split; [|split; assumption].
  unfold save_section.
  destruct (current_content st) as [|x cc] eqn:E; [destruct Hin|].
  apply nonempty_true in Hcontent. rewrite Hcontent. reflexivity.
Qed.

(** Away from the section [kind], and with no header of that kind to
    come, the content under [kind] stays as it is. *)
Lemma scan_lines_other (kind : SectionType) (lines : list string) :
  forallb (fun l => negb (is_header_of kind l)) lines = true ->
  forall st,
    current_section st <> kind ->
    current_section (foldl scan_line st lines) <> kind
    /\ dict_get (sections (foldl scan_line st lines)) kind
       = dict_get (sections st) kind.
Proof.
  induction lines as [|line lines IH]; intros Hno st Hcur;
    [split; [exact Hcur | reflexivity]|].
  cbn [forallb] in Hno. apply andb_prop in Hno as [Hline Hno].
  apply negb_true_iff in Hline. unfold is_header_of in Hline.
  apply bool_decide_eq_false in Hline.
  cbn [foldl].
  assert (Hstep : current_section (scan_line st line) <> kind
                  /\ dict_get (sections (scan_line st line)) kind
                     = dict_get (sections st) kind).
  { destruct (header_of line) as [k|] eqn:E.
    - rewrite (scan_line_header _ _ _ E). cbn [current_section sections].
      split; [congruence | apply save_section_other, Hcur].
    - destruct (not_header_cases _ E) as [Hb|[Hb Hk]].
      + rewrite scan_line_blank by exact Hb.
        destruct (current_content st); split; (exact Hcur || reflexivity).
      + rewrite scan_line_text by assumption.
        split; [exact Hcur | reflexivity]. }
  destruct Hstep as [Hcur' Hget].
  destruct (IH Hno _ Hcur') as [Hcur'' Hget'].
  split; [exact Hcur''|]. rewrite Hget', Hget. reflexivity.
Qed.

(** ** A line with text stays in the mapping *)







(** ** The lines under a header *)

Lemma scan_lines_more (body : list string) (st : scan) :
  forallb (fun l => negb (is_header l)) body = true ->
  current_content st <> [] ->
  foldl scan_line st body
  = Scan (sections st) (current_section st)
         (current_content st
          ++ map (fun l => if is_blank l then EmptyString else l) body)
         (saves st).
Proof.
  revert st. induction body as [|line body IH]; intros st Hno Hcc.
  - simpl. rewrite List.app_nil_r. destruct st; reflexivity.
  - cbn [forallb] in Hno. apply andb_prop in Hno as [Hline Hno].
    apply negb_true_iff in Hline. apply is_header_false in Hline.
    cbn [foldl map].
    destruct (not_header_cases _ Hline) as [Hb|[Hb Hk]].
    + rewrite scan_line_blank by exact Hb. rewrite Hb.
      destruct (current_content st) as [|x cc] eqn:Ecc; [congruence|].
      rewrite IH by (exact Hno || (cbn [current_content]; discriminate)).
      cbn [sections current_section current_content saves].
      rewrite <- List.app_assoc. reflexivity.
    + rewrite scan_line_text by assumption. rewrite Hb.
      rewrite IH
        by (exact Hno
            || (cbn [current_content]; destruct (current_content st);
                discriminate)).
      cbn [sections current_section current_content saves].
      rewrite <- List.app_assoc. reflexivity.
Qed.

Lemma scan_lines_block (body : list string) (st : scan) :
  forallb (fun l => negb (is_header l)) body = true ->
  current_content st = [] ->
  foldl scan_line st body
  = Scan (sections st) (current_section st) (block_lines body) (saves st).
Proof.
  revert st. induction body as [|line body IH]; intros st Hno Hcc.
  - simpl. rewrite <- Hcc. destruct st; reflexivity.
  - cbn [forallb] in Hno. apply andb_prop in Hno as [Hline Hno].
    apply negb_true_iff in Hline. apply is_header_false in Hline.
    cbn [foldl block_lines].
    destruct (not_header_cases _ Hline) as [Hb|[Hb Hk]].
    + rewrite scan_line_blank by exact Hb. rewrite Hb, Hcc.
      apply IH; assumption.
    + rewrite scan_line_text by assumption. rewrite Hb, Hcc.
      rewrite scan_lines_more
        by (exact Hno || (cbn [current_content]; discriminate)).
      reflexivity.
Qed.

Lemma block_lines_text (body : list string) :
  has_text body = true ->
  exists l rest, block_lines body = l :: rest /\ is_blank l = false.
Proof.
  induction body as [|line body IH]; [discriminate|].
  unfold has_text. cbn [existsb block_lines].
  destruct (is_blank line) eqn:Hb.
  - cbn [negb orb]. exact IH.
  - intros _. eexists _, _. split; [reflexivity | exact Hb].
Qed.

Lemma block_lines_blank (body : list string) :
  has_text body = false -> block_lines body = [].
Proof.
  induction body as [|line body IH]; [reflexivity|].
  unfold has_text. cbn [existsb block_lines].
  destruct (is_blank line); [exact IH | discriminate].
Qed.

Lemma blank_not_header (body : list string) :
  has_text body = false ->
  forallb (fun l => negb (is_header l)) body = true.
Proof.
  induction body as [|line body IH]; [reflexivity|].
  unfold has_text. cbn [existsb forallb].
  destruct (is_blank line) eqn:Hb; [|discriminate].
  cbn [negb orb]. intros H. rewrite (IH H), andb_true_r.
  unfold is_header, header_of. rewrite Hb. reflexivity.
Qed.

(** The state after a header line. *)
Lemma after_header (pre : list string) (h : string) (kind : SectionType) :
  header_of h = Some kind ->
  foldl scan_line scan_start (pre ++ [h])
  = Scan (mapping_of pre) kind []
         (saves (save_section (foldl scan_line scan_start pre))).
Proof.
  intros Hh. rewrite foldl_app. cbn [foldl].
  rewrite (scan_line_header _ _ _ Hh). reflexivity.
Qed.

Lemma save_section_empty (st : scan) :
  current_content st = [] -> save_section st = st.
Proof. unfold save_section. intros ->. reflexivity. Qed.

Lemma lines_of_text (text : string) (lines : list string) :
  split_on LF text = lines -> Forall (fun l => one_line l = true) lines.
Proof. intros <-. apply split_on_lines. Qed.



(** ** The last occurrence of a section kind *)

Lemma mapping_of_occurrence (pre body post : list string) (h : string)
    (kind : SectionType) :
  header_of h = Some kind ->
  forallb (fun l => negb (is_header l)) body = true ->
  at_header post = true ->
  has_text body = true ->
  forallb (fun l => negb (is_header_of kind l)) post = true ->
  dict_get (mapping_of (pre ++ h :: body ++ post)) kind
  = Some (content_of body)
  /\ content_of body <> EmptyString.
Proof.
  intros Hh Hbody Hat Htext Hno.
  destruct (block_lines_text body Htext) as (l & ls & Hblock & Hl).
  set (after := foldl scan_line scan_start ((pre ++ [h]) ++ body)).
  assert (Hafter : after
                   = Scan (mapping_of pre) kind (block_lines body)
                          (saves (save_section
                                    (foldl scan_line scan_start pre)))).
  { unfold after. rewrite foldl_app, (after_header _ _ _ Hh).
    rewrite scan_lines_block by (exact Hbody || reflexivity). reflexivity. }
  assert (Hin : In l (current_content after))
    by (rewrite Hafter; cbn [current_content]; rewrite Hblock; left;
        reflexivity).
  destruct (save_section_content after l Hin Hl) as (Hsec & _ & Hne).
  assert (Hcontent : strip (join NL (current_content after)) = content_of body)
    by (rewrite Hafter; reflexivity).
  rewrite Hcontent in Hsec, Hne.
  assert (Hcur : current_section after = kind) by (rewrite Hafter; reflexivity).
  assert (Hsaved : dict_get (sections (save_section after)) kind
                   = Some (content_of body)).
  { rewrite Hsec, dict_get_set, Hcur.
    destruct (decide (kind = kind)); congruence. }
  split; [|exact Hne].
  unfold mapping_of.
  replace (pre ++ h :: body ++ post) with (((pre ++ [h]) ++ body) ++ post)
    by (rewrite <- !List.app_assoc; reflexivity).
  rewrite foldl_app. fold after.
  destruct post as [|h' rest]; [exact Hsaved|].
  cbn [at_header] in Hat. apply is_header_true in Hat as [k' Hh'].
  cbn [forallb] in Hno. apply andb_prop in Hno as [Hfirst Hno].
  apply negb_true_iff in Hfirst. unfold is_header_of in Hfirst.
  apply bool_decide_eq_false in Hfirst.
  cbn [foldl]. rewrite (scan_line_header _ _ _ Hh').
  set (st := Scan (sections (save_section after)) k' []
                  (saves (save_section after))).
  assert (Hst : current_section st <> kind) by (unfold st; simpl; congruence).
  destruct (scan_lines_other kind rest Hno st Hst) as [Hcur' Hget].
  rewrite save_section_other by exact Hcur'.
  rewrite Hget. exact Hsaved.
Qed.

Lemma mapping_of_empty_occurrence (pre body post : list string) (h : string)
    (kind : SectionType) :
  header_of h = Some kind ->
  at_header post = true ->
  has_text body = false ->
  mapping_of (pre ++ h :: body ++ post) = mapping_of (pre ++ post).
Proof.
  intros Hh Hat Hblank.
  set (after := foldl scan_line scan_start ((pre ++ [h]) ++ body)).
  assert (Hafter : after
                   = Scan (mapping_of pre) kind []
                          (saves (save_section
                                    (foldl scan_line scan_start pre)))).
  { unfold after. rewrite foldl_app, (after_header _ _ _ Hh).
    rewrite scan_lines_block
      by (apply blank_not_header, Hblank || reflexivity).
    rewrite block_lines_blank by exact Hblank. reflexivity. }
  unfold mapping_of at 1.
  replace (pre ++ h :: body ++ post) with (((pre ++ [h]) ++ body) ++ post)
    by (rewrite <- !List.app_assoc; reflexivity).
  rewrite foldl_app. fold after.
  destruct post as [|h' rest].
  - rewrite List.app_nil_r. cbn [foldl]. rewrite Hafter.
    rewrite (save_section_empty (Scan _ _ [] _)) by reflexivity.
    reflexivity.
  - cbn [at_header] in Hat. apply is_header_true in Hat as [k' Hh'].
    unfold mapping_of. rewrite foldl_app. cbn [foldl].
    rewrite !(scan_line_header _ _ _ Hh'). rewrite Hafter.
    rewrite (save_section_empty (Scan _ _ [] _)) by reflexivity.
    reflexivity.
Qed.

(** C7, as the code has it.  Take an occurrence of a section kind in
    the text: a header of that kind and the lines under it, up to the
    next header or the end.  When some line under the header has text
    and no later line is a header of the same kind, the returned mapping
    holds under that kind the content of this occurrence alone (its
    lines as the loop collects them, joined and stripped), whatever an
    earlier occurrence of the kind held: nothing is merged.  When no
    line under the header has text, the occurrence is not saved: the
    returned mapping is the same as for the text without the header and
    the lines under it, so an earlier content of the kind stays. *)
Theorem detect_sections_last_occurrence_wins (text : string)
    (pre body post : list string) (h : string) (kind : SectionType) :
  split_on (ascii_of_nat 10) text = pre ++ h :: body ++ post ->
  header_of h = Some kind ->
  forallb (fun l => negb (is_header l)) body = true ->
  at_header post = true ->
  (has_text body = true ->
   forallb (fun l => negb (is_header_of kind l)) post = true ->
   dict_get (detect_sections text) kind = Some (content_of body)
   /\ content_of body <> EmptyString)
  /\ (has_text body = false ->
      detect_sections text = detect_sections (join NL (pre ++ post))).
Proof.
  intros Hsplit Hh Hbody Hat. fold LF in Hsplit.
  pose proof (lines_of_text _ _ Hsplit) as Hlines.
  split.
  - intros Htext Hno. rewrite detect_sections_lines, Hsplit.
    apply mapping_of_occurrence; assumption.
  - intros Hblank. rewrite detect_sections_lines, Hsplit.
    rewrite detect_sections_join.
    + apply (mapping_of_empty_occurrence _ _ _ _ kind); assumption.
    + apply Forall_app. split; [apply (Forall_app_l _ _ _ Hlines)|].
      apply Forall_app_r in Hlines.
      inversion Hlines as [|? ? _ Hrest]; subst.
      apply (Forall_app_r _ _ _ Hrest).
Qed.

Lemma detect_sections_last_occurrence_wins_witness :
  content_of ["Go"] = "Go"
  /\ dict_get (detect_sections Examples.skills_twice) SKILLS
     = Some (content_of ["Go"])
  /\ detect_sections Examples.skills_twice_empty
     = detect_sections (join NL (["Skills"; "Python"] ++ [])).
Proof.
  split; [vm_compute; reflexivity|]. split.
  - assert (Hsplit : split_on (ascii_of_nat 10) Examples.skills_twice
                     = ["Skills"; "Python"] ++ "Skills" :: ["Go"] ++ [])
      by (vm_compute; reflexivity).
    assert (Hh : header_of "Skills" = Some SKILLS) by (vm_compute; reflexivity).
    assert (Hbody : forallb (fun l => negb (is_header l)) ["Go"] = true)
      by (vm_compute; reflexivity).
    exact (proj1 (proj1 (detect_sections_last_occurrence_wins
                           _ _ _ _ _ _ Hsplit Hh Hbody eq_refl)
                        eq_refl eq_refl)).
  - assert (Hsplit : split_on (ascii_of_nat 10) Examples.skills_twice_empty
                     = ["Skills"; "Python"] ++ "Skills" :: [] ++ [])
      by (vm_compute; reflexivity).
    assert (Hh : header_of "Skills" = Some SKILLS) by (vm_compute; reflexivity).
    exact (proj2 (detect_sections_last_occurrence_wins
                    _ _ _ _ _ _ Hsplit Hh eq_refl eq_refl) eq_refl).
Defined.

End SegmenterLines.
(* ===================================================================== *)
(** * Further properties of the coverage and of the classifier            *)
(* ===================================================================== *)

Module MatcherMore.
Import PyStr Preprocessing Records SemanticMatcher Shapes.

Lemma pos_of_nat_Z (n : nat) : n <> 0%nat -> Z.pos (Pos.of_nat n) = Z.of_nat n.
Proof.
  intros Hn. rewrite <- (Nat2Pos.id n Hn) at 2.
  symmetry. apply positive_nat_Z.
Qed.

Lemma ratio_bounds (a b : nat) :
  (a <= b)%nat -> b <> 0%nat -> (0 <= ratio a b)%Q /\ (ratio a b <= 1)%Q.
Proof.
  intros Hab Hb. unfold ratio, Qle. simpl.
  rewrite pos_of_nat_Z by exact Hb. lia.
Qed.

Lemma ratio_one (a b : nat) :
  (a <= b)%nat -> b <> 0%nat -> (ratio a b == 1)%Q <-> a = b.
Proof.
  intros Hab Hb. unfold ratio, Qeq. simpl.
  rewrite pos_of_nat_Z by exact Hb. lia.
Qed.

(** What a returning call of [compute_skill_coverage] computed. *)
Lemma coverage_steps (job_data resume_data : pydict) (q : Q) :
  compute_skill_coverage job_data resume_data = inr q ->
  exists items lowered,
    py_iter (py_get job_data "required_skills" (PList [])) = inr items
    /\ mapM py_lower items = inr lowered
    /\ q = if bool_decide (list_to_set lowered = (∅ : gset string)) then 0%Q
           else ratio (size ((list_to_set lowered : gset string)
                             ∩ resume_skill_set resume_data))
                      (size (list_to_set lowered : gset string)).
Proof.
  unfold compute_skill_coverage. intros H.
  apply RuleBasedFacts.bind_inr in H as (items & Hitems & H).
  apply RuleBasedFacts.bind_inr in H as (lowered & Hlowered & H).
  exists items, lowered. split; [exact Hitems|]. split; [exact Hlowered|].
  destruct (bool_decide _); unfold ret in H; congruence.
Qed.

(** X7.  Whenever [compute_skill_coverage] returns, the coverage is between 0
    and 1, and it is 1 exactly when the required skills are not empty and
    each of them, lowercased, is one of the normalised resume skills. *)
Theorem coverage_between_zero_and_one (job_data resume_data : pydict) (q : Q) :
  compute_skill_coverage job_data resume_data = inr q ->
  (0 <= q)%Q /\ (q <= 1)%Q
  /\ exists lowered,
       (let* items := py_iter (py_get job_data "required_skills" (PList [])) in
        mapM py_lower items) = inr lowered
       /\ ((q == 1)%Q
           <-> lowered <> []
               /\ forall s, In s lowered -> s ∈ resume_skill_set resume_data).
Proof.
  intros H. destruct (coverage_steps _ _ _ H) as (items & lowered & Hi & Hl & Hq).
  set (required := list_to_set lowered : gset string) in *.
  set (rs := resume_skill_set resume_data) in *.
  assert (Hsub : (size (required ∩ rs) <= size required)%nat)
    by (apply subseteq_size; set_solver).
  assert (Hmem : forall s, In s lowered <-> s ∈ required)
    by (intros s; unfold required; rewrite elem_of_list_to_set, list_elem_of_In;
        reflexivity).
  destruct (bool_decide (required = ∅)) eqn:Hempty.
  - apply bool_decide_eq_true in Hempty. subst q.
    repeat split; try (unfold Qle; simpl; lia).
    exists lowered. rewrite Hi. simpl. split; [exact Hl|].
    split; [intros Hone; vm_compute in Hone; discriminate Hone|].
    intros [Hne _]. destruct lowered as [|x l]; [congruence|].
    assert (x ∈ required) by (apply Hmem; left; reflexivity).
    rewrite Hempty in *. set_solver.
  - apply bool_decide_eq_false in Hempty.
    assert (Hsize : size required <> 0%nat)
      by (intros Hz; apply size_empty_iff in Hz; apply Hempty;
          apply leibniz_equiv; exact Hz).
    destruct (ratio_bounds _ _ Hsub Hsize) as [H0 H1]. subst q.
    repeat split; try assumption.
    exists lowered. rewrite Hi. simpl. split; [exact Hl|].
    rewrite (ratio_one _ _ Hsub Hsize). split.
    + intros Heq. split.
      * intros ->. apply Hempty. reflexivity.
      * intros s Hs. apply Hmem in Hs.
        assert (Hset : required ∩ rs ≡ required).
        { apply set_subseteq_size_equiv; [set_solver | lia]. }
        set_solver.
    + intros [_ Hall]. f_equal. apply leibniz_equiv.
      intros s. split; [set_solver|]. intros Hs.
      apply elem_of_intersection. split; [exact Hs|].
      apply Hall, Hmem, Hs.
Qed.

Lemma coverage_between_zero_and_one_witness :
  compute_skill_coverage Samples.job_two_skills Samples.resume_one_skill
  = inr (1 # 2)%Q
  /\ (0 <= 1 # 2)%Q /\ (1 # 2 <= 1)%Q.
Proof.
  assert (E : compute_skill_coverage Samples.job_two_skills
                Samples.resume_one_skill = inr (1 # 2)%Q)
    by (vm_compute; reflexivity).
  split; [exact E|].
  destruct (coverage_between_zero_and_one _ _ _ E) as (H0 & H1 & _).
  split; assumption.
Defined.

Lemma mapM_lower_non_string (items : list pyval) :
  existsb (fun v => negb (is_str v)) items = true ->
  exists msg, mapM py_lower items = inl (AttributeError msg).
Proof.
  induction items as [|v items IH]; simpl; intros H; [discriminate|].
  destruct v; simpl; try (eexists; reflexivity).
  simpl in H. destruct (IH H) as [msg ->]. eexists. reflexivity.
Qed.

(** X8.  A required skill that is not a string makes
    [compute_skill_coverage] raise AttributeError, where
    [RuleBasedScorer.score] reads the same field and passes the entry
    over. *)
Theorem coverage_raises_on_non_string_skill (job_data resume_data : pydict)
    (items : list pyval) :
  py_get job_data "required_skills" (PList []) = PList items ->
  existsb (fun v => negb (is_str v)) items = true ->
  (exists msg,
      compute_skill_coverage job_data resume_data = inl (AttributeError msg))
  /\ normalized_field job_data "required_skills"
     = inr (normalize_skill_set items).
Proof.
  intros Hget Hbad. unfold compute_skill_coverage, normalized_field.
  rewrite Hget. simpl.
  destruct (mapM_lower_non_string _ Hbad) as [msg ->].
  split; [exists msg|]; reflexivity.
Qed.

Lemma coverage_raises_on_non_string_skill_witness :
  compute_skill_coverage Samples.job_mixed Samples.resume_mixed
  = inl (AttributeError "'int' object has no attribute 'lower'")
  /\ exists msg,
       compute_skill_coverage Samples.job_mixed Samples.resume_mixed
       = inl (AttributeError msg).
Proof.
  split; [reflexivity|].
  apply (coverage_raises_on_non_string_skill Samples.job_mixed
           Samples.resume_mixed [PStr "Python"; PInt 1; PStr "  "]);
    reflexivity.
Defined.

End MatcherMore.

Module ScorerMore.
Import ResumeScorer Labels.

Lemma Qle_bool_false (x y : Q) : Qle_bool x y = false -> (y < x)%Q.
Proof.
  intros H. apply Qnot_le_lt. intros Hle.
  apply Qle_bool_iff in Hle. congruence.
Qed.

(** X9.  A higher score never gets a lower label, whatever the thresholds. *)
Theorem classify_is_monotone (self : t) (s1 s2 : Q) :
  (s1 <= s2)%Q ->
  (rank (classify self s1) <= rank (classify self s2))%nat.
Proof.
  intros Hle. unfold classify.
  destruct (Qle_bool (suitable_threshold self) s1) eqn:H1.
  - apply Qle_bool_iff in H1.
    assert (H2 : Qle_bool (suitable_threshold self) s2 = true)
      by (apply Qle_bool_iff; eapply Qle_trans; eassumption).
    rewrite H2. reflexivity.
  - destruct (Qle_bool (maybe_threshold self) s1) eqn:Hm1.
    + apply Qle_bool_iff in Hm1.
      assert (Hm2 : Qle_bool (maybe_threshold self) s2 = true)
        by (apply Qle_bool_iff; eapply Qle_trans; eassumption).
      rewrite Hm2.
      destruct (Qle_bool (suitable_threshold self) s2); vm_compute; lia.
    + unfold rank at 1. simpl. lia.
Qed.

Lemma classify_is_monotone_witness :
  classify default (1 # 2) = "Maybe Suitable"
  /\ classify default (9 # 10) = "Suitable"
  /\ (rank (classify default (1 # 2)) <= rank (classify default (9 # 10)))%nat.
Proof.
  split; [reflexivity|]. split; [reflexivity|].
  apply (classify_is_monotone default (1 # 2) (9 # 10)).
  unfold Qle. simpl. lia.
Defined.

(** X10.  With a maybe threshold at or above the suitable threshold no score is
    labelled "Maybe Suitable": the first test takes every score that the
    second would. *)
Theorem classify_without_middle_band (self : t) (s : Q) :
  (suitable_threshold self <= maybe_threshold self)%Q ->
  classify self s = "Suitable" \/ classify self s = "Not Suitable".
Proof.
  intros Horder. unfold classify.
  destruct (Qle_bool (suitable_threshold self) s) eqn:Hs; [left; reflexivity|].
  destruct (Qle_bool (maybe_threshold self) s) eqn:Hm; [|right; reflexivity].
  apply Qle_bool_iff in Hm. apply Qle_bool_false in Hs.
  exfalso. apply (Qlt_not_le _ _ Hs). eapply Qle_trans; eassumption.
Qed.

Lemma classify_without_middle_band_witness :
  classify (Make (5 # 10) (8 # 10)) (6 # 10) = "Suitable"
  /\ (classify (Make (5 # 10) (8 # 10)) (4 # 10) = "Suitable"
      \/ classify (Make (5 # 10) (8 # 10)) (4 # 10) = "Not Suitable").
Proof.
  split; [reflexivity|].
  apply (classify_without_middle_band (Make (5 # 10) (8 # 10)) (4 # 10)).
  unfold Qle. simpl. lia.
Defined.

End ScorerMore.
(* ===================================================================== *)
(** * Further properties of the skill normaliser                          *)
(* ===================================================================== *)

Module PreprocessingMore.
Import PyStr PyStrFacts Preprocessing Tidy.

#[local] Arguments String.append !s1 s2 : simpl nomatch.
#[local] Arguments py_isspace : simpl never.
#[local] Arguments py_isupper_char : simpl never.
#[local] Arguments py_lower_char : simpl never.
#[local] Arguments skill_char : simpl never.
#[local] Arguments Ascii.eqb : simpl never.

(** ** Characters *)

Lemma lower_char_not_upper (c : ascii) :
  py_isupper_char (py_lower_char c) = false.
Proof. destruct c as [[] [] [] [] [] [] [] []]; vm_compute; reflexivity. Qed.

Lemma lower_char_skill (c : ascii) :
  negb (Ascii.eqb c "(") = true -> skill_char (py_lower_char c)
  = negb (Ascii.eqb c "/" || Ascii.eqb c "-")%bool.
Proof. destruct c as [[] [] [] [] [] [] [] []]; vm_compute; congruence. Qed.

Lemma lower_char_fixed (c : ascii) :
  py_isupper_char c = false -> py_lower_char c = c.
Proof. unfold py_lower_char. intros ->. reflexivity. Qed.

Lemma space_is_skill_char (c : ascii) :
  py_isspace c = true -> skill_char c = true.
Proof. destruct c as [[] [] [] [] [] [] [] []]; vm_compute; congruence. Qed.

(** ** [all_chars] through the string operations *)

Lemma all_chars_weaken (p q : ascii -> bool) (s : string) :
  (forall c, p c = true -> q c = true) ->
  all_chars p s = true -> all_chars q s = true.
Proof.
  intros Hpq. induction s as [|c s IH]; simpl; [reflexivity|].
  intros H. apply andb_prop in H as [Hc Hs].
  rewrite (Hpq _ Hc), (IH Hs). reflexivity.
Qed.

Lemma all_chars_lstrip (p : ascii -> bool) (s : string) :
  all_chars p s = true -> all_chars p (lstrip s) = true.
Proof.
  induction s as [|c s IH]; simpl; [reflexivity|].
  intros H. destruct (py_isspace c); [|exact H].
  apply andb_prop in H as [_ Hs]. auto.
Qed.

Lemma all_chars_rstrip (p : ascii -> bool) (s : string) :
  all_chars p s = true -> all_chars p (rstrip s) = true.
Proof.
  induction s as [|c s IH]; simpl; [reflexivity|].
  intros H. apply andb_prop in H as [Hc Hs]. specialize (IH Hs).
  destruct (rstrip s).
  - destruct (py_isspace c); simpl; [reflexivity | now rewrite Hc].
  - simpl in *. now rewrite Hc, IH.
Qed.

Lemma all_chars_strip (p : ascii -> bool) (s : string) :
  all_chars p s = true -> all_chars p (strip s) = true.
Proof. intros H. apply all_chars_lstrip, all_chars_rstrip, H. Qed.

Lemma split_on_nonempty (sep : ascii) (s : string) : split_on sep s <> [].
Proof.
  destruct s as [|c s]; simpl; [discriminate|].
  destruct (Ascii.eqb c sep); [discriminate|].
  destruct (split_on sep s); discriminate.
Qed.

(** The text before the first separator has no separator. *)
Lemma split_on_head (sep : ascii) (s : string) :
  all_chars (fun c => negb (Ascii.eqb c sep))
            (hd EmptyString (split_on sep s)) = true.
Proof.
  induction s as [|c s IH]; simpl; [reflexivity|].
  destruct (Ascii.eqb c sep) eqn:E; [reflexivity|].
  destruct (split_on sep s) as [|p ps]; simpl in *; rewrite E; [reflexivity|].
  exact IH.
Qed.

Lemma split_on_without_sep (sep : ascii) (s : string) :
  all_chars (fun c => negb (Ascii.eqb c sep)) s = true ->
  split_on sep s = [s].
Proof.
  induction s as [|c s IH]; simpl; [reflexivity|].
  intros H. apply andb_prop in H as [Hc Hs].
  apply negb_true_iff in Hc. rewrite Hc, (IH Hs). reflexivity.
Qed.

Lemma lower_fixed (s : string) :
  all_chars (fun c => negb (py_isupper_char c)) s = true -> lower s = s.
Proof.
  induction s as [|c s IH]; simpl; [reflexivity|].
  intros H. apply andb_prop in H as [Hc Hs]. apply negb_true_iff in Hc.
  rewrite (lower_char_fixed _ Hc), (IH Hs). reflexivity.
Qed.

Lemma replace_char_fixed (a b : ascii) (s : string) :
  all_chars (fun c => negb (Ascii.eqb c a)) s = true ->
  replace_char a b s = s.
Proof.
  induction s as [|c s IH]; simpl; [reflexivity|].
  intros H. apply andb_prop in H as [Hc Hs]. apply negb_true_iff in Hc.
  rewrite Hc, (IH Hs). reflexivity.
Qed.

(** Lowering and replacing the two separators by blanks leaves skill
    characters only, when the text has no parenthesis. *)
Lemma all_chars_replaced (s : string) :
  all_chars (fun c => negb (Ascii.eqb c "(")) s = true ->
  all_chars skill_char
    (replace_char "-" " " (replace_char "/" " " (lower s))) = true.
Proof.
  induction s as [|c s IH]; simpl; [reflexivity|].
  intros H. apply andb_prop in H as [Hc Hs]. rewrite (IH Hs), andb_true_r.
  pose proof (lower_char_skill c Hc) as Hl.
  destruct (Ascii.eqb (py_lower_char c) "/") eqn:E1.
  - reflexivity.
  - destruct (Ascii.eqb (py_lower_char c) "-") eqn:E2; [reflexivity|].
    revert Hc Hl E1 E2.
    destruct c as [[] [] [] [] [] [] [] []]; vm_compute; congruence.
Qed.

(** ** Collapsing whitespace *)

Lemma all_chars_collapse (p : ascii -> bool) (b : bool) (s : string) :
  p " "%char = true ->
  all_chars p s = true -> all_chars p (collapse_ws_go b s) = true.
Proof.
  intros Hsp. revert b. induction s as [|c s IH]; intros b; simpl; [reflexivity|].
  intros H. apply andb_prop in H as [Hc Hs].
  destruct (py_isspace c).
  - destruct b; simpl; [|rewrite Hsp]; apply IH; exact Hs.
  - simpl. rewrite Hc. apply IH. exact Hs.
Qed.

Lemma collapse_in_run_starts (s : string) :
  starts_with_space (collapse_ws_go true s) = false.
Proof.
  induction s as [|c s IH]; simpl; [reflexivity|].
  destruct (py_isspace c) eqn:E; [exact IH | simpl; rewrite ?E; reflexivity].
Qed.

Lemma single_spaced_collapse (b : bool) (s : string) :
  single_spaced (collapse_ws_go b s) = true.
Proof.
  revert b. induction s as [|c s IH]; intros b; simpl; [reflexivity|].
  destruct (py_isspace c) eqn:E.
  - destruct b; [apply IH|].
    simpl. rewrite collapse_in_run_starts, IH. reflexivity.
  - simpl. rewrite E, IH. reflexivity.
Qed.

Lemma collapse_fixed (b : bool) (s : string) :
  single_spaced s = true ->
  (b = true -> starts_with_space s = false) ->
  collapse_ws_go b s = s.
Proof.
  revert b. induction s as [|c s IH]; intros b; simpl; [reflexivity|].
  intros H Hb. apply andb_prop in H as [Hc Hs].
  destruct (py_isspace c) eqn:E.
  - simpl in Hc. apply andb_prop in Hc as [Heq Hnext].
    apply Ascii.eqb_eq in Heq. subst c.
    destruct b; [specialize (Hb eq_refl); discriminate|].
    rewrite (IH true Hs); [reflexivity|].
    intros _. apply negb_true_iff. exact Hnext.
  - rewrite (IH false Hs); [reflexivity | discriminate].
Qed.

Lemma single_spaced_lstrip (s : string) :
  single_spaced s = true -> single_spaced (lstrip s) = true.
Proof.
  induction s as [|c s IH]; simpl; [reflexivity|].
  intros H. destruct (py_isspace c) eqn:E.
  - apply andb_prop in H as [_ Hs]. auto.
  - simpl. rewrite E. exact H.
Qed.

Lemma rstrip_starts (s : string) :
  starts_with_space s = false -> starts_with_space (rstrip s) = false.
Proof.
  destruct s as [|c s]; simpl; [reflexivity|].
  intros E. destruct (rstrip s); [rewrite E|]; simpl; exact E.
Qed.

Lemma single_spaced_rstrip (s : string) :
  single_spaced s = true -> single_spaced (rstrip s) = true.
Proof.
  induction s as [|c s IH]; simpl; [reflexivity|].
  intros H. apply andb_prop in H as [Hc Hs]. specialize (IH Hs).
  destruct (rstrip s) as [|x r] eqn:Er.
  - destruct (py_isspace c) eqn:E; simpl; [reflexivity|].
    rewrite E. reflexivity.
  - simpl. simpl in IH. rewrite IH, andb_true_r.
    destruct (py_isspace c) eqn:E; simpl; [|reflexivity].
    simpl in Hc. apply andb_prop in Hc as [Heq Hnext]. rewrite Heq. simpl.
    apply negb_true_iff in Hnext.
    pose proof (rstrip_starts s Hnext) as Hr. rewrite Er in Hr.
    simpl in Hr. rewrite Hr. reflexivity.
Qed.

Lemma lstrip_starts (s : string) : starts_with_space (lstrip s) = false.
Proof.
  induction s as [|c s IH]; simpl; [reflexivity|].
  destruct (py_isspace c) eqn:E; [exact IH | simpl; rewrite ?E; reflexivity].
Qed.

(** ** [normalize_skill_string] *)

Lemma strip_idempotent (s : string) : strip (strip s) = strip s.
Proof.
  destruct (strip_fixed s) as [Hl Hr].
  unfold strip at 1. rewrite Hr. exact Hl.
Qed.

(** Every normalised skill has the tidy form. *)
Lemma normalize_skill_string_tidy (v : pyval) : tidy (normalize_skill_string v).
Proof.
  unfold normalize_skill_string, tidy.
  set (s := normalize_text v).
  assert (Hs : all_chars (fun c => negb (Ascii.eqb c "(")) s = true
               /\ exists t, s = lower t
                  /\ all_chars (fun c => negb (Ascii.eqb c "(")) t = true).
  { unfold s, normalize_text. destruct v; try (split; [reflexivity | exists ""; split; reflexivity]).
    set (t := strip (hd "" (split_on "(" s0))).
    assert (Ht : all_chars (fun c => negb (Ascii.eqb c "(")) t = true)
      by (apply all_chars_strip, split_on_head).
    split; [|exists t; split; [reflexivity | exact Ht]].
    clear -Ht. induction t as [|c t IH]; simpl; [reflexivity|].
    simpl in Ht. apply andb_prop in Ht as [Hc Ht]. rewrite (IH Ht), andb_true_r.
    revert Hc. destruct c as [[] [] [] [] [] [] [] []]; vm_compute; congruence. }
  destruct Hs as [_ (t & -> & Ht)].
  repeat split.
  - apply all_chars_strip, all_chars_collapse; [reflexivity|].
    apply all_chars_replaced, Ht.
  - apply single_spaced_lstrip, single_spaced_rstrip, single_spaced_collapse.
  - apply strip_idempotent.
Qed.

(** A tidy string is its own normal form. *)
Lemma normalize_skill_string_fixed (s : string) :
  tidy s -> normalize_skill_string (PStr s) = s.
Proof.
  intros (Hchars & Hspaced & Hstrip).
  unfold normalize_skill_string, normalize_text.
  rewrite split_on_without_sep
    by (eapply all_chars_weaken; [|exact Hchars];
        intros c; unfold skill_char;
        destruct (Ascii.eqb c "("); [discriminate | reflexivity]).
  simpl. rewrite Hstrip.
  rewrite lower_fixed
    by (eapply all_chars_weaken; [|exact Hchars];
        intros c; unfold skill_char;
        destruct (py_isupper_char c);
        [rewrite !orb_true_r; discriminate | reflexivity]).
  rewrite (replace_char_fixed "/")
    by (eapply all_chars_weaken; [|exact Hchars];
        intros c; unfold skill_char;
        destruct (Ascii.eqb c "/");
        [rewrite orb_true_r; discriminate | reflexivity]).
  rewrite (replace_char_fixed "-")
    by (eapply all_chars_weaken; [|exact Hchars];
        intros c; unfold skill_char;
        destruct (Ascii.eqb c "-");
        [rewrite !orb_true_r; discriminate | reflexivity]).
  unfold collapse_ws. rewrite collapse_fixed; [exact Hstrip | exact Hspaced|].
  discriminate.
Qed.

(** X15.  [normalize_skill_string] is idempotent, and its result is
    left as it is by [lower], has no parenthesis, slash or hyphen,
    separates its words by single blanks and has no blank at either
    end. *)
Theorem normalize_skill_string_idempotent (v : pyval) :
  normalize_skill_string (PStr (normalize_skill_string v))
  = normalize_skill_string v
  /\ lower (normalize_skill_string v) = normalize_skill_string v
  /\ all_chars (fun c => negb (Ascii.eqb c "(" || Ascii.eqb c "/"
                               || Ascii.eqb c "-"))
       (normalize_skill_string v) = true
  /\ single_spaced (normalize_skill_string v) = true
  /\ strip (normalize_skill_string v) = normalize_skill_string v.
Proof.
  destruct (normalize_skill_string_tidy v) as (Hchars & Hspaced & Hstrip).
  split; [apply normalize_skill_string_fixed, normalize_skill_string_tidy|].
  split; [|split; [|split; assumption]].
  - apply lower_fixed. eapply all_chars_weaken; [|exact Hchars].
    intros c. unfold skill_char.
    destruct (py_isupper_char c); [rewrite !orb_true_r; discriminate|].
    reflexivity.
  - eapply all_chars_weaken; [|exact Hchars].
    intros c. unfold skill_char.
    destruct (py_isupper_char c);
      [rewrite !orb_true_r; discriminate | rewrite orb_false_r; exact id].
Qed.

(** ** The synonym table *)

Lemma mapping_get_In (m : list (string * list string)) (k : string)
    (vs : list string) :
  mapping_get m k = Some vs -> In (k, vs) m.
Proof.
  induction m as [|[k0 v0] m IH]; simpl; [discriminate|].
  destruct (String.eqb k0 k) eqn:E; [|auto].
  apply String.eqb_eq in E. intros H. left. congruence.
Qed.

(** The synonyms of a synonym are the key it came from or synonyms of
    that key already. *)
Lemma mapping_closed (k v w : string) (vs ws : list string) :
  mapping_get mapping k = Some vs -> In v vs ->
  mapping_get mapping v = Some ws -> In w ws ->
  w = k \/ In w vs.
Proof.
  intros Hk Hv Hget Hw.
  assert (Htable :
    forallb (fun kv =>
      forallb (fun v =>
        match mapping_get mapping v with
        | Some ws =>
            forallb (fun w => String.eqb w (fst kv)
                              || existsb (String.eqb w) (snd kv)) ws
        | None => true
        end) (snd kv)) mapping = true) by (vm_compute; reflexivity).
  rewrite forallb_forall in Htable.
  specialize (Htable _ (mapping_get_In _ _ _ Hk)). cbv beta in Htable.
  rewrite forallb_forall in Htable. specialize (Htable _ Hv).
  cbv beta in Htable.
  rewrite Hget, forallb_forall in Htable. specialize (Htable _ Hw).
  cbn [fst snd] in Htable.
  apply orb_prop in Htable as [H|H].
  - left. apply String.eqb_eq. exact H.
  - right. apply existsb_exists in H as (x & Hx & Heq).
    apply String.eqb_eq in Heq. subst. exact Hx.
Qed.

(** Every synonym of the table is a normalised skill and is not empty. *)
Lemma mapping_values_tidy (k v : string) (vs : list string) :
  mapping_get mapping k = Some vs -> In v vs ->
  normalize_skill_string (PStr v) = v /\ v <> "".
Proof.
  intros Hk Hv.
  assert (Htable :
    forallb (fun kv =>
      forallb (fun v => String.eqb (normalize_skill_string (PStr v)) v
                        && nonempty v) (snd kv)) mapping = true)
    by (vm_compute; reflexivity).
  rewrite forallb_forall in Htable.
  specialize (Htable _ (mapping_get_In _ _ _ Hk)). cbv beta in Htable.
  rewrite forallb_forall in Htable. specialize (Htable _ Hv).
  cbv beta in Htable.
  apply andb_prop in Htable as [H1 H2].
  split; [apply String.eqb_eq, H1 | apply nonempty_true, H2].
Qed.

Lemma elem_of_expand (l : list string) (x : string) :
  x ∈ expand_skill_synonyms l
  <-> In x l
      \/ exists k vs, In k l /\ mapping_get mapping k = Some vs /\ In x vs.
Proof.
  induction l as [|sk rest IH]; cbn [expand_skill_synonyms In].
  - rewrite elem_of_empty. split; [intros [] | intros [[]|(k & vs & [] & _)]].
  - rewrite !elem_of_union, elem_of_singleton, IH. split.
    + intros [[->|Hsyn]|[Hin|(k & vs & Hk & Hget & Hx)]].
      * left. left. reflexivity.
      * right. destruct (mapping_get mapping sk) as [syns|] eqn:E.
        -- exists sk, syns. split; [left; reflexivity|]. split; [exact E|].
           rewrite elem_of_list_to_set, list_elem_of_In in Hsyn. exact Hsyn.
        -- apply elem_of_empty in Hsyn. destruct Hsyn.
      * left. right. exact Hin.
      * right. exists k, vs. split; [right; exact Hk|]. split; assumption.
    + intros [[->|Hin]|(k & vs & [->|Hk] & Hget & Hx)].
      * left. left. reflexivity.
      * right. left. exact Hin.
      * left. right. rewrite Hget.
        rewrite elem_of_list_to_set, list_elem_of_In. exact Hx.
      * right. right. exists k, vs. split; [exact Hk|]. split; assumption.
Qed.

(** X16.  Expanding keeps every skill it is given, and expanding an expanded
    set adds nothing: the table is closed under its own synonyms. *)
Theorem expand_skill_synonyms_closed (l : list string) :
  (forall x, In x l -> x ∈ expand_skill_synonyms l)
  /\ expand_skill_synonyms (elements (expand_skill_synonyms l))
     = expand_skill_synonyms l.
Proof.
  split.
  - intros x Hx. apply elem_of_expand. left. exact Hx.
  - apply set_eq. intros x. rewrite elem_of_expand. split.
    + intros [Hin|(k & vs & Hk & Hget & Hx)].
      * apply list_elem_of_In, elem_of_elements in Hin. exact Hin.
      * apply list_elem_of_In, elem_of_elements, elem_of_expand in Hk.
        apply elem_of_expand.
        destruct Hk as [Hk|(k0 & vs0 & Hk0 & Hget0 & Hk)].
        -- right. exists k, vs. repeat split; assumption.
        -- destruct (mapping_closed _ _ _ _ _ Hget0 Hk Hget Hx) as [->|Hx0].
           ++ left. exact Hk0.
           ++ right. exists k0, vs0. repeat split; assumption.
    + intros Hx. left. apply list_elem_of_In, elem_of_elements. exact Hx.
Qed.

(** ** [normalize_skill_set] *)

Lemma In_normalized_strs (raw : list pyval) (x : string) :
  In x (normalized_strs raw)
  <-> exists s, In (PStr s) raw /\ nonempty (strip s) = true
                /\ x = normalize_skill_string (PStr s).
Proof.
  induction raw as [|v raw IH]; simpl.
  - split; [intros [] | intros (s & [] & _)].
  - assert (Hskip : In x (normalized_strs raw)
                    <-> exists s, (v = PStr s \/ In (PStr s) raw)
                                  /\ nonempty (strip s) = true
                                  /\ x = normalize_skill_string (PStr s)
                                  /\ (v = PStr s -> In x (normalized_strs raw))).
    { rewrite IH. split.
      - intros (s & Hin & Hne & Hx). exists s. repeat split; auto.
        intros _. apply IH. eauto.
      - intros (s & [Hv|Hin] & Hne & Hx & Hback); [apply IH, Hback, Hv|eauto]. }
    destruct v as [| | | s0 | |];
      try (rewrite IH; split;
           [intros (s & Hin & H); exists s; split; [right; exact Hin | exact H]
           |intros (s & [Hv|Hin] & H); [discriminate | exists s; split; assumption]]).
    destruct (nonempty (strip s0)) eqn:Hne0.
    + simpl. rewrite IH. split.
      * intros [<-|(s & Hin & H)]; [exists s0; auto|].
        exists s. split; [right; exact Hin | exact H].
      * intros (s & [Hv|Hin] & Hne & Hx).
        -- left. congruence.
        -- right. exists s. auto.
    + rewrite IH. split.
      * intros (s & Hin & H). exists s. split; [right; exact Hin | exact H].
      * intros (s & [Hv|Hin] & Hne & Hx); [congruence|]. exists s. auto.
Qed.

Lemma elem_of_normalize_skill_set (raw : list pyval) (x : string) :
  x ∈ normalize_skill_set raw
  <-> In x (normalized_strs raw)
      \/ exists k vs, In k (normalized_strs raw)
                       /\ mapping_get mapping k = Some vs /\ In x vs.
Proof.
  unfold normalize_skill_set. rewrite elem_of_expand.
  assert (Hbase : forall y,
             In y (elements (list_to_set (normalized_strs raw) : gset string))
             <-> In y (normalized_strs raw)).
  { intros y. rewrite <- !list_elem_of_In, elem_of_elements, elem_of_list_to_set.
    reflexivity. }
  rewrite Hbase. split.
  - intros [H|(k & vs & Hk & H)]; [left; exact H|].
    right. exists k, vs. rewrite <- Hbase. split; assumption.
  - intros [H|(k & vs & Hk & H)]; [left; exact H|].
    right. exists k, vs. rewrite Hbase. split; assumption.
Qed.

(** Every skill of a normalised set is its own normal form. *)
Lemma normalize_skill_set_members_fixed (raw : list pyval) (x : string) :
  x ∈ normalize_skill_set raw ->
  normalize_skill_string (PStr x) = x /\ strip x = x.
Proof.
  intros Hx. apply elem_of_normalize_skill_set in Hx.
  assert (Hfix : normalize_skill_string (PStr x) = x).
  { destruct Hx as [Hx|(k & vs & _ & Hget & Hx)].
    - apply In_normalized_strs in Hx as (s & _ & _ & ->).
      apply normalize_skill_string_fixed, normalize_skill_string_tidy.
    - apply (mapping_values_tidy _ _ _ Hget Hx). }
  split; [exact Hfix|].
  rewrite <- Hfix. apply normalize_skill_string_tidy.
Qed.

(** X17.  How far [normalize_skill_set] is idempotent: normalising a
    normalised set again gives the same set without the empty string,
    so the second pass changes nothing when the first result has no
    empty string. *)
Theorem normalize_skill_set_twice (raw : list pyval) :
  normalize_skill_set_of_set (normalize_skill_set raw)
  = normalize_skill_set raw ∖ {[ "" ]}.
Proof.
  set (S := normalize_skill_set raw).
  assert (Hbase : forall x,
             In x (normalized_strs (map PStr (elements S)))
             <-> x ∈ S /\ x <> "").
  { intros x. rewrite In_normalized_strs. split.
    - intros (t & Hin & Hne & ->).
      apply in_map_iff in Hin as (t' & Heq & Hin).
      assert (t' = t) as -> by congruence.
      apply list_elem_of_In, elem_of_elements in Hin.
      destruct (normalize_skill_set_members_fixed raw t Hin) as [Hfix Hstrip].
      rewrite Hfix. split; [exact Hin|].
      rewrite Hstrip in Hne. apply nonempty_true. exact Hne.
    - intros [Hin Hne].
      destruct (normalize_skill_set_members_fixed raw x Hin) as [Hfix Hstrip].
      exists x. repeat split.
      + apply in_map, list_elem_of_In, elem_of_elements. exact Hin.
      + rewrite Hstrip. apply nonempty_true. exact Hne.
      + symmetry. exact Hfix. }
  apply set_eq. intros x.
  unfold normalize_skill_set_of_set. fold S.
  rewrite elem_of_normalize_skill_set, elem_of_difference, elem_of_singleton.
  split.
  - intros [Hx|(k & vs & Hk & Hget & Hx)]; [apply Hbase, Hx|].
    apply Hbase in Hk as [Hk _].
    split; [|apply (mapping_values_tidy _ _ _ Hget Hx)].
    unfold S in *. apply elem_of_normalize_skill_set.
    apply elem_of_normalize_skill_set in Hk
      as [Hk|(k0 & vs0 & Hk0 & Hget0 & Hk)].
    + right. exists k, vs. repeat split; assumption.
    + destruct (mapping_closed _ _ _ _ _ Hget0 Hk Hget Hx) as [->|Hx0].
      * left. exact Hk0.
      * right. exists k0, vs0. repeat split; assumption.
  - intros [Hin Hne]. left. apply Hbase. split; assumption.
Qed.

End PreprocessingMore.
(* ===================================================================== *)
(** * Cleaning text and removing exact duplicates                         *)
(* ===================================================================== *)

Module PreprocessingTextFacts.
Import PyStr PyStrFacts Preprocessing Tidy PreprocessingMore PreprocessingText.

#[local] Arguments String.append !s1 s2 : simpl nomatch.
#[local] Arguments py_isspace : simpl never.
#[local] Arguments Ascii.eqb : simpl never.

(** What [split] adds for the word collected so far. *)
Definition flush (cur : string) : list string :=
  if nonempty cur then [cur] else [].

Lemma split_ws_go_space (cur : string) (c : ascii) (s : string) :
  py_isspace c = true ->
  split_ws_go cur (String c s) = flush cur ++ split_ws_go EmptyString s.
Proof. intros H. simpl. rewrite H. reflexivity. Qed.

Lemma split_ws_go_nil (cur : string) : split_ws_go cur EmptyString = flush cur.
Proof. reflexivity. Qed.

Lemma CR_is_space : py_isspace CR = true.
Proof. reflexivity. Qed.

Lemma LF_is_space : py_isspace LF = true.
Proof. reflexivity. Qed.

Lemma words_replace_cr (s : string) (cur : string) :
  split_ws_go cur (replace_char CR LF s) = split_ws_go cur s.
Proof.
  revert cur. induction s as [|c s IH]; intros cur; [reflexivity|].
  cbn [replace_char]. destruct (Ascii.eqb c CR) eqn:E.
  - apply Ascii.eqb_eq in E. subst c.
    rewrite !split_ws_go_space by reflexivity. now rewrite IH.
  - simpl. destruct (py_isspace c); now rewrite IH.
Qed.

Lemma crlf_to_lf_two (c c' : ascii) (s : string) :
  crlf_to_lf (String c (String c' s))
  = if (Ascii.eqb c CR && Ascii.eqb c' LF)%bool
    then String LF (crlf_to_lf s)
    else String c (crlf_to_lf (String c' s)).
Proof. reflexivity. Qed.

Lemma words_crlf (s : string) :
  (forall cur, split_ws_go cur (crlf_to_lf s) = split_ws_go cur s)
  /\ (forall c cur,
         split_ws_go cur (crlf_to_lf (String c s)) = split_ws_go cur (String c s)).
Proof.
  induction s as [|c' s [IH1 IH2]].
  - split; reflexivity.
  - split; [intros cur; apply IH2|].
    intros c cur. rewrite crlf_to_lf_two.
    destruct (Ascii.eqb c CR && Ascii.eqb c' LF)%bool eqn:E.
    + apply andb_prop in E as [Ec Ec'].
      apply Ascii.eqb_eq in Ec, Ec'. subst c c'.
      rewrite !split_ws_go_space by reflexivity.
      rewrite IH1. reflexivity.
    + destruct (py_isspace c) eqn:Ec.
      * rewrite !split_ws_go_space by exact Ec. now rewrite IH2.
      * cbn [split_ws_go]. rewrite Ec. apply IH2.
Qed.

Lemma words_collapse (b : bool) (s : string) (cur : string) :
  (b = true -> cur = EmptyString) ->
  split_ws_go cur (collapse_ws_go b s) = split_ws_go cur s.
Proof.
  revert b cur. induction s as [|c s IH]; intros b cur Hb; [reflexivity|].
  cbn [collapse_ws_go]. destruct (py_isspace c) eqn:E.
  - destruct b.
    + rewrite (Hb eq_refl), split_ws_go_space by exact E.
      simpl. apply IH. reflexivity.
    + rewrite !split_ws_go_space by (exact E || reflexivity).
      rewrite IH by reflexivity. reflexivity.
  - simpl. rewrite E. apply IH. discriminate.
Qed.

Lemma words_lstrip (s : string) :
  split_ws_go EmptyString (lstrip s) = split_ws_go EmptyString s.
Proof.
  induction s as [|c s IH]; [reflexivity|].
  cbn [lstrip]. destruct (py_isspace c) eqn:E; [|reflexivity].
  rewrite split_ws_go_space by exact E. exact IH.
Qed.

Lemma words_of_blank (s : string) (cur : string) :
  rstrip s = EmptyString -> split_ws_go cur s = flush cur.
Proof.
  revert cur. induction s as [|c s IH]; intros cur; [reflexivity|].
  cbn [rstrip]. destruct (rstrip s) eqn:Er; [|discriminate].
  destruct (py_isspace c) eqn:E; [|discriminate]. intros _.
  rewrite split_ws_go_space by exact E.
  rewrite IH by reflexivity. unfold flush at 2. simpl.
  apply List.app_nil_r.
Qed.

Lemma words_rstrip (s : string) (cur : string) :
  split_ws_go cur (rstrip s) = split_ws_go cur s.
Proof.
  revert cur. induction s as [|c s IH]; intros cur; [reflexivity|].
  cbn [rstrip]. destruct (rstrip s) as [|x r] eqn:Er.
  - destruct (py_isspace c) eqn:E.
    + rewrite split_ws_go_space by exact E.
      rewrite (words_of_blank s _ Er). unfold flush at 2. simpl.
      rewrite List.app_nil_r. reflexivity.
    + simpl. rewrite E. rewrite (words_of_blank s _ Er). reflexivity.
  - simpl. destruct (py_isspace c); rewrite <- IH; reflexivity.
Qed.

Lemma words_strip (s : string) : split_ws (strip s) = split_ws s.
Proof. unfold split_ws, strip. rewrite words_lstrip. apply words_rstrip. Qed.

(** The only whitespace of a single-spaced string is the blank. *)
Lemma single_spaced_blank_only (s : string) :
  single_spaced s = true ->
  all_chars (fun c => negb (Ascii.eqb c CR)) s = true.
Proof.
  induction s as [|c s IH]; simpl; [reflexivity|].
  intros H. apply andb_prop in H as [Hc Hs]. rewrite (IH Hs), andb_true_r.
  destruct (Ascii.eqb c CR) eqn:E; [|reflexivity].
  apply Ascii.eqb_eq in E. subst c. discriminate Hc.
Qed.

Lemma crlf_fixed (s : string) :
  (all_chars (fun c => negb (Ascii.eqb c CR)) s = true -> crlf_to_lf s = s)
  /\ (forall c, all_chars (fun c => negb (Ascii.eqb c CR)) (String c s) = true ->
                crlf_to_lf (String c s) = String c s).
Proof.
  induction s as [|c' s [IH1 IH2]].
  - split; reflexivity.
  - split; [apply IH2|].
    intros c H. cbn [all_chars] in H. apply andb_prop in H as [Hc Hs].
    rewrite crlf_to_lf_two. apply negb_true_iff in Hc. rewrite Hc.
    cbn [andb]. f_equal. apply IH2. exact Hs.
Qed.

(** X18.  [clean_text] keeps the words of a text, in their order, and
    separates them by single blanks with no blank at either end; a text
    that is already clean is returned as it is. *)
Theorem clean_text_keeps_the_words (text : string) :
  split_ws (clean_text text) = split_ws text
  /\ single_spaced (clean_text text) = true
  /\ strip (clean_text text) = clean_text text
  /\ clean_text (clean_text text) = clean_text text.
Proof.
  assert (Hform : single_spaced (clean_text text) = true
                  /\ strip (clean_text text) = clean_text text).
  { unfold clean_text. destruct (negb (nonempty text)); [split; reflexivity|].
    split; [|apply strip_idempotent].
    apply single_spaced_lstrip, single_spaced_rstrip, single_spaced_collapse. }
  destruct Hform as [Hspaced Hstrip].
  split; [|split; [exact Hspaced | split; [exact Hstrip|]]].
  - unfold clean_text. destruct text as [|c text]; [reflexivity|].
    cbn [nonempty negb]. rewrite words_strip. unfold split_ws, collapse_ws.
    rewrite words_collapse by discriminate.
    rewrite words_replace_cr. apply (words_crlf text).
  - set (r := clean_text text) in *.
    unfold clean_text. destruct (negb (nonempty r)) eqn:E.
    + destruct r; [reflexivity | discriminate].
    + pose proof (single_spaced_blank_only r Hspaced) as Hcr.
      rewrite (proj1 (crlf_fixed r) Hcr).
      rewrite replace_char_fixed by exact Hcr.
      unfold collapse_ws. rewrite collapse_fixed; [exact Hstrip | exact Hspaced|].
      discriminate.
Qed.

(** ** [remove_duplicates] *)

Lemma remove_duplicates_from_spec (seen : gset string) (resumes : list pyval) :
  let kept := remove_duplicates_from seen resumes in
  sublist kept resumes
  /\ List.NoDup (map duplicate_key kept)
  /\ (forall r, In r kept -> duplicate_key r ∉ seen)
  /\ (forall r, In r resumes ->
        duplicate_key r ∈ seen \/ In (duplicate_key r) (map duplicate_key kept)).
Proof.
  revert seen. induction resumes as [|r rest IH]; intros seen; simpl.
  - repeat split; [constructor | constructor | intros r [] | intros r []].
  - destruct (decide (duplicate_key r ∈ seen)) as [Hseen|Hnew].
    + destruct (IH seen) as (Hsub & Hnd & Hout & Hall).
      repeat split; [apply sublist_cons, Hsub | exact Hnd | exact Hout|].
      intros r' [<-|Hin]; [left; exact Hseen | apply Hall, Hin].
    + destruct (IH (seen ∪ {[ duplicate_key r ]})) as (Hsub & Hnd & Hout & Hall).
      repeat split.
      * apply sublist_skip, Hsub.
      * simpl. constructor; [|exact Hnd].
        intros Hin. apply in_map_iff in Hin as (r' & Heq & Hin).
        apply (Hout r' Hin). rewrite Heq. set_solver.
      * intros r' [<-|Hin]; [exact Hnew|].
        intros Hs. apply (Hout r' Hin). set_solver.
      * intros r' [<-|Hin]; [right; left; reflexivity|].
        destruct (Hall r' Hin) as [Hs|Hk]; [|right; right; exact Hk].
        apply elem_of_union in Hs as [Hs|Hs]; [left; exact Hs|].
        apply elem_of_singleton in Hs. right. left. symmetry. exact Hs.
Qed.

Lemma remove_duplicates_from_fixed (seen : gset string) (resumes : list pyval) :
  List.NoDup (map duplicate_key resumes) ->
  (forall r, In r resumes -> duplicate_key r ∉ seen) ->
  remove_duplicates_from seen resumes = resumes.
Proof.
  revert seen. induction resumes as [|r rest IH]; intros seen Hnd Hout;
    [reflexivity|].
  simpl. simpl in Hnd. inversion Hnd as [|? ? Hnot Hrest]; subst.
  destruct (decide (duplicate_key r ∈ seen)) as [Hseen|_].
  - destruct (Hout r (or_introl eq_refl) Hseen).
  - f_equal. apply IH; [exact Hrest|].
    intros r' Hin Hs. apply elem_of_union in Hs as [Hs|Hs].
    + apply (Hout r' (or_intror Hin) Hs).
    + apply elem_of_singleton in Hs. apply Hnot. rewrite <- Hs.
      apply in_map. exact Hin.
Qed.

(** X19.  [remove_duplicates] keeps a subsequence of the resumes, in their
    order, whose keys are pairwise different and cover the key of every
    resume given; applied to its own result it removes nothing. *)
Theorem remove_duplicates_keeps_one_per_key (resumes : list pyval) :
  sublist (remove_duplicates resumes) resumes
  /\ List.NoDup (map duplicate_key (remove_duplicates resumes))
  /\ (forall r, In r resumes ->
        In (duplicate_key r) (map duplicate_key (remove_duplicates resumes)))
  /\ remove_duplicates (remove_duplicates resumes) = remove_duplicates resumes.
Proof.
  unfold remove_duplicates.
  destruct (remove_duplicates_from_spec ∅ resumes) as (Hsub & Hnd & Hout & Hall).
  repeat split; [exact Hsub | exact Hnd | |].
  - intros r Hin. destruct (Hall r Hin) as [Hs|Hk]; [|exact Hk].
    apply elem_of_empty in Hs. destruct Hs.
  - apply remove_duplicates_from_fixed; [exact Hnd|].
    intros r _ Hs. apply elem_of_empty in Hs. destruct Hs.
Qed.

End PreprocessingTextFacts.
(* ===================================================================== *)
(** * Further properties of the rule-based scorer                         *)
(* ===================================================================== *)

Module RuleBasedMore.
Import PyStr Preprocessing Records Config RuleBasedScorer RuleBasedFacts.

(** Every step of a returning call of [score], by name. *)
Lemma score_steps (resume job : pydict) total bd mr miss :
  score resume job = inr (total, bd, mr, miss) ->
  exists required preferred edus edu_score exps title_sum desc_sum
         projs proj_score companies lowered c1 work c2 must_have,
    normalized_field job "required_skills" = inr required
    /\ normalized_field job "preferred_skills" = inr preferred
    /\ py_iter (py_get resume "education" (PList [])) = inr edus
    /\ education_loop job edus 0 = inr edu_score
    /\ py_iter (py_get resume "experience" (PList [])) = inr exps
    /\ experience_loop required exps 0 0 = inr (title_sum, desc_sum)
    /\ py_iter (py_get resume "projects" (PList [])) = inr projs
    /\ projects_loop required projs 0 = inr proj_score
    /\ py_iter (py_get job "preferred_companies" (PList [])) = inr companies
    /\ mapM py_lower companies = inr lowered
    /\ company_loop (list_to_set lowered) exps 0 = inr c1
    /\ py_iter (py_get resume "work_experience" (PList [])) = inr work
    /\ company_loop (list_to_set lowered) work c1 = inr c2
    /\ normalized_field job "must_have_skills" = inr must_have
    /\ mr = partial_matching (resume_skill_set resume) required
              (resume_skill_set resume ∩ required)
    /\ miss = required ∖ mr
    /\ skills_score bd
       = Z.of_nat (size mr) * 10
         + Z.of_nat (size (partial_matching (resume_skill_set resume) preferred
                             (resume_skill_set resume ∩ preferred))) * 3
    /\ education_score bd = edu_score
    /\ experience_score bd = Z.min (title_sum + Z.min desc_sum 10) 15
    /\ projects_score bd = Z.min proj_score 10
    /\ company_score bd = Z.min c2 20.
Proof.
  unfold score. intros H.
  apply bind_inr in H as (required & Ereq & H).
  apply bind_inr in H as (preferred & Epref & H).
  apply bind_inr in H as (edus & Eedus & H).
  apply bind_inr in H as (edu_score & Eedu & H).
  apply bind_inr in H as (exps & Eexps & H).
  apply bind_inr in H as ([title_sum desc_sum] & Eloop & H).
  apply bind_inr in H as (projs & Eprojs & H).
  apply bind_inr in H as (proj_score & Eproj & H).
  apply bind_inr in H as (companies & Ecomp & H).
  apply bind_inr in H as (lowered & Elow & H).
  apply bind_inr in H as (exps' & Eexps' & H).
  apply bind_inr in H as (c1 & Ec1 & H).
  apply bind_inr in H as (work & Ework & H).
  apply bind_inr in H as (c2 & Ec2 & H).
  apply bind_inr in H as (must_have & Emust & H).
  rewrite Eexps in Eexps'. assert (exps' = exps) as -> by congruence.
  injection H as <- <- <- <-.
  exists required, preferred, edus, edu_score, exps, title_sum, desc_sum,
    projs, proj_score, companies, lowered, c1, work, c2, must_have.
  repeat split; assumption || reflexivity.
Qed.

Lemma partial_matching_between (resume_skills wanted : gset string)
    (l : list string) (matched : gset string) :
  (forall x, In x l -> x ∈ wanted) ->
  matched ⊆ wanted ->
  let result :=
    foldl (fun matched skill =>
             if decide (skill ∈ matched) then matched
             else if partial_hit resume_skills skill
                  then matched ∪ {[ skill ]}
                  else matched) matched l in
  matched ⊆ result /\ result ⊆ wanted.
Proof.
  revert matched. induction l as [|x l IH]; intros matched Hl Hsub; simpl.
  - split; [reflexivity | exact Hsub].
  - assert (Hx : x ∈ wanted) by (apply Hl; left; reflexivity).
    assert (Hl' : forall y, In y l -> y ∈ wanted)
      by (intros y Hy; apply Hl; right; exact Hy).
    destruct (decide (x ∈ matched)); [apply IH; assumption|].
    destruct (partial_hit resume_skills x); [|apply IH; assumption].
    destruct (IH (matched ∪ {[ x ]}) Hl') as [H1 H2]; [set_solver|].
    split; [set_solver | exact H2].
Qed.

Lemma partial_matching_bounds (resume_skills wanted : gset string) :
  resume_skills ∩ wanted
  ⊆ partial_matching resume_skills wanted (resume_skills ∩ wanted)
  /\ partial_matching resume_skills wanted (resume_skills ∩ wanted) ⊆ wanted.
Proof.
  unfold partial_matching. apply partial_matching_between.
  - intros x Hx. apply elem_of_elements, list_elem_of_In. exact Hx.
  - set_solver.
Qed.

(** X1.  The matched and the missing required skills that [score] returns
    split the normalised required skills in two: every required skill
    that is also a resume skill is matched, every matched skill is
    required, and the missing ones are the required ones not matched. *)
Theorem matched_and_missing_split_required (resume job : pydict)
    total bd mr miss :
  score resume job = inr (total, bd, mr, miss) ->
  exists required,
    normalized_field job "required_skills" = inr required
    /\ resume_skill_set resume ∩ required ⊆ mr
    /\ mr ⊆ required
    /\ mr ∪ miss = required
    /\ mr ∩ miss = ∅.
Proof.
  intros H.
  destruct (score_steps _ _ _ _ _ _ H)
    as (required & preferred & edus & edu_score & exps & title_sum & desc_sum
        & projs & proj_score & companies & lowered & c1 & work & c2 & must_have
        & Hreq & _ & _ & _ & _ & _ & _ & _ & _ & _ & _ & _ & _ & _
        & Hmr & Hmiss & _).
  destruct (partial_matching_bounds (resume_skill_set resume) required)
    as [Hlow Hup].
  rewrite <- Hmr in Hlow, Hup.
  exists required. repeat split; try assumption.
  - subst miss. apply set_eq. intros x. rewrite elem_of_union, elem_of_difference.
    split; [intros [Hx|[Hx _]]; [apply Hup|]; exact Hx|].
    intros Hx. destruct (decide (x ∈ mr)); [left | right]; auto.
  - subst miss. set_solver.
Qed.

Lemma matched_and_missing_split_required_witness :
  exists mr miss required,
    score Examples.resume_a Examples.job_a
    = inr (46, Breakdown 50 10 6 2 8, mr, miss)
    /\ mr ∪ miss = required
    /\ elements required
       = ["api"; "rest api development"; "rest api"; "rest"; "docker"; "python"].
Proof.
  destruct (score_returns Examples.resume_a Examples.job_a
              46 (Breakdown 50 10 6 2 8)) as (mr & miss & E);
    [vm_compute; reflexivity|].
  destruct (matched_and_missing_split_required _ _ _ _ _ _ E)
    as (required & Hreq & _ & _ & Hunion & _).
  exists mr, miss, required. repeat split; [exact E | exact Hunion |].
  assert (required = normalize_skill_set
                       [PStr "Python"; PStr "Docker"; PStr "REST API Development"])
    as -> by (cbv [normalized_field bind py_iter ret Examples.job_a py_get
                   String.eqb Ascii.eqb Bool.eqb] in Hreq; congruence).
  vm_compute; reflexivity.
Defined.

Lemma education_loop_values job edus acc r :
  education_loop job edus acc = inr r ->
  acc = 0 \/ acc = 5 \/ acc = 10 ->
  r = 0 \/ r = 5 \/ r = 10.
Proof.
  revert acc. induction edus as [|edu rest IH]; intros acc H Hacc; simpl in H.
  - injection H as <-. exact Hacc.
  - apply bind_inr in H as ([[degree field]|] & _ & H); [|eauto].
    apply bind_inr in H as (req & _ & H).
    apply bind_inr in H as (base & _ & H).
    destruct (nonempty base && contains degree base); [|eauto].
    unfold education_full, education_partial in H.
    destruct (_ && _ && _) in H; injection H as <-; lia.
Qed.

(** X2.  The education score is 0, 5 or 10: the credit of one entry, never a
    sum over the entries. *)
Theorem education_score_is_one_credit (resume job : pydict)
    total bd mr miss :
  score resume job = inr (total, bd, mr, miss) ->
  education_score bd = 0 \/ education_score bd = education_partial
  \/ education_score bd = education_full.
Proof.
  intros H.
  destruct (score_steps _ _ _ _ _ _ H)
    as (required & preferred & edus & edu_score & exps & title_sum & desc_sum
        & projs & proj_score & companies & lowered & c1 & work & c2 & must_have
        & _ & _ & _ & Hedu & _ & _ & _ & _ & _ & _ & _ & _ & _ & _
        & _ & _ & _ & Hscore & _).
  rewrite Hscore. eapply education_loop_values; [exact Hedu | left; reflexivity].
Qed.

Lemma education_score_is_one_credit_witness :
  exists mr miss,
    score Examples.resume_a Examples.job_a
    = inr (46, Breakdown 50 10 6 2 8, mr, miss)
    /\ (10 = 0 \/ 10 = education_partial \/ 10 = education_full).
Proof.
  destruct (score_returns Examples.resume_a Examples.job_a
              46 (Breakdown 50 10 6 2 8)) as (mr & miss & E);
    [vm_compute; reflexivity|].
  exists mr, miss. split; [exact E|].
  apply (education_score_is_one_credit _ _ _ _ _ _ E).
Defined.

End RuleBasedMore.
(* ===================================================================== *)
(** * The rule-based scorer at the edges of its input                     *)
(* ===================================================================== *)

Module RuleBasedEdges.
Import PyStr Preprocessing Records Config RuleBasedScorer RuleBasedFacts
  RuleBasedMore Shapes.

Lemma normalize_skill_set_nil : normalize_skill_set [] = ∅.
Proof.
  unfold normalize_skill_set. simpl. rewrite elements_empty. reflexivity.
Qed.

Lemma missing_must_empty (resume_skills : gset string) :
  missing_must ∅ resume_skills = [].
Proof. unfold missing_must. rewrite elements_empty. reflexivity. Qed.

Lemma py_get_missing (d : pydict) (key : string) (default : pyval) :
  py_has_key d key = false -> py_get d key default = default.
Proof.
  induction d as [|[k v] d IH]; simpl; [reflexivity|].
  destruct (String.eqb k key); simpl; [discriminate | exact IH].
Qed.

(** X3.  Must-have skills cost at most the penalty: against the same job with
    no must-have skills, the breakdown is the same, the total is not
    higher, and it is lower by at most 30. *)
Theorem must_have_costs_at_most_penalty (resume job : pydict) (v : pyval)
    t0 bd0 mr0 miss0 t bd mr miss :
  py_get job "must_have_skills" (PList []) = PList [] ->
  score resume job = inr (t0, bd0, mr0, miss0) ->
  score resume (("must_have_skills", v) :: job) = inr (t, bd, mr, miss) ->
  bd = bd0 /\ t <= t0 /\ t0 <= t + MUST_HAVE_PENALTY.
Proof.
  intros Hnone H0 H.
  destruct (breakdown_without_must_have _ _ _ _ _ _ _ _ _ _ _ H0 H)
    as (-> & _ & _).
  destruct (score_shape _ _ _ _ _ _ H0)
    as (r0 & e0 & ts0 & ds0 & mh0 & _ & _ & _ & Hmh0 & Ht0 & Hsk & Hedu
        & Hexp & Hts & Hds & Hproj & Hcomp).
  destruct (score_shape _ _ _ _ _ _ H)
    as (r1 & e1 & ts1 & ds1 & mh1 & _ & _ & _ & _ & Ht & _).
  unfold normalized_field in Hmh0. rewrite Hnone in Hmh0.
  assert (mh0 = ∅) as ->
    by (cbv [bind py_iter ret] in Hmh0; rewrite normalize_skill_set_nil in Hmh0;
        congruence).
  rewrite missing_must_empty in Ht0. simpl in Ht0.
  assert (Hsum : 0 <= breakdown_sum bd0) by (unfold breakdown_sum; lia).
  split; [reflexivity|]. subst t t0.
  unfold penalise, MUST_HAVE_PENALTY. destruct (missing_must mh1 _); lia.
Qed.

Lemma must_have_costs_at_most_penalty_witness :
  exists mr0 miss0 mr miss,
    score Examples.resume_b Samples.job_seven
    = inr (70, Breakdown 70 0 0 0 0, mr0, miss0)
    /\ score Examples.resume_b
         (("must_have_skills", PList [PStr "Python"]) :: Samples.job_seven)
       = inr (40, Breakdown 70 0 0 0 0, mr, miss)
    /\ 40 <= 70 /\ 70 <= 40 + MUST_HAVE_PENALTY.
Proof.
  destruct (score_returns Examples.resume_b Samples.job_seven
              70 (Breakdown 70 0 0 0 0)) as (mr0 & miss0 & E0);
    [vm_compute; reflexivity|].
  destruct (score_returns Examples.resume_b
              (("must_have_skills", PList [PStr "Python"]) :: Samples.job_seven)
              40 (Breakdown 70 0 0 0 0)) as (mr & miss & E);
    [vm_compute; reflexivity|].
  exists mr0, miss0, mr, miss. split; [exact E0|]. split; [exact E|].
  apply (must_have_costs_at_most_penalty _ _ _ _ _ _ _ _ _ _ _
           (eq_refl : py_get Samples.job_seven "must_have_skills" (PList [])
                      = PList []) E0 E).
Defined.

Lemma education_loop_no_requirement job edus acc r :
  py_get job "education_required" (PStr "") = PStr "" ->
  education_loop job edus acc = inr r -> r = acc.
Proof.
  intros Hreq. revert acc.
  induction edus as [|edu rest IH]; intros acc H; simpl in H.
  - unfold ret in H. congruence.
  - apply bind_inr in H as ([[degree field]|] & _ & H); [|eauto].
    rewrite Hreq in H. simpl in H. eauto.
Qed.

Lemma experience_loop_no_skills exps e d r :
  experience_loop ∅ exps e d = inr r -> r = (e, d).
Proof.
  revert e d. induction exps as [|exp rest IH]; intros e d H; simpl in H.
  - unfold ret in H. congruence.
  - apply bind_inr in H as ([[title desc_text]|] & _ & H); [|eauto].
    rewrite elements_empty in H. simpl in H. eauto.
Qed.

Lemma projects_loop_no_skills projs acc r :
  projects_loop ∅ projs acc = inr r -> r = acc.
Proof.
  revert acc. induction projs as [|proj rest IH]; intros acc H; simpl in H.
  - unfold ret in H. congruence.
  - apply bind_inr in H as (techs & _ & H).
    replace (techs ∩ ∅) with (∅ : gset string) in H by set_solver.
    rewrite size_empty in H. apply IH in H. lia.
Qed.

Lemma company_loop_no_companies exps acc r :
  company_loop ∅ exps acc = inr r -> r = acc.
Proof.
  revert acc. induction exps as [|exp rest IH]; intros acc H; simpl in H.
  - unfold ret in H. congruence.
  - destruct exp; eauto.
    apply bind_inr in H as (company & _ & H).
    rewrite elements_empty in H. simpl in H. eauto.
Qed.

Lemma partial_matching_nothing_wanted (resume_skills : gset string) :
  partial_matching resume_skills ∅ (resume_skills ∩ ∅) = ∅.
Proof.
  unfold partial_matching. rewrite elements_empty. simpl. set_solver.
Qed.

(** X4.  A job with none of the five fields that [score] reads scores
    nothing: whenever [score] returns for it, the total and every
    component are 0 and no skill is matched or missing. *)
Theorem score_of_a_job_without_fields (resume job : pydict)
    total bd mr miss :
  forallb (fun key => negb (py_has_key job key))
    [ "required_skills"; "preferred_skills"; "education_required";
      "preferred_companies"; "must_have_skills" ] = true ->
  score resume job = inr (total, bd, mr, miss) ->
  total = 0 /\ bd = Breakdown 0 0 0 0 0 /\ mr = ∅ /\ miss = ∅.
Proof.
  intros Hkeys H. simpl in Hkeys.
  repeat (apply andb_prop in Hkeys as [?Hk Hkeys]).
  repeat match goal with
         | Hk : negb (py_has_key job _) = true |- _ =>
             apply negb_true_iff in Hk
         end.
  destruct (score_steps _ _ _ _ _ _ H)
    as (required & preferred & edus & edu_score & exps & title_sum & desc_sum
        & projs & proj_score & companies & lowered & c1 & work & c2 & must_have
        & Hreq & Hpref & _ & Hedu & _ & Hexp & _ & Hproj & Hcomp & Hlow
        & Hc1 & _ & Hc2 & Hmust & Hmr & Hmiss & Hsk & Hed & Hex & Hpr & Hco).
  destruct (score_shape _ _ _ _ _ _ H)
    as (r0 & e0 & ts0 & ds0 & mh0 & _ & _ & _ & Hmh0 & Ht & _).
  unfold normalized_field in Hreq, Hpref, Hmust, Hmh0.
  rewrite py_get_missing in Hreq, Hpref, Hmust, Hmh0, Hcomp by assumption.
  cbv [bind py_iter ret] in Hreq, Hpref, Hmust, Hmh0, Hcomp.
  rewrite normalize_skill_set_nil in Hreq, Hpref, Hmust, Hmh0.
  assert (required = ∅) as -> by congruence.
  assert (preferred = ∅) as -> by congruence.
  assert (mh0 = ∅) as -> by congruence.
  assert (companies = []) as -> by congruence.
  simpl in Hlow. assert (lowered = []) as -> by (unfold ret in Hlow; congruence).
  change (list_to_set []) with (∅ : gset string) in Hc1, Hc2.
  apply education_loop_no_requirement in Hedu;
    [|apply py_get_missing; assumption].
  apply experience_loop_no_skills in Hexp. injection Hexp as -> ->.
  apply projects_loop_no_skills in Hproj.
  apply company_loop_no_companies in Hc1.
  apply company_loop_no_companies in Hc2.
  rewrite !partial_matching_nothing_wanted in *.
  rewrite size_empty in Hsk. subst.
  assert (Hbd : bd = Breakdown 0 0 0 0 0).
  { destruct bd; simpl in *. f_equal; assumption. }
  subst bd. rewrite missing_must_empty.
  repeat split.
Qed.

Lemma score_of_a_job_without_fields_witness :
  exists mr miss,
    score Examples.resume_a Samples.job_described
    = inr (0, Breakdown 0 0 0 0 0, mr, miss)
    /\ mr = ∅ /\ miss = ∅.
Proof.
  destruct (score_returns Examples.resume_a Samples.job_described
              0 (Breakdown 0 0 0 0 0)) as (mr & miss & E);
    [vm_compute; reflexivity|].
  exists mr, miss. split; [exact E|].
  apply (score_of_a_job_without_fields _ _ _ _ _ _
           (eq_refl : forallb (fun key => negb (py_has_key Samples.job_described key))
                        [ "required_skills"; "preferred_skills";
                          "education_required"; "preferred_companies";
                          "must_have_skills" ] = true) E).
Defined.

End RuleBasedEdges.
(* ===================================================================== *)
(** * When the rule-based scorer returns and when it raises               *)
(* ===================================================================== *)

Module RuleBasedTotal.
Import PyStr Preprocessing Records Config RuleBasedScorer RuleBasedFacts Shapes.

Lemma iterable_iter (v : pyval) :
  iterable v = true -> exists l, py_iter v = inr l.
Proof. destruct v; simpl; intros H; try discriminate; eauto. Qed.

Lemma forallb_chars (ok : pyval -> bool) (s : string) :
  (forall x, ok (PStr x) = true) -> forallb ok (chars s) = true.
Proof.
  intros Hok. induction s as [|c s IH]; simpl; [reflexivity|].
  rewrite Hok, IH. reflexivity.
Qed.

Lemma forallb_keys (ok : pyval -> bool) (d : pydict) :
  (forall x, ok (PStr x) = true) ->
  forallb ok (map (fun kv => PStr (fst kv)) d) = true.
Proof.
  intros Hok. induction d as [|kv d IH]; simpl; [reflexivity|].
  rewrite Hok, IH. reflexivity.
Qed.

Lemma items_ok_iter (ok : pyval -> bool) (v : pyval) :
  (forall x, ok (PStr x) = true) ->
  items_ok ok v = true ->
  exists l, py_iter v = inr l /\ forallb ok l = true.
Proof.
  intros Hok. destruct v; simpl; intros H; try discriminate.
  - eexists. split; [reflexivity | apply forallb_chars, Hok].
  - eauto.
  - eexists. split; [reflexivity | apply forallb_keys, Hok].
Qed.

Lemma str_or_falsy_lower (v : pyval) :
  str_or_falsy v = true ->
  exists s, py_lower (py_or v (PStr "")) = inr s.
Proof.
  unfold str_or_falsy, py_or. destruct v as [| b | n | s | l | d]; simpl;
    intros H; try (eexists; reflexivity).
  - destruct b; [discriminate | eexists; reflexivity].
  - destruct (n =? 0); [eexists; reflexivity | discriminate].
  - destruct s; eexists; reflexivity.
  - destruct l; [eexists; reflexivity | discriminate].
  - destruct d; [eexists; reflexivity | discriminate].
Qed.

Lemma edu_degree_field_total (edu : pyval) :
  edu_ok edu = true -> exists df, edu_degree_field edu = inr df.
Proof.
  destruct edu; simpl; intros H; try (eexists; reflexivity).
  apply andb_prop in H as [Hd Hf].
  destruct (str_or_falsy_lower _ Hd) as [degree ->].
  destruct (str_or_falsy_lower _ Hf) as [field ->].
  eexists. reflexivity.
Qed.

Lemma education_loop_total job edus acc :
  education_required_ok (py_get job "education_required" (PStr "")) = true ->
  forallb edu_ok edus = true ->
  exists r, education_loop job edus acc = inr r.
Proof.
  intros Hreq. revert acc.
  induction edus as [|edu rest IH]; intros acc Hok; simpl.
  - eexists. reflexivity.
  - simpl in Hok. apply andb_prop in Hok as [Hedu Hrest].
    destruct (edu_degree_field_total _ Hedu) as [[[degree field]|] ->]; simpl;
      [|apply IH; exact Hrest].
    destruct (py_get job "education_required" (PStr ""));
      try discriminate Hreq.
    simpl in *.
    destruct (nonempty (lower s)) eqn:Hne.
    + assert (Hs : nonempty s = true) by (destruct s; [discriminate | reflexivity]).
      rewrite Hs in Hreq. simpl in Hreq.
      destruct (split_ws (lower s)) as [|b bs]; [discriminate|]. simpl.
      destruct (nonempty b && contains degree b); [|apply IH; exact Hrest].
      destruct (_ && _ && _); eexists; reflexivity.
    + simpl. apply IH. exact Hrest.
Qed.

Lemma exp_title_desc_total (exp : pyval) :
  exp_ok exp = true -> exists td, exp_title_desc exp = inr td.
Proof.
  destruct exp; simpl; intros H; try (eexists; reflexivity).
  apply andb_prop in H as [Ht _].
  destruct (str_or_falsy_lower _ Ht) as [title ->].
  eexists. reflexivity.
Qed.

Lemma experience_loop_total required exps e d :
  forallb exp_ok exps = true ->
  exists r, experience_loop required exps e d = inr r.
Proof.
  revert e d. induction exps as [|exp rest IH]; intros e d Hok; simpl.
  - eexists. reflexivity.
  - simpl in Hok. apply andb_prop in Hok as [Hexp Hrest].
    destruct (exp_title_desc_total _ Hexp) as [[[title desc_text]|] ->]; simpl;
      apply IH; exact Hrest.
Qed.

Lemma mapM_lower_total (l : list pyval) :
  forallb is_str l = true -> exists ls, mapM py_lower l = inr ls.
Proof.
  induction l as [|v l IH]; simpl; intros H; [eexists; reflexivity|].
  apply andb_prop in H as [Hv Hl].
  destruct v; try discriminate. simpl.
  destruct (IH Hl) as [ls ->]. eexists. reflexivity.
Qed.

Lemma project_techs_total required (proj : pyval) :
  proj_ok proj = true -> exists techs, project_techs required proj = inr techs.
Proof.
  destruct proj; simpl; intros H; try (eexists; reflexivity).
  destruct (items_ok_iter is_str _ (fun _ => eq_refl) H) as (items & -> & Hitems).
  simpl. destruct (mapM_lower_total _ Hitems) as [ls ->].
  eexists. reflexivity.
Qed.

Lemma projects_loop_total required projs acc :
  forallb proj_ok projs = true ->
  exists r, projects_loop required projs acc = inr r.
Proof.
  revert acc. induction projs as [|proj rest IH]; intros acc Hok; simpl.
  - eexists. reflexivity.
  - simpl in Hok. apply andb_prop in Hok as [Hproj Hrest].
    destruct (project_techs_total required _ Hproj) as [techs ->]. simpl.
    apply IH. exact Hrest.
Qed.

Lemma company_loop_total preferred exps acc :
  forallb work_ok exps = true ->
  exists r, company_loop preferred exps acc = inr r.
Proof.
  revert acc. induction exps as [|exp rest IH]; intros acc Hok; simpl.
  - eexists. reflexivity.
  - simpl in Hok. apply andb_prop in Hok as [Hexp Hrest].
    destruct exp; try (apply IH; exact Hrest).
    simpl in Hexp. destruct (str_or_falsy_lower _ Hexp) as [company ->].
    simpl. apply IH. exact Hrest.
Qed.

Lemma exp_ok_work_ok (exps : list pyval) :
  forallb exp_ok exps = true -> forallb work_ok exps = true.
Proof.
  induction exps as [|exp rest IH]; simpl; [reflexivity|].
  intros H. apply andb_prop in H as [Hexp Hrest].
  rewrite (IH Hrest), andb_true_r.
  destruct exp; try reflexivity. simpl in *.
  apply andb_prop in Hexp as [_ Hc]. exact Hc.
Qed.

(** X5.  [score] returns, and raises nothing, for every job and resume of the
    shapes of [job_ok] and [resume_ok]: skill fields of any iterable kind
    with items of any kind, entries that are dicts, strings or anything
    else, absent keys, and [None] or empty values in the entries. *)
Theorem score_returns_on_tolerated_shapes (resume job : pydict) :
  job_ok job = true ->
  resume_ok resume = true ->
  exists total bd mr miss, score resume job = inr (total, bd, mr, miss).
Proof.
  unfold job_ok, resume_ok. intros Hjob Hresume.
  repeat (apply andb_prop in Hjob as [Hjob ?Hj]).
  repeat (apply andb_prop in Hresume as [Hresume ?Hr]).
  destruct (iterable_iter _ Hjob) as [req Hreq].
  destruct (iterable_iter _ Hj2) as [pref Hpref].
  destruct (iterable_iter _ Hj1) as [must Hmust].
  destruct (items_ok_iter is_str _ (fun _ => eq_refl) Hj0)
    as (companies & Hcomp & Hcompanies).
  destruct (mapM_lower_total _ Hcompanies) as [lowered Hlow].
  destruct (items_ok_iter edu_ok _ (fun _ => eq_refl) Hresume)
    as (edus & Hedus & Hedus_ok).
  destruct (items_ok_iter exp_ok _ (fun _ => eq_refl) Hr1)
    as (exps & Hexps & Hexps_ok).
  destruct (items_ok_iter proj_ok _ (fun _ => eq_refl) Hr0)
    as (projs & Hprojs & Hprojs_ok).
  destruct (items_ok_iter work_ok _ (fun _ => eq_refl) Hr)
    as (work & Hwork & Hwork_ok).
  destruct (education_loop_total job edus 0 Hj Hedus_ok) as [edu_score Hedu].
  destruct (experience_loop_total (normalize_skill_set req) exps 0 0 Hexps_ok)
    as [[title_sum desc_sum] Hexp].
  destruct (projects_loop_total (normalize_skill_set req) projs 0 Hprojs_ok)
    as [proj_score Hproj].
  destruct (company_loop_total (list_to_set lowered) exps 0
              (exp_ok_work_ok _ Hexps_ok)) as [c1 Hc1].
  destruct (company_loop_total (list_to_set lowered) work c1 Hwork_ok)
    as [c2 Hc2].
  unfold score, normalized_field.
  rewrite Hreq, Hpref, Hmust. cbn [bind ret].
  rewrite Hedus. cbn [bind]. rewrite Hedu. cbn [bind].
  rewrite Hexps. cbn [bind]. rewrite Hexp. cbn [bind].
  rewrite Hprojs. cbn [bind]. rewrite Hproj. cbn [bind].
  rewrite Hcomp. cbn [bind]. rewrite Hlow. cbn [bind].
  rewrite Hc1. cbn [bind]. rewrite Hwork. cbn [bind]. rewrite Hc2. cbn [bind].
  eexists _, _, _, _. reflexivity.
Qed.

Lemma score_returns_on_tolerated_shapes_witness :
  job_ok Samples.job_mixed = true
  /\ resume_ok Samples.resume_mixed = true
  /\ exists total bd mr miss,
       score Samples.resume_mixed Samples.job_mixed
       = inr (total, bd, mr, miss).
Proof.
  split; [reflexivity|]. split; [reflexivity|].
  apply (score_returns_on_tolerated_shapes Samples.resume_mixed
           Samples.job_mixed); reflexivity.
Defined.

(** X6.  A required education that is not empty and has no word in it (only
    whitespace) makes [score] raise IndexError as soon as the resume has
    an education entry that is a string: the first word of the
    requirement is taken without a check. *)
Theorem score_raises_on_blank_education_required (resume job : pydict)
    (req edu : string) (rest : list pyval) :
  py_get job "education_required" (PStr "") = PStr req ->
  nonempty req = true ->
  split_ws (lower req) = [] ->
  py_get resume "education" (PList []) = PList (PStr edu :: rest) ->
  iterable (py_get job "required_skills" (PList [])) = true ->
  iterable (py_get job "preferred_skills" (PList [])) = true ->
  score resume job = inl (IndexError "list index out of range").
Proof.
  intros Hreq Hne Hws Hedu Hr Hp.
  destruct (iterable_iter _ Hr) as [required Hrequired].
  destruct (iterable_iter _ Hp) as [preferred Hpreferred].
  unfold score, normalized_field.
  rewrite Hrequired, Hpreferred, Hedu. cbn [bind ret py_iter].
  cbn [education_loop edu_degree_field bind ret].
  rewrite Hreq. cbn [py_lower bind ret].
  assert (Hl : nonempty (lower req) = true)
    by (destruct req; [discriminate | reflexivity]).
  rewrite Hl, Hws. reflexivity.
Qed.

Lemma score_raises_on_blank_education_required_witness :
  score Samples.resume_degree Samples.job_blank_education
  = inl (IndexError "list index out of range").
Proof.
  apply (score_raises_on_blank_education_required
           Samples.resume_degree Samples.job_blank_education
           " " "BSc Computer Science" []); reflexivity.
Defined.

End RuleBasedTotal.
(* ===================================================================== *)
(** * Further properties of the section segmenter                         *)
(* ===================================================================== *)

Module SegmenterMore.
Import PyStr PyStrFacts ResumeParser SegmenterFacts.

Lemma strip_idem (s : string) : strip (strip s) = strip s.
Proof.
  destruct (strip_fixed s) as [Hl Hr].
  unfold strip at 1. rewrite Hr. exact Hl.
Qed.

(** An invariant of the saved assignments is an invariant of the scan. *)
Lemma saves_invariant (P : SectionType -> string -> Prop)
    (Q : SectionType -> Prop) :
  (forall kind content,
      Q kind -> content <> "" -> strip content = content -> P kind content) ->
  (forall line kind, header_kind line = Some kind -> Q kind) ->
  forall (lines : list string) (st : scan),
    Q (current_section st) ->
    (forall kind content, In (kind, content) (saves st) -> P kind content) ->
    forall kind content,
      In (kind, content) (saves (save_section (foldl scan_line st lines))) ->
      P kind content.
Proof.
  intros HP HQ.
  assert (Hsave : forall st,
             Q (current_section st) ->
             (forall kind content, In (kind, content) (saves st) -> P kind content) ->
             (forall kind content,
                 In (kind, content) (saves (save_section st)) -> P kind content)).
  { intros st Hq Hst kind content. unfold save_section.
    destruct (current_content st) as [|x cc]; [apply Hst|].
    destruct (nonempty (strip (join NL (x :: cc)))) eqn:Hne; [|apply Hst].
    simpl. intros Hin. apply in_app_or in Hin as [Hin|[Heq|[]]]; [apply Hst, Hin|].
    injection Heq as <- <-. apply HP; [exact Hq | | apply strip_idem].
    apply nonempty_true. exact Hne. }
  induction lines as [|line lines IH]; intros st Hq Hst; [apply Hsave; assumption|].
  simpl. apply IH.
  - unfold scan_line. destruct (negb _); [destruct (current_content st); exact Hq|].
    destruct (header_kind line) eqn:Hk; [|exact Hq].
    simpl. eapply HQ. exact Hk.
  - unfold scan_line. destruct (negb _); [destruct (current_content st); exact Hst|].
    destruct (header_kind line); [|exact Hst].
    simpl. apply Hsave; assumption.
Qed.

Lemma dict_set_entries (d : section_map) k v k' v' :
  In (k', v') (dict_set d k v) -> (k', v') = (k, v) \/ In (k', v') d.
Proof.
  induction d as [|[k0 v0] d IH]; simpl.
  - intros [H|[]]. left. congruence.
  - destruct (decide (k0 = k)); simpl.
    + intros [H|H]; [left; congruence | right; right; exact H].
    + intros [H|H]; [right; left; exact H|].
      destruct (IH H); [left | right; right]; assumption.
Qed.

Lemma dict_set_keys (d : section_map) k v :
  forall k', In k' (map fst (dict_set d k v)) <-> k' = k \/ In k' (map fst d).
Proof.
  induction d as [|[k0 v0] d IH]; intros k'; simpl.
  - intuition congruence.
  - destruct (decide (k0 = k)) as [->|Hne]; simpl.
    + intuition congruence.
    + rewrite IH. intuition congruence.
Qed.

Lemma dict_set_NoDup (d : section_map) k v :
  List.NoDup (map fst d) -> List.NoDup (map fst (dict_set d k v)).
Proof.
  induction d as [|[k0 v0] d IH]; simpl; intros Hd.
  - constructor; [intros [] | constructor].
  - inversion Hd as [|? ? Hnot Hrest]; subst.
    destruct (decide (k0 = k)) as [->|Hne]; simpl.
    + constructor; assumption.
    + constructor; [|apply IH; exact Hrest].
      rewrite dict_set_keys. intros [Heq|Hin]; [congruence | contradiction].
Qed.

Lemma assign_all_entries (l : list (SectionType * string)) (d : section_map) kv :
  In kv (assign_all d l) -> In kv d \/ In kv l.
Proof.
  revert d. induction l as [|[k v] l IH]; intros d; simpl; [auto|].
  intros Hin. apply IH in Hin as [Hin|Hin]; [|auto].
  destruct kv as [k' v']. apply dict_set_entries in Hin as [Heq|Hin]; auto.
Qed.

Lemma assign_all_NoDup (l : list (SectionType * string)) (d : section_map) :
  List.NoDup (map fst d) -> List.NoDup (map fst (assign_all d l)).
Proof.
  revert d. induction l as [|[k v] l IH]; intros d Hd; simpl; [exact Hd|].
  apply IH, dict_set_NoDup, Hd.
Qed.

(** Every entry of the mapping was saved by the scan. *)
Lemma detect_sections_saved (text : string) (kv : SectionType * string) :
  In kv (detect_sections text) -> In kv (saved_sections text).
Proof.
  rewrite detect_sections_assignments. intros Hin.
  apply assign_all_entries in Hin as [[]|Hin]. exact Hin.
Qed.

(** X11.  The mapping that [detect_sections] returns has each section kind at
    most once, and each of its contents was saved by the scan, is not
    empty and has no whitespace at either end. *)
Theorem detect_sections_well_formed (text : string) :
  List.NoDup (map fst (detect_sections text))
  /\ Forall (fun kv => In kv (saved_sections text)
                       /\ snd kv <> ""
                       /\ strip (snd kv) = snd kv)
       (detect_sections text).
Proof.
  rewrite detect_sections_assignments. split.
  - apply assign_all_NoDup. constructor.
  - apply List.Forall_forall. intros [kind content] Hin.
    apply assign_all_entries in Hin as [[]|Hin].
    split; [exact Hin|]. simpl.
    unfold saved_sections, scan_text in Hin.
    apply (saves_invariant
             (fun _ content => content <> "" /\ strip content = content)
             (fun _ => True)) with (lines := split_on (ascii_of_nat 10) text)
             (st := scan_start) (kind := kind); auto.
    intros k c [].
Qed.

(** The kinds that a pattern of [section_patterns] stands for. *)
Lemma first_section_in_table (table : list (SectionType * list string))
    (s : string) (kind : SectionType) :
  first_section table s = Some kind -> In kind (map fst table).
Proof.
  induction table as [|[k patterns] table IH]; simpl; [discriminate|].
  destruct (matches_any patterns s); [|auto].
  intros H. left. congruence.
Qed.

Lemma header_kind_in_table (line : string) (kind : SectionType) :
  header_kind line = Some kind -> In kind (map fst section_patterns).
Proof.
  unfold header_kind, _identify_section_header.
  destruct (Nat.ltb _ _); [discriminate|].
  destruct (first_section _ _) as [k|] eqn:E; [|discriminate].
  destruct (decide (k = UNKNOWN)); [discriminate|].
  intros H. assert (k = kind) as -> by congruence.
  eapply first_section_in_table. exact E.
Qed.

(** X12.  The segmenter names eight of the eleven section kinds: the header
    and the seven kinds that have patterns.  No section is ever labelled
    contact, languages or unknown. *)
Theorem detect_sections_kinds (text : string) :
  Forall (fun kv =>
            In (fst kv)
               [ HEADER; SUMMARY; EXPERIENCE; EDUCATION; SKILLS;
                 CERTIFICATIONS; PROJECTS; ACCOMPLISHMENTS ])
         (detect_sections text).
Proof.
  apply List.Forall_forall. intros [kind content] Hin.
  pose proof (detect_sections_saved text _ Hin) as Hsaved.
  unfold saved_sections, scan_text in Hsaved. simpl.
  apply (saves_invariant
           (fun kind _ => In kind (HEADER :: map fst section_patterns))
           (fun kind => In kind (HEADER :: map fst section_patterns)))
    with (lines := split_on (ascii_of_nat 10) text)
         (st := scan_start) (content := content); auto.
  - intros line k Hk. right. eapply header_kind_in_table. exact Hk.
  - left. reflexivity.
  - intros k c [].
Qed.

Lemma scan_blank_lines (lines : list string) :
  forallb (fun line => negb (nonempty (strip line))) lines = true ->
  foldl scan_line scan_start lines = scan_start.
Proof.
  induction lines as [|line lines IH]; simpl; [reflexivity|].
  intros H. apply andb_prop in H as [Hline Hrest].
  unfold scan_line at 2. rewrite Hline. simpl. apply IH, Hrest.
Qed.

(** X13.  A text with nothing but blank lines, the empty text among them, has
    no sections. *)
Theorem detect_sections_of_blank_text (text : string) :
  forallb (fun line => negb (nonempty (strip line)))
          (split_on (ascii_of_nat 10) text) = true ->
  detect_sections text = [].
Proof.
  intros H. unfold detect_sections, scan_text.
  rewrite scan_blank_lines by exact H. reflexivity.
Qed.

Lemma detect_sections_of_blank_text_witness :
  detect_sections Samples.blank_text = []
  /\ detect_sections "" = [].
Proof.
  split; apply detect_sections_of_blank_text; vm_compute; reflexivity.
Defined.

Lemma scan_without_headers (lines : list string) (st : scan) :
  forallb (fun line => negb (ResumeParser.is_Some_b (header_kind line))) lines
  = true ->
  current_section st = HEADER -> saves st = [] -> sections st = [] ->
  let st' := foldl scan_line st lines in
  current_section st' = HEADER /\ saves st' = [] /\ sections st' = [].
Proof.
  revert st. induction lines as [|line lines IH]; intros st H Hc Hs Hd; simpl;
    [auto|].
  simpl in H. apply andb_prop in H as [Hline Hrest].
  apply IH; try exact Hrest; unfold scan_line;
    (destruct (negb (nonempty (strip line)));
     [destruct (current_content st); assumption|]);
    destruct (header_kind line); try discriminate; assumption.
Qed.

(** X14.  A text without a header line is one section, the header: the
    returned mapping is empty or holds the whole stripped text under
    [HEADER]. *)
Theorem detect_sections_without_headers (text : string) :
  forallb (fun line => negb (ResumeParser.is_Some_b (header_kind line)))
          (split_on (ascii_of_nat 10) text) = true ->
  detect_sections text = []
  \/ exists content, detect_sections text = [(HEADER, content)].
Proof.
  intros H. unfold detect_sections, scan_text.
  destruct (scan_without_headers _ scan_start H eq_refl eq_refl eq_refl)
    as (Hc & Hs & Hd).
  unfold save_section.
  destruct (current_content _); [left; exact Hd|].
  destruct (nonempty _); [|left; exact Hd].
  right. simpl. rewrite Hd, Hc. eexists. reflexivity.
Qed.

Lemma detect_sections_without_headers_witness :
  detect_sections Examples.jane_header
  = [(HEADER, Examples.jane_header)]
  /\ (detect_sections Examples.jane_header = []
      \/ exists content,
           detect_sections Examples.jane_header = [(HEADER, content)]).
Proof.
  split; [vm_compute; reflexivity|].
  apply detect_sections_without_headers. vm_compute; reflexivity.
Defined.

End SegmenterMore.
(* ===================================================================== *)
(** * The categories of [extract_skills]                                  *)
(* ===================================================================== *)

Module SkillFacts.
Import PyStr SkillExtraction.

(** The names [variant_patterns] adds. *)
Definition canonical_names : list string := map fst variant_patterns.

(** The names that can come under [tools]. *)
Definition tool_or_framework_names : list string :=
  tool_names ++ framework_names.

(** How the lists stand to each other and to the literals, at every
    point of the loops. *)
Record sorted_out (sk : skill_lists) : Prop := {
  so_all : forall x, In x (all sk) <-> In x (technical sk) \/ In x (soft sk);
  so_languages :
    forall x, In x (languages sk) -> In x (technical sk) /\ In x language_names;
  so_tools :
    forall x, In x (tools sk) ->
              In x (technical sk) /\ In x tool_or_framework_names;
  so_databases :
    forall x, In x (databases sk) -> In x (technical sk) /\ In x database_names;
  so_technical :
    forall x, In x (technical sk) ->
              In x (languages sk) \/ In x (tools sk) \/ In x (databases sk)
              \/ In x canonical_names;
  so_soft : forall x, In x (soft sk) -> In x soft_skills
}.

Lemma in_snoc {A} (l : list A) (a x : A) : In x (l ++ [a]) <-> In x l \/ x = a.
Proof.
  rewrite in_app_iff. simpl. intuition congruence.
Qed.

Lemma sorted_out_start : sorted_out no_skills.
Proof. split; simpl; intros x; tauto. Qed.

Lemma add_language (skill : string) (sk : skill_lists) :
  In skill language_names -> sorted_out sk ->
  sorted_out (add_technical "languages" skill sk).
Proof.
  intros Hin [Ha Hl Ht Hd Hte Hs].
  change (add_technical "languages" skill sk)
    with (Lists (all sk ++ [skill]) (technical sk ++ [skill]) (soft sk)
                (languages sk ++ [skill]) (tools sk) (databases sk)).
  split; cbn [all technical soft languages tools databases]; intros x;
    rewrite ?in_snoc.
  - rewrite Ha. tauto.
  - intros [H| ->]; [destruct (Hl x H); tauto | tauto].
  - intros H. destruct (Ht x H). tauto.
  - intros H. destruct (Hd x H). tauto.
  - intros [H| ->]; [specialize (Hte x H); tauto | tauto].
  - apply Hs.
Qed.

Lemma add_tool (category skill : string) (sk : skill_lists) :
  category = "tools" \/ category = "frameworks" ->
  In skill tool_or_framework_names -> sorted_out sk ->
  sorted_out (add_technical category skill sk).
Proof.
  intros Hc Hin [Ha Hl Ht Hd Hte Hs].
  assert (Heq : add_technical category skill sk
                = Lists (all sk ++ [skill]) (technical sk ++ [skill]) (soft sk)
                        (languages sk) (tools sk ++ [skill]) (databases sk))
    by (destruct Hc as [-> | ->]; reflexivity).
  rewrite Heq.
  split; cbn [all technical soft languages tools databases]; intros x;
    rewrite ?in_snoc.
  - rewrite Ha. tauto.
  - intros H. destruct (Hl x H). tauto.
  - intros [H| ->]; [destruct (Ht x H); tauto | tauto].
  - intros H. destruct (Hd x H). tauto.
  - intros [H| ->]; [specialize (Hte x H); tauto | tauto].
  - apply Hs.
Qed.

Lemma add_database (skill : string) (sk : skill_lists) :
  In skill database_names -> sorted_out sk ->
  sorted_out (add_technical "databases" skill sk).
Proof.
  intros Hin [Ha Hl Ht Hd Hte Hs].
  change (add_technical "databases" skill sk)
    with (Lists (all sk ++ [skill]) (technical sk ++ [skill]) (soft sk)
                (languages sk) (tools sk) (databases sk ++ [skill])).
  split; cbn [all technical soft languages tools databases]; intros x;
    rewrite ?in_snoc.
  - rewrite Ha. tauto.
  - intros H. destruct (Hl x H). tauto.
  - intros H. destruct (Ht x H). tauto.
  - intros [H| ->]; [destruct (Hd x H); tauto | tauto].
  - intros [H| ->]; [specialize (Hte x H); tauto | tauto].
  - apply Hs.
Qed.

(** The inner loop over the skills of one category. *)
Lemma tech_steps (text category : string) (names : list string)
    (add_ok : forall skill sk, In skill names -> sorted_out sk ->
                               sorted_out (add_technical category skill sk))
    (todo : list string) :
  (forall skill, In skill todo -> In skill names) ->
  forall sk, sorted_out sk ->
             sorted_out (foldl (tech_step text category) sk todo).
Proof.
  induction todo as [|skill todo IH]; intros Hsub sk Hsk; [exact Hsk|].
  cbn [foldl]. apply IH; [intros s Hs; apply Hsub; right; exact Hs|].
  unfold tech_step. destruct (mentioned _ text); [|exact Hsk].
  apply add_ok; [apply Hsub; left; reflexivity | exact Hsk].
Qed.

Lemma tech_loop_sorted_out (text : string) (sk : skill_lists) :
  sorted_out sk -> sorted_out (tech_loop text sk).
Proof.
  intros Hsk. unfold tech_loop, tech_skills. cbn [foldl fst snd].
  apply (tech_steps text "tools" tool_or_framework_names).
  { intros skill s. apply add_tool. left. reflexivity. }
  { intros skill H. apply in_app_iff. left. exact H. }
  apply (tech_steps text "databases" database_names).
  { intros skill s. apply add_database. }
  { auto. }
  apply (tech_steps text "frameworks" tool_or_framework_names).
  { intros skill s. apply add_tool. right. reflexivity. }
  { intros skill H. apply in_app_iff. right. exact H. }
  apply (tech_steps text "languages" language_names).
  { intros skill s. apply add_language. }
  { auto. }
  exact Hsk.
Qed.

Lemma variant_steps (text : string) (todo : list (string * list string)) :
  (forall entry, In entry todo -> In (fst entry) canonical_names) ->
  forall sk, sorted_out sk -> sorted_out (foldl (variant_step text) sk todo).
Proof.
  induction todo as [|entry todo IH]; intros Hsub sk Hsk; [exact Hsk|].
  cbn [foldl]. apply IH; [intros e He; apply Hsub; right; exact He|].
  unfold variant_step. destruct (existsb _ (snd entry)); [|exact Hsk].
  pose proof (Hsub entry (or_introl eq_refl)) as Hin.
  destruct Hsk as [Ha Hl Ht Hd Hte Hs].
  split; cbn [all technical soft languages tools databases]; intros x;
    rewrite ?in_snoc.
  - rewrite Ha. tauto.
  - intros H. destruct (Hl x H). tauto.
  - intros H. destruct (Ht x H). tauto.
  - intros H. destruct (Hd x H). tauto.
  - intros [H| ->]; [specialize (Hte x H); tauto | tauto].
  - apply Hs.
Qed.

Lemma soft_steps (text : string) (todo : list string) :
  (forall skill, In skill todo -> In skill soft_skills) ->
  forall sk, sorted_out sk -> sorted_out (foldl (soft_step text) sk todo).
Proof.
  induction todo as [|skill todo IH]; intros Hsub sk Hsk; [exact Hsk|].
  cbn [foldl]. apply IH; [intros s Hs; apply Hsub; right; exact Hs|].
  unfold soft_step. destruct (mentioned _ text); [|exact Hsk].
  pose proof (Hsub skill (or_introl eq_refl)) as Hin.
  destruct Hsk as [Ha Hl Ht Hd Hte Hs].
  split; cbn [all technical soft languages tools databases]; intros x;
    rewrite ?in_snoc.
  - rewrite Ha. tauto.
  - apply Hl.
  - apply Ht.
  - apply Hd.
  - apply Hte.
  - intros [H| ->]; [apply Hs, H | exact Hin].
Qed.

Lemma collected_sorted_out (text : string) : sorted_out (collected text).
Proof.
  unfold collected, soft_loop, variant_loop.
  apply soft_steps; [auto|].
  apply variant_steps; [intros entry H; apply in_map; exact H|].
  apply tech_loop_sorted_out, sorted_out_start.
Qed.

(** Two lists of names with no name in common. *)
Definition apart (l1 l2 : list string) : bool :=
  forallb (fun x => negb (existsb (String.eqb x) l2)) l1.

Lemma apart_spec (l1 l2 : list string) :
  apart l1 l2 = true -> forall x, In x l1 -> In x l2 -> False.
Proof.
  unfold apart. rewrite forallb_forall. intros H x H1 H2.
  specialize (H x H1). apply negb_true_iff in H.
  assert (Hex : existsb (String.eqb x) l2 = true)
    by (apply existsb_exists; exists x; split; [exact H2 | apply String.eqb_refl]).
  congruence.
Qed.

Lemma in_set (l : list string) (x : string) :
  x ∈ (list_to_set l : gset string) <-> In x l.
Proof. rewrite elem_of_list_to_set. apply list_elem_of_In. Qed.

(** X24.  Under every text, [all] holds the skills of [technical] and of
    [soft] and no other; [languages], [tools] and [databases] hold
    technical skills only, and a technical skill that is in none of the
    three is one of the canonical names of [variant_patterns]. *)
Theorem extract_skills_all_is_technical_and_soft (text : string) :
  skills_all (extract_skills text)
  = skills_technical (extract_skills text) ∪ skills_soft (extract_skills text)
  /\ skills_languages (extract_skills text)
       ∪ skills_tools (extract_skills text)
       ∪ skills_databases (extract_skills text)
     ⊆ skills_technical (extract_skills text)
  /\ skills_technical (extract_skills text)
     ⊆ skills_languages (extract_skills text)
       ∪ skills_tools (extract_skills text)
       ∪ skills_databases (extract_skills text)
       ∪ list_to_set canonical_names.
Proof.
  destruct (collected_sorted_out text) as [Ha Hl Ht Hd Hte Hs].
  unfold extract_skills. cbn [skills_all skills_technical skills_soft
    skills_languages skills_tools skills_databases].
  split; [|split].
  - apply set_eq. intros x. rewrite elem_of_union, !in_set. apply Ha.
  - intros x. rewrite !elem_of_union, !in_set.
    intros [[H|H]|H]; [apply (Hl x H) | apply (Ht x H) | apply (Hd x H)].
  - intros x. rewrite !elem_of_union, !in_set. intros H.
    specialize (Hte x H). tauto.
Qed.

(** X25.  Under every text, each category holds names of its own literal
    only ([tools] those of the tools and of the frameworks), spelled as
    in the literal; no skill is in two of [languages], [tools] and
    [databases], and none is both technical and soft. *)
Theorem extract_skills_names_come_from_the_literals (text : string) :
  skills_languages (extract_skills text) ⊆ list_to_set language_names
  /\ skills_tools (extract_skills text) ⊆ list_to_set tool_or_framework_names
  /\ skills_databases (extract_skills text) ⊆ list_to_set database_names
  /\ skills_soft (extract_skills text) ⊆ list_to_set soft_skills
  /\ skills_languages (extract_skills text) ## skills_tools (extract_skills text)
  /\ skills_languages (extract_skills text)
     ## skills_databases (extract_skills text)
  /\ skills_tools (extract_skills text) ## skills_databases (extract_skills text)
  /\ skills_technical (extract_skills text) ## skills_soft (extract_skills text).
Proof.
  destruct (collected_sorted_out text) as [Ha Hl Ht Hd Hte Hs].
  unfold extract_skills. cbn [skills_all skills_technical skills_soft
    skills_languages skills_tools skills_databases].
  repeat match goal with |- _ /\ _ => split end.
  - intros x. rewrite !in_set. apply Hl.
  - intros x. rewrite !in_set. apply Ht.
  - intros x. rewrite !in_set. apply Hd.
  - intros x. rewrite !in_set. apply Hs.
  - intros x. rewrite !in_set. intros H1 H2.
    apply (apart_spec language_names tool_or_framework_names eq_refl x);
      [apply (Hl x H1) | apply (Ht x H2)].
  - intros x. rewrite !in_set. intros H1 H2.
    apply (apart_spec language_names database_names eq_refl x);
      [apply (Hl x H1) | apply (Hd x H2)].
  - intros x. rewrite !in_set. intros H1 H2.
    apply (apart_spec tool_or_framework_names database_names eq_refl x);
      [apply (Ht x H1) | apply (Hd x H2)].
  - intros x. rewrite !in_set. intros H1 H2.
    apply (apart_spec
             (language_names ++ tool_or_framework_names ++ database_names
              ++ canonical_names) soft_skills eq_refl x);
      [|apply (Hs x H2)].
    rewrite !in_app_iff.
    destruct (Hte x H1) as [H|[H|[H|H]]];
      [left; apply (Hl x H) | right; left; apply (Ht x H)
       | right; right; left; apply (Hd x H) | right; right; right; exact H].
Qed.

End SkillFacts.
